(** * A shallow embedding of crawl's menu core (crawl-ref/source/menu.cc)

    The development follows the local-tiles build of the file
    (USE_TILE_LOCAL), the only one that contains the layout engine
    [do_layout] and the page-height cap [get_max_viewport_height].

    C++ [int] values are modelled by [Z]; signed overflow is undefined
    behaviour in C++ and is not modelled.  The one unsigned counter whose
    wrap-around is reachable ([num_items] in [get_max_viewport_height], a
    [size_t]) is wrapped explicitly.  An out-of-range vector access and a
    failed ASSERT are both modelled by [None]. *)

From Stdlib Require Import ZArith List String Ascii Bool Lia.
From Stdlib Require DecimalString DecimalPos.
Import ListNotations.
Open Scope Z_scope.

(** ** Small utilities *)

(** [v[i]] for an [int] index: [None] when the access is out of range. *)
Definition at_ {A : Type} (l : list A) (i : Z) : option A :=
  if i <? 0 then None else nth_error l (Z.to_nat i).

(** [v.size()] converted to [int]. *)
Definition size {A : Type} (l : list A) : Z := Z.of_nat (List.length l).

(** Replace element [i] of a vector (no effect out of range; every caller
    below has already read [v[i]]). *)
Fixpoint set_nth {A : Type} (l : list A) (i : nat) (a : A) : list A :=
  match l, i with
  | [], _ => []
  | _ :: t, O => a :: t
  | h :: t, S j => h :: set_nth t j a
  end.

Definition INT_MAX : Z := 2147483647.
Definition INT_MIN : Z := -2147483648.

(** [int] arithmetic: a sum that leaves the range of [int] wraps around
    (two's complement, as the compiled code computes it). *)
Definition wrap_int (z : Z) : Z := (z + 2 ^ 31) mod 2 ^ 32 - 2 ^ 31.

(** ** Entry model *)

Inductive MenuEntryLevel := MEL_NONE | MEL_TITLE | MEL_SUBTITLE | MEL_ITEM.

Definition level_eqb (a b : MenuEntryLevel) : bool :=
  match a, b with
  | MEL_NONE, MEL_NONE | MEL_TITLE, MEL_TITLE
  | MEL_SUBTITLE, MEL_SUBTITLE | MEL_ITEM, MEL_ITEM => true
  | _, _ => false
  end.

(** The [on_select] member is a [std::function]; an entry stores a handle to
    the callback and the callbacks themselves live in the environment. *)
Definition ActionId := nat.

Record MenuEntry := mkEntry {
  text : string;
  level : MenuEntryLevel;
  hotkeys : list Z;
  quantity : Z;
  selected_qty : Z;
  indent_no_hotkeys : bool;
  tiles : list Z;
  on_select : option ActionId
}.

Definition set_selected_qty (e : MenuEntry) (q : Z) : MenuEntry :=
  mkEntry (text e) (level e) (hotkeys e) (quantity e) q
          (indent_no_hotkeys e) (tiles e) (on_select e).

Definition has_action (e : MenuEntry) : bool :=
  match on_select e with Some _ => true | None => false end.

(** [MenuEntry::selected]:
    [selected_qty > 0 && (quantity || on_select)]. *)
Definition selected (e : MenuEntry) : bool :=
  (0 <? selected_qty e) && (negb (quantity e =? 0) || has_action e).

(** [MenuEntry::select]. *)
Definition select (e : MenuEntry) (qty : Z) : MenuEntry :=
  if has_action e && (quantity e =? 0) then set_selected_qty e 1
  else if qty =? -2 then set_selected_qty e (quantity e)
  else if selected e then set_selected_qty e 0
  else if negb (quantity e =? 0)
       then set_selected_qty e (if qty =? -1 then quantity e else qty)
  else e.

(** The four cases of the specification text, without the guard on
    [quantity] in the last one; used only to compare with [select]. *)
Definition select_as_specified (e : MenuEntry) (qty : Z) : MenuEntry :=
  if has_action e && (quantity e =? 0) then set_selected_qty e 1
  else if qty =? -2 then set_selected_qty e (quantity e)
  else if selected e then set_selected_qty e 0
  else set_selected_qty e (if qty =? -1 then quantity e else qty).

(** [MenuEntry::hotkeys_count]. *)
Definition hotkeys_count (e : MenuEntry) : Z := size (hotkeys e).

(** Modelled from the spec: [MenuEntry::is_hotkey] is declared in menu.h,
    which is not part of the source; "key is one of its hotkeys". *)
Definition entry_is_hotkey (e : MenuEntry) (key : Z) : bool :=
  existsb (Z.eqb key) (hotkeys e).

(** ** External capabilities

    Everything the menu core consumes from code outside menu.cc: the font
    of the entry text ([FontWrapper]), constants of ui.h and cio.h, the
    key-to-command table, the stored callbacks and the text patterns. *)

Inductive command_type :=
  | CMD_NO_CMD | CMD_MENU_UP | CMD_MENU_DOWN | CMD_MENU_LINE_UP
  | CMD_MENU_LINE_DOWN | CMD_MENU_PAGE_UP | CMD_MENU_PAGE_DOWN
  | CMD_MENU_SCROLL_TO_TOP | CMD_MENU_SCROLL_TO_END | CMD_MENU_SEARCH
  | CMD_MENU_CYCLE_MODE | CMD_MENU_CYCLE_MODE_REVERSE
  | CMD_MENU_CYCLE_HEADERS | CMD_MENU_HELP | CMD_MENU_EXIT
  | CMD_OTHER (n : nat).

Definition is_no_cmd (c : command_type) : bool :=
  match c with CMD_NO_CMD => true | _ => false end.

Record Env := mkEnv {
  (** [m_font_entry->char_height()] *)
  char_height : Z;
  (** [m_font_entry->string_width(fs)] *)
  string_width : string -> Z;
  (** [m_font_entry->split(fs, max_width, max_height)] *)
  font_split : string -> Z -> Z -> string;
  (** [m_font_entry->string_height(fs)] *)
  string_height : string -> Z;
  (** ui.h *)
  UI_SCROLLER_SHADE_SIZE : Z;
  (** cio.h key codes *)
  CK_REDRAW : Z;
  CK_MOUSE_B1 : Z;
  CK_MOUSE_CLICK : Z;
  CK_ENTER : Z;
  ESCAPE : Z;
  (** [key_to_command(keyin, KMC_MENU)] *)
  key_to_command : Z -> command_type;
  (** running a stored [on_select] / [on_single_selection] callback *)
  invoke : ActionId -> MenuEntry -> bool;
  (** [text_pattern(pat).matches(text)] *)
  pattern_matches : string -> string -> bool;
  (** [MenuEntry::get_filter_text] (virtual, menu.h) *)
  get_filter_text : MenuEntry -> string;
  (** [keycode_to_name] *)
  keycode_to_name : Z -> string;
  (** [Options.tile_menu_icons] *)
  tile_menu_icons : bool;
  (** the line typed at [title_prompt] *)
  title_prompt_line : string;
  (** [crawl_state.seen_hups] *)
  seen_hups : bool
}.

Definition UINT_MAX : Z := 4294967295.

(** ** Layout state of the widget ([class UIMenu]) *)

Record MenuItemInfo := mkInfo {
  x : Z;
  y : Z;
  row : Z;
  column : Z;
  itext : string;
  itiles : list Z;
  heading : bool
}.

(** A value-initialized [MenuItemInfo], as [vector::resize] creates it. *)
Definition default_info : MenuItemInfo := mkInfo 0 0 0 0 EmptyString [] false.

Record UIMenu := mkUI {
  m_height : Z;
  m_hover_idx : Z;
  m_min_col_width : Z;
  m_force_scroll : Z;
  m_initial_hover_snap : bool;
  m_scroll_context : Z;
  m_nat_column_width : Z;
  m_num_columns : Z;
  item_info : list MenuItemInfo;
  row_heights : list Z;
  m_mouse_x : Z;
  m_mouse_y : Z;
  m_draw_tiles : bool;
  m_region_x : Z;
  m_region_y : Z;
  m_region_width : Z;
  m_region_height : Z
}.

(** Modelled from the spec: the scroller ([ui::Scroller], ui.cc) is not
    part of the source; it holds the scroll offset and the height of its
    region, the viewport height. *)
Record Scroller := mkScroller {
  m_scroll : Z;
  region_height : Z
}.

Definition item_pad : Z := 2.
Definition pad_right : Z := 10.

(** [s[i]] of a [std::string]; the terminating NUL at [i = size()].  The
    source also reads [s[1]] and [s[3]] of shorter strings; whatever such
    a read yields, the result of [_has_hotkey_prefix] is the same
    ([has_hotkey_prefix_short]), and the model gives it the value 0. *)
Definition char_at (s : string) (i : nat) : Z :=
  match String.get i s with
  | Some c => Z.of_N (N_of_ascii c)
  | None => 0
  end.

(** The test of [_has_hotkey_prefix] on the characters [rd 0 .. rd 4]. *)
Definition hotkey_prefix_of (rd : nat -> Z) : bool :=
  let let_ := ((97 <=? rd 1%nat) && (rd 1%nat <=? 122))
              || ((65 <=? rd 1%nat) && (rd 1%nat <=? 90)) in
  let plus := (rd 3%nat =? 45) || (rd 3%nat =? 43) || (rd 3%nat =? 35) in
  let_ && plus && (rd 0%nat =? 32) && (rd 2%nat =? 32) && (rd 4%nat =? 32).

(** [_has_hotkey_prefix]. *)
Definition _has_hotkey_prefix (s : string) : bool :=
  hotkey_prefix_of (char_at s).

(** [formatted_string::chop(n)] and [n] calls of [del_char]. *)
Definition chop (n : nat) (s : string) : string := String.substring 0 n s.
Definition del_chars (n : nat) (s : string) : string :=
  String.substring n (String.length s - n) s.

(** The local variables of [do_layout] together with the two members it
    updates while it walks the entries. *)
Record LayoutAcc := mkAcc {
  l_column : Z;
  l_column_width : Z;
  l_row_height : Z;
  l_height : Z;
  l_row_heights : list Z;
  l_scroll_context : Z
}.

Section Layout.

Variable env : Env.

(** The wrapped height of a non-heading entry that does not fit its
    column, and the start of its text. *)
Definition wrap_item (max_column_width text_indent item_height : Z)
    (entry : MenuItemInfo) : Z * Z :=
  let text_height := char_height env in
  let '(text_sx, txt) :=
    if _has_hotkey_prefix (itext entry)
    then (text_indent + string_width env (chop 5 (itext entry)),
          del_chars 5 (itext entry))
    else (text_indent, itext entry) in
  let w := max_column_width - text_sx - pad_right in
  let split := font_split env txt w UINT_MAX in
  let string_height_ := Z.min (string_height env split) (text_height * 2) in
  (text_sx, Z.max item_height string_height_).

(** One iteration of the loop of [do_layout], on entry [i]. *)
Definition layout_entry (mw num_columns : Z) (no_wrap_rows draw_tiles : bool)
    (i : nat) (entry : MenuItemInfo) (a : LayoutAcc) : MenuItemInfo * LayoutAcc :=
  let max_column_width := Z.quot mw num_columns in
  let text_height := char_height env in
  let column := if heading entry then 0 else Z.rem (l_column a + 1) num_columns in
  let a1 :=
    if column =? 0 then
      let row_height :=
        l_row_height a + (if l_row_height a =? 0 then 0 else 2 * item_pad) in
      let height := l_height a + row_height in
      mkAcc column (l_column_width a) 0 height
            (l_row_heights a ++ [height])
            (Z.max (l_scroll_context a) row_height)
    else
      mkAcc column (l_column_width a) (l_row_height a) (l_height a)
            (l_row_heights a) (l_scroll_context a) in
  let text_width := string_width env (itext entry) in
  let ey := l_height a1 in
  let erow := size (l_row_heights a1) - 1 in
  if heading entry then
    let row_height := text_height + (match i with O => 5 | S _ => 10 end) in
    let row_height :=
      if draw_tiles && (mw <? text_width)
      then Z.max row_height
                 (string_height env (font_split env (itext entry) mw UINT_MAX))
      else row_height in
    (mkInfo 0 ey erow column (itext entry) (itiles entry) (heading entry),
     mkAcc (num_columns - 1) (l_column_width a1) row_height (l_height a1)
           (l_row_heights a1) (l_scroll_context a1))
  else
    let text_indent := if draw_tiles then 38 else 0 in
    let item_height :=
      Z.max text_height (match itiles entry with [] => 0 | _ :: _ => 32 end) in
    let '(text_sx, item_height) :=
      if negb no_wrap_rows
         && (max_column_width - text_indent - pad_right <? text_width)
      then wrap_item max_column_width text_indent item_height entry
      else (text_indent, item_height) in
    (mkInfo text_indent ey erow column (itext entry) (itiles entry) (heading entry),
     mkAcc column
           (Z.max (l_column_width a1) (text_sx + text_width + pad_right))
           (Z.max (l_row_height a1) item_height) (l_height a1)
           (l_row_heights a1) (l_scroll_context a1)).

(** The loop of [do_layout] from entry [i] on. *)
Fixpoint layout_loop (mw num_columns : Z) (no_wrap_rows draw_tiles : bool)
    (i : nat) (infos : list MenuItemInfo) (a : LayoutAcc)
    : list MenuItemInfo * LayoutAcc :=
  match infos with
  | [] => ([], a)
  | entry :: rest =>
      let '(entry', a') :=
        layout_entry mw num_columns no_wrap_rows draw_tiles i entry a in
      let '(rest', a'') :=
        layout_loop mw num_columns no_wrap_rows draw_tiles (S i) rest a' in
      (entry' :: rest', a'')
  end.

(** The statements of [do_layout] after its loop. *)
Definition layout_finish (a : LayoutAcc) : LayoutAcc :=
  let row_height :=
    l_row_height a + (if l_row_height a =? 0 then 0 else 2 * item_pad) in
  let height := l_height a + row_height in
  mkAcc (l_column a) (l_column_width a + 2 * item_pad) row_height height
        (l_row_heights a ++ [height])
        (Z.max (l_scroll_context a) row_height).

(** [UIMenu::do_layout(mw, num_columns)]; [n_items] is
    [m_menu->items.size()] and [no_wrap_rows] is
    [m_menu->is_set(MF_NO_WRAP_ROWS)].  [None]: division by zero, or
    [item_info] shorter than the entry list. *)
Definition do_layout (n_items : nat) (no_wrap_rows : bool)
    (mw num_columns : Z) (u : UIMenu) : option UIMenu :=
  if num_columns =? 0 then None
  else if (List.length (item_info u) <? n_items)%nat then None
  else
    let min_column_width :=
      if 0 <? m_min_col_width u then m_min_col_width u else 400 in
    let max_column_width := Z.quot mw num_columns in
    let '(infos, a) :=
      layout_loop mw num_columns no_wrap_rows (m_draw_tiles u) O
                  (firstn n_items (item_info u))
                  (mkAcc (-1) 0 0 0 [] (m_scroll_context u)) in
    let a := layout_finish a in
    Some (mkUI (l_height a) (m_hover_idx u) (m_min_col_width u)
               (m_force_scroll u) (m_initial_hover_snap u)
               (l_scroll_context a)
               (Z.max min_column_width
                      (Z.min (l_column_width a) max_column_width))
               (m_num_columns u)
               (infos ++ skipn n_items (item_info u))
               (l_row_heights a)
               (m_mouse_x u) (m_mouse_y u) (m_draw_tiles u)
               (m_region_x u) (m_region_y u) (m_region_width u)
               (m_region_height u)).

End Layout.

(** ** Visible range and page-height cap *)

(** First loop of [UIMenu::is_visible_item_range]: the index of the first
    entry whose row ends below [scroll] ([Some (Some i)]), or the end of
    the loop ([Some None]). *)
Fixpoint vis_min_loop (rhs : list Z) (scroll : Z) (l : list MenuItemInfo)
    (i : Z) : option (option Z) :=
  match l with
  | [] => Some None
  | e :: t =>
      match at_ rhs (row e + 1) with
      | None => None
      | Some h => if scroll <? h then Some (Some i)
                  else vis_min_loop rhs scroll t (i + 1)
      end
  end.

(** Second loop: the first entry from [i] on whose row starts at or below
    the end of the viewport. *)
Fixpoint vis_max_loop (rhs : list Z) (bottom : Z) (l : list MenuItemInfo)
    (i : Z) : option (option Z) :=
  match l with
  | [] => Some None
  | e :: t =>
      match at_ rhs (row e) with
      | None => None
      | Some h => if bottom <=? h then Some (Some i)
                  else vis_max_loop rhs bottom t (i + 1)
      end
  end.

(** [UIMenu::is_visible_item_range], for the given scroller state and
    [m_menu->items.size()]. *)
Definition is_visible_item_range (n_items : Z) (sc : Scroller) (u : UIMenu)
    : option (Z * Z) :=
  let viewport_height := region_height sc in
  let scroll := m_scroll sc in
  match vis_min_loop (row_heights u) scroll (item_info u) 0 with
  | None => None
  | Some None => Some (0, Z.min (size (item_info u)) n_items)
  | Some (Some i) =>
      match vis_max_loop (row_heights u) (scroll + viewport_height)
                         (skipn (Z.to_nat i) (item_info u)) i with
      | None => None
      | Some None => Some (i, Z.min (size (item_info u)) n_items)
      | Some (Some j) => Some (i, Z.min j n_items)
      end
  end.

(** [size_t] arithmetic. *)
Definition wrap_size_t (z : Z) : Z := z mod 2 ^ 64.

Definition not_heading (e : MenuItemInfo) : Z := if heading e then 0 else 1.

(** The [do ... while (item_info[a].column != 0)] loop of
    [get_max_viewport_height]; [fuel] bounds the iterations. *)
Fixpoint drop_row (infos : list MenuItemInfo) (fuel : nat) (a : nat)
    (num_items : Z) : option (nat * Z) :=
  match fuel with
  | O => None
  | S fuel' =>
      match nth_error infos a with
      | None => None
      | Some ea =>
          let num_items := wrap_size_t (num_items - not_heading ea) in
          match nth_error infos (S a) with
          | None => None
          | Some ea' =>
              if column ea' =? 0 then Some (S a, num_items)
              else drop_row infos fuel' (S a) num_items
          end
      end
  end.

(** The [while (b < item_info.size())] loop of
    [get_max_viewport_height]. *)
Fixpoint max_viewport_loop (infos : list MenuItemInfo) (rhs : list Z)
    (fuel : nat) (a b : nat) (num_items : Z) (max_viewport_height : Z)
    : option Z :=
  match fuel with
  | O => None
  | S fuel' =>
      if (b <? List.length infos)%nat then
        if num_items <? 52 then
          match nth_error infos b with
          | None => None
          | Some eb =>
              max_viewport_loop infos rhs fuel' a (S b)
                                (num_items + not_heading eb)
                                max_viewport_height
          end
        else if num_items =? 52 then
          match nth_error infos b, at_ infos (Z.of_nat b - 1), nth_error infos a with
          | Some eb, Some eb1, Some ea =>
              match at_ rhs (row eb), at_ rhs (row eb1) with
              | Some hb, Some hb1 =>
                  let item_h := hb - hb1 in
                  let delta := item_h + y eb1 - y ea in
                  match drop_row infos (List.length infos) a num_items with
                  | None => None
                  | Some (a', num_items') =>
                      max_viewport_loop infos rhs fuel' a' b num_items'
                                        (Z.min max_viewport_height delta)
                  end
              | _, _ => None
              end
          | _, _, _ => None
          end
        else max_viewport_loop infos rhs fuel' a b num_items max_viewport_height
      else Some max_viewport_height
  end.

(** [UIMenu::get_max_viewport_height].  Every iteration but the idle one
    advances [a] or [b], so twice the number of entries (plus one) is
    enough fuel whenever the loop ends at all. *)
Definition get_max_viewport_height (u : UIMenu) : option Z :=
  max_viewport_loop (item_info u) (row_heights u)
                    (2 * List.length (item_info u) + 1) 0 0 0 INT_MAX.

(** ** The menu ([class Menu]) *)

(** Modelled from the spec: the flag bitset of menu.h, which is not part
    of the source; each flag is one bit. *)
Definition MF_NOSELECT : Z := 1.
Definition MF_SINGLESELECT : Z := 2.
Definition MF_MULTISELECT : Z := 4.
Definition MF_NO_SELECT_QTY : Z := 8.
Definition MF_ANYPRINTABLE : Z := 16.
Definition MF_SELECT_BY_PAGE : Z := 32.
Definition MF_WRAP : Z := 128.
Definition MF_ALLOW_FILTER : Z := 256.
Definition MF_NO_WRAP_ROWS : Z := 2048.
Definition MF_PRESELECTED : Z := 8192.
Definition MF_UNCANCEL : Z := 65536.
Definition MF_SPECIAL_MINUS : Z := 131072.
Definition MF_ARROWS_SELECT : Z := 262144.
Definition MF_SHOW_EMPTY : Z := 524288.

Inductive CycleType := CYCLE_NONE | CYCLE_TOGGLE | CYCLE_CYCLE.

(** Modelled from the spec: [enum action] of menu.h, "an enum cycled by a
    dedicated key". *)
Definition ACT_EXECUTE : Z := 0.
Definition ACT_EXAMINE : Z := 1.
Definition ACT_MISC : Z := 2.
Definition ACT_NUM : Z := 3.

(** [sel] is a vector of pointers to entries of [items]; the model keeps
    their indices. *)
Record Menu := mkMenu {
  flags : Z;
  items : list MenuEntry;
  sel : list nat;
  num : Z;
  lastch : Z;
  last_hovered : Z;
  select_filter : list string;
  f_keyfilter : option (Z -> Z);
  on_single_selection : option ActionId;
  action_cycle : CycleType;
  menu_action : Z;
  m_ui_menu : UIMenu;
  m_ui_scroller : Scroller
}.

Definition set_items (m : Menu) (v : list MenuEntry) : Menu :=
  mkMenu (flags m) v (sel m) (num m) (lastch m) (last_hovered m)
         (select_filter m) (f_keyfilter m) (on_single_selection m)
         (action_cycle m) (menu_action m) (m_ui_menu m) (m_ui_scroller m).
Definition set_sel (m : Menu) (v : list nat) : Menu :=
  mkMenu (flags m) (items m) v (num m) (lastch m) (last_hovered m)
         (select_filter m) (f_keyfilter m) (on_single_selection m)
         (action_cycle m) (menu_action m) (m_ui_menu m) (m_ui_scroller m).
Definition set_num (m : Menu) (v : Z) : Menu :=
  mkMenu (flags m) (items m) (sel m) v (lastch m) (last_hovered m)
         (select_filter m) (f_keyfilter m) (on_single_selection m)
         (action_cycle m) (menu_action m) (m_ui_menu m) (m_ui_scroller m).
Definition set_lastch (m : Menu) (v : Z) : Menu :=
  mkMenu (flags m) (items m) (sel m) (num m) v (last_hovered m)
         (select_filter m) (f_keyfilter m) (on_single_selection m)
         (action_cycle m) (menu_action m) (m_ui_menu m) (m_ui_scroller m).
Definition set_last_hovered (m : Menu) (v : Z) : Menu :=
  mkMenu (flags m) (items m) (sel m) (num m) (lastch m) v
         (select_filter m) (f_keyfilter m) (on_single_selection m)
         (action_cycle m) (menu_action m) (m_ui_menu m) (m_ui_scroller m).
Definition set_menu_action (m : Menu) (v : Z) : Menu :=
  mkMenu (flags m) (items m) (sel m) (num m) (lastch m) (last_hovered m)
         (select_filter m) (f_keyfilter m) (on_single_selection m)
         (action_cycle m) v (m_ui_menu m) (m_ui_scroller m).
Definition set_ui_menu (m : Menu) (v : UIMenu) : Menu :=
  mkMenu (flags m) (items m) (sel m) (num m) (lastch m) (last_hovered m)
         (select_filter m) (f_keyfilter m) (on_single_selection m)
         (action_cycle m) (menu_action m) v (m_ui_scroller m).
Definition set_ui_scroller (m : Menu) (v : Scroller) : Menu :=
  mkMenu (flags m) (items m) (sel m) (num m) (lastch m) (last_hovered m)
         (select_filter m) (f_keyfilter m) (on_single_selection m)
         (action_cycle m) (menu_action m) (m_ui_menu m) v.

Definition set_item_info (u : UIMenu) (v : list MenuItemInfo) : UIMenu :=
  mkUI (m_height u) (m_hover_idx u) (m_min_col_width u) (m_force_scroll u)
       (m_initial_hover_snap u) (m_scroll_context u) (m_nat_column_width u)
       (m_num_columns u) v (row_heights u) (m_mouse_x u) (m_mouse_y u)
       (m_draw_tiles u) (m_region_x u) (m_region_y u) (m_region_width u)
       (m_region_height u).
Definition set_hover_idx (u : UIMenu) (v : Z) : UIMenu :=
  mkUI (m_height u) v (m_min_col_width u) (m_force_scroll u)
       (m_initial_hover_snap u) (m_scroll_context u) (m_nat_column_width u)
       (m_num_columns u) (item_info u) (row_heights u) (m_mouse_x u)
       (m_mouse_y u) (m_draw_tiles u) (m_region_x u) (m_region_y u)
       (m_region_width u) (m_region_height u).
Definition set_force_scroll (u : UIMenu) (v : Z) : UIMenu :=
  mkUI (m_height u) (m_hover_idx u) (m_min_col_width u) v
       (m_initial_hover_snap u) (m_scroll_context u) (m_nat_column_width u)
       (m_num_columns u) (item_info u) (row_heights u) (m_mouse_x u)
       (m_mouse_y u) (m_draw_tiles u) (m_region_x u) (m_region_y u)
       (m_region_width u) (m_region_height u).
Definition set_initial_hover_snap (u : UIMenu) (v : bool) : UIMenu :=
  mkUI (m_height u) (m_hover_idx u) (m_min_col_width u) (m_force_scroll u)
       v (m_scroll_context u) (m_nat_column_width u)
       (m_num_columns u) (item_info u) (row_heights u) (m_mouse_x u)
       (m_mouse_y u) (m_draw_tiles u) (m_region_x u) (m_region_y u)
       (m_region_width u) (m_region_height u).

(** Option bind, for code that can hit a failed ASSERT or an
    out-of-range access. *)
Notation "'do' x <- e ; k" :=
  (match e with Some x => k | None => None end)
  (at level 10, x pattern, e at level 100, k at level 200).

(** [Menu::is_set]: [(flags & flag) == flag]; and the plain test
    [flags & flag]. *)
Definition is_set (m : Menu) (flag : Z) : bool := Z.land (flags m) flag =? flag.
Definition has_flag (m : Menu) (flag : Z) : bool :=
  negb (Z.land (flags m) flag =? 0).

(** Modelled from the spec: [Scroller::get_scroll], [set_scroll] and
    [get_region().height] of ui.cc. *)
Definition get_scroll (m : Menu) : Z := m_scroll (m_ui_scroller m).
Definition viewport_height (m : Menu) : Z := region_height (m_ui_scroller m).
Definition scroller_set_scroll (m : Menu) (y : Z) : Menu :=
  set_ui_scroller m (mkScroller y (region_height (m_ui_scroller m))).

(** Modelled from the spec: the framework's "allocate region" commit,
    which gives the scroller its viewport height. *)
Definition set_viewport_height (m : Menu) (h : Z) : Menu :=
  set_ui_scroller m (mkScroller (m_scroll (m_ui_scroller m)) h).

(** [UIMenu::get_item_region]: [Some (y1, y2)], or [None] when
    ASSERT_RANGE fails or a vector is read out of range. *)
Definition get_item_region (m : Menu) (index : Z) : option (Z * Z) :=
  if (index <? 0) || (size (items m) <=? index) then None
  else
    do info <- at_ (item_info (m_ui_menu m)) index;
    let row := row info in
    if (row + 1 <? 0) || (size (row_heights (m_ui_menu m)) <=? row + 1)
    then Some (-1, -1)
    else
      do y1 <- at_ (row_heights (m_ui_menu m)) row;
      do y2 <- at_ (row_heights (m_ui_menu m)) (row + 1);
      Some (y1, y2).

Definition is_heading_level (l : MenuEntryLevel) : bool :=
  level_eqb l MEL_TITLE || level_eqb l MEL_SUBTITLE.

(** The loop of [Menu::get_first_visible], [k] iterations from index [i]. *)
Fixpoint first_visible_loop (m : Menu) (skip_init_headers : bool)
    (k : nat) (i : Z) : option Z :=
  match k with
  | O => Some (size (items m))
  | S k' =>
      do (item_y1, _) <- get_item_region m i;
      if get_scroll m <=? item_y1 then
        do e <- at_ (items m) i;
        if skip_init_headers && is_heading_level (level e)
        then first_visible_loop m skip_init_headers k' (i + 1)
        else Some i
      else first_visible_loop m skip_init_headers k' (i + 1)
  end.

Definition get_first_visible (m : Menu) (skip_init_headers : bool) : option Z :=
  first_visible_loop m skip_init_headers (List.length (items m)) 0.

(** [Menu::in_page]. *)
Definition in_page (m : Menu) (index : Z) (strict : bool) : option bool :=
  do (y1, y2) <- get_item_region m index;
  let vph := viewport_height m in
  let vpy := get_scroll m in
  let upper_in := (vpy <=? y1) && (y1 <=? vpy + vph) in
  let lower_in := (vpy <=? y2) && (y2 <=? vpy + vph) in
  Some (if strict then lower_in && upper_in else lower_in || upper_in).

(** The two loops of [Menu::get_header_block]. *)
Fixpoint header_block_first (m : Menu) (fuel : nat) (first : Z) : option Z :=
  match fuel with
  | O => Some first
  | S fuel' =>
      if 1 <=? first then
        do e <- at_ (items m) (first - 1);
        if negb (level_eqb (level e) MEL_ITEM)
        then header_block_first m fuel' (first - 1)
        else Some first
      else Some first
  end.

Fixpoint header_block_last (m : Menu) (fuel : nat) (last : Z) : option Z :=
  match fuel with
  | O => Some last
  | S fuel' =>
      if last + 1 <? size (items m) then
        do e <- at_ (items m) last;
        if negb (level_eqb (level e) MEL_ITEM)
        then header_block_last m fuel' (last + 1)
        else Some last
      else Some last
  end.

(** [Menu::get_header_block]; the fuel covers every iteration the loops
    can make ([first] stops at 0, [last] at [size - 1]). *)
Definition get_header_block (m : Menu) (index : Z) : option (Z * Z) :=
  do first <- header_block_first m (Z.to_nat index) index;
  do last <- header_block_last m (Z.to_nat (size (items m) - index)) index;
  Some (first, last).

(** [static _key_is_minus] (local tiles: only ['-']). *)
Definition _key_is_minus (keyin : Z) : bool := keyin =? 45.

(** [isadigit] (libutil.h): ['0' <= c <= '9']. *)
Definition isadigit (c : Z) : bool := (48 <=? c) && (c <=? 57).

Section MenuOps.

Variable env : Env.

(** [MenuEntry::_get_text_preface] and [MenuEntry::get_text]. *)
Definition _get_text_preface (e : MenuEntry) : string :=
  match hotkeys e with
  | k :: _ =>
      if level_eqb (level e) MEL_ITEM
      then (" " ++ keycode_to_name env k ++ " - ")%string
      else EmptyString
  | [] =>
      if level_eqb (level e) MEL_ITEM && indent_no_hotkeys e
      then "     "%string else EmptyString
  end.

Definition get_text (e : MenuEntry) : string :=
  (_get_text_preface e ++ text e)%string.

(** [MenuEntry::get_tiles] (USE_TILE). *)
Definition get_tiles (e : MenuEntry) : list Z :=
  if negb (tile_menu_icons env) then [] else tiles e.

(** [vector::resize] of [item_info]. *)
Definition resize_info (l : list MenuItemInfo) (n : nat) : list MenuItemInfo :=
  firstn n l ++ repeat default_info (n - List.length l).

(** [UIMenu::update_item]; the requests to the widget framework
    ([_invalidate_sizereq], [_queue_allocation]) and the text colour are
    not part of the model. *)
Definition update_item (m : Menu) (index : Z) : option Menu :=
  if size (items m) <=? index then None
  else
    do me <- at_ (items m) index;
    let infos := resize_info (item_info (m_ui_menu m)) (List.length (items m)) in
    do entry <- at_ infos index;
    let entry' :=
      mkInfo (x entry) (y entry) (row entry) (column entry) (get_text me)
             (get_tiles me) (is_heading_level (level me)) in
    Some (set_ui_menu m
            (set_item_info (m_ui_menu m)
                           (set_nth infos (Z.to_nat index) entry'))).

(** [Menu::select_item_index]. *)
Definition select_item_index (m : Menu) (idx qty : Z) : option Menu :=
  do e <- at_ (items m) idx;
  update_item (set_items m (set_nth (items m) (Z.to_nat idx) (select e qty))) idx.

(** [Menu::is_hotkey]. *)
Definition is_hotkey (m : Menu) (i key : Z) : option bool :=
  let key := if _key_is_minus key then 45 else key in
  do e <- at_ (items m) i;
  if entry_is_hotkey e key then
    if negb (is_set m MF_SELECT_BY_PAGE) then Some true else in_page m i false
  else Some false.

(** [Menu::is_selectable]. *)
Definition is_selectable (m : Menu) (item : Z) : option bool :=
  match select_filter m with
  | [] => Some true
  | _ :: _ =>
      do e <- at_ (items m) item;
      Some (existsb (fun pat => pattern_matches env pat (get_filter_text env e))
                    (select_filter m))
  end.

(** The region that the three scrolling operations bring into view: the
    entry's row, extended upwards over the headers right before it
    (common part of [set_scroll], [item_visible] and [snap_in_page]). *)
Definition region_with_headers (m : Menu) (index : Z) : option (Z * Z) :=
  do (y1, y2) <- get_item_region m index;
  do (any_preceding_headers, _) <- get_header_block m index;
  if negb (any_preceding_headers =? index) then
    do (y1', _) <- get_item_region m any_preceding_headers;
    Some (y1', y2)
  else Some (y1, y2).

(** [Menu::set_scroll]. *)
Definition set_scroll (m : Menu) (index : Z) : option (bool * Menu) :=
  let vph := viewport_height m in
  if vph =? 0 then
    Some (false, set_ui_menu m (set_force_scroll (m_ui_menu m) index))
  else if (index <? 0) || (size (items m) <=? index) then Some (false, m)
  else
    do (y1, y2) <- region_with_headers m index;
    let vpy := get_scroll m in
    Some (negb (vpy =? y1),
          scroller_set_scroll m (y1 - Z.quot (UI_SCROLLER_SHADE_SIZE env) 2)).

(** [Menu::item_visible]. *)
Definition item_visible (m : Menu) (index : Z) : option bool :=
  let vph := viewport_height m in
  if vph =? 0 then Some false
  else if (index <? 0) || (size (items m) <=? index) then Some false
  else
    do (y1, y2) <- region_with_headers m index;
    let vpy := get_scroll m in
    Some ((vpy <=? y1) && (y2 <? vpy + vph)).

(** [Menu::snap_in_page]; [vpy + vph] is an [int] sum, which overflows
    when the scroller holds [INT_MAX] (as after [CMD_MENU_SCROLL_TO_END]). *)
Definition snap_in_page (m : Menu) (index : Z) : option (bool * Menu) :=
  let vph := viewport_height m in
  if vph =? 0 then Some (false, m)
  else if (index <? 0) || (size (items m) <=? index) then Some (false, m)
  else
    do (y1, y2) <- region_with_headers m index;
    let vpy := get_scroll m in
    if wrap_int (vpy + vph) <=? y2 then
      Some (true,
            scroller_set_scroll m
              (y2 - vph + Z.quot (UI_SCROLLER_SHADE_SIZE env) 2))
    else if y1 <? vpy then
      Some (true,
            scroller_set_scroll m (y1 - Z.quot (UI_SCROLLER_SHADE_SIZE env) 2))
    else Some (false, m).

(** [UIMenu::set_hovered_entry]; repacking the draw buffers is not part
    of the model. *)
Definition set_hovered_entry (m : Menu) (i : Z) : Menu :=
  set_ui_menu m (set_hover_idx (m_ui_menu m) i).

(** [Menu::set_hovered]. *)
Definition set_hovered (m : Menu) (index : Z) (force : bool) : option Menu :=
  if negb force && negb (is_set m MF_ARROWS_SELECT) then
    do (_, m') <- snap_in_page m index; Some m'
  else
    let m := set_last_hovered m (Z.min index (size (items m) - 1)) in
    if size (item_info (m_ui_menu m)) =? 0 then Some m
    else
      let m := set_hovered_entry m (last_hovered m) in
      if 0 <=? last_hovered m then
        do (_, m') <- snap_in_page m (last_hovered m); Some m'
      else Some m.

(** The two [for] loops of [Menu::select_index]: [k] iterations from
    index [i]; [filtered] is [qty == -2] in the first loop and [false] in
    the second. *)
Fixpoint select_index_loop (filtered : bool) (qty : Z) (k : nat) (i : Z)
    (m : Menu) : option Menu :=
  match k with
  | O => Some m
  | S k' =>
      do e <- at_ (items m) i;
      match hotkeys e with
      | h0 :: _ =>
          if negb (level_eqb (level e) MEL_ITEM)
          then select_index_loop filtered qty k' (i + 1) m
          else
            do hk <- is_hotkey m i h0;
            do ok <- (if hk then
                        if filtered then is_selectable m i else Some true
                      else Some false);
            do m' <- (if ok then select_item_index m i qty else Some m);
            select_index_loop filtered qty k' (i + 1) m'
      | [] => select_index_loop filtered qty k' (i + 1) m
      end
  end.

(** [Menu::select_index]. *)
Definition select_index (m : Menu) (index qty : Z) : option Menu :=
  do first_vis <- get_first_visible m false;
  let si := if index =? -1 then first_vis else index in
  if index =? -1 then
    if has_flag m MF_MULTISELECT
    then select_index_loop (qty =? -2) qty (List.length (items m)) 0 m
    else Some m
  else
    do e <- at_ (items m) si;
    if level_eqb (level e) MEL_SUBTITLE && has_flag m MF_MULTISELECT then
      select_index_loop false qty
        (Z.to_nat (size (items m) - (si + 1))) (si + 1) m
    else if level_eqb (level e) MEL_ITEM
            && has_flag m (Z.lor MF_SINGLESELECT MF_MULTISELECT)
    then select_item_index m si qty
    else Some m.

(** [Menu::get_selected]: the indices of the selected entries. *)
Fixpoint selected_indices (l : list MenuEntry) (i : nat) : list nat :=
  match l with
  | [] => []
  | e :: t => if selected e then i :: selected_indices t (S i)
              else selected_indices t (S i)
  end.

Definition get_selected (m : Menu) : Menu :=
  set_sel m (selected_indices (items m) O).

(** [Menu::deselect_all]. *)
Fixpoint deselect_loop (update_view : bool) (k : nat) (i : Z) (m : Menu)
    : option Menu :=
  match k with
  | O => Some m
  | S k' =>
      do e <- at_ (items m) i;
      if level_eqb (level e) MEL_ITEM && selected e then
        let m1 := set_items m (set_nth (items m) (Z.to_nat i) (select e 0)) in
        do m2 <- (if update_view then update_item m1 i else Some m1);
        deselect_loop update_view k' (i + 1) m2
      else deselect_loop update_view k' (i + 1) m
  end.

Definition deselect_all (m : Menu) (update_view : bool) : option Menu :=
  do m' <- deselect_loop update_view (List.length (items m)) 0 m;
  Some (set_sel m' []).

(** First loop of the literal-hotkey branch of [Menu::select_items]:
    [Some (Some index)] when an entry was chosen; [k] iterations from
    [i]. *)
Fixpoint primary_hotkey_loop (m : Menu) (key first_entry final : Z)
    (k : nat) (i : Z) : option (option Z) :=
  match k with
  | O => Some None
  | S k' =>
      let index := Z.rem (i + first_entry) final in
      do hk <- is_hotkey m index key;
      do e <- at_ (items m) index;
      let chosen :=
        hk && (match hotkeys e with h0 :: _ => h0 =? key | [] => false end
               || is_set m MF_SINGLESELECT) in
      if chosen then Some (Some index)
      else primary_hotkey_loop m key first_entry final k' (i + 1)
  end.

(** Second loop: every entry with the hotkey is passed to
    [select_index]; returns [first_snap], [last_snap] and the menu. *)
Fixpoint secondary_hotkey_loop (key qty : Z) (k : nat) (i : Z)
    (first_snap last_snap : Z) (m : Menu) : option (Z * Z * Menu) :=
  match k with
  | O => Some (first_snap, last_snap, m)
  | S k' =>
      do hk <- is_hotkey m i key;
      if hk then
        let first_snap := if first_snap <? 0 then i else first_snap in
        do m' <- select_index m i qty;
        secondary_hotkey_loop key qty k' (i + 1) first_snap i m'
      else secondary_hotkey_loop key qty k' (i + 1) first_snap last_snap m
  end.

(** [Menu::select_items]. *)
Definition select_items (m : Menu) (key qty : Z) : option Menu :=
  if (key =? 44) && has_flag m MF_MULTISELECT then select_index m (-1) (-2)
  else if (key =? 42) && has_flag m MF_MULTISELECT then select_index m (-1) (-1)
  else if _key_is_minus key && has_flag m MF_MULTISELECT
  then select_index m (-1) 0
  else
    do first_entry <- get_first_visible m false;
    let final := size (items m) in
    do found <- primary_hotkey_loop m key first_entry final
                                    (List.length (items m)) 0;
    match found with
    | Some index =>
        do m1 <- select_index m index qty;
        set_hovered m1 index false
    | None =>
        if is_set m MF_MULTISELECT then
          do (snaps, m1) <- secondary_hotkey_loop key qty
                              (List.length (items m)) 0 (-1) (-1) m;
          let (first_snap, last_snap) := snaps in
          if 0 <=? first_snap then
            do (_, m2) <- snap_in_page m1 last_snap;
            set_hovered m2 first_snap false
          else Some m1
        else Some m
    end.

(** The [while] loop of [Menu::cycle_hover]: [Some (Some h)] when an
    entry of level [MEL_ITEM] was found; [k] is [max_items - items_tried]. *)
Fixpoint cycle_hover_loop (m : Menu) (reverse : bool) (k : nat)
    (new_hover : Z) : option (option Z) :=
  match k with
  | O => Some None
  | S k' =>
      let new_hover := new_hover + (if reverse then -1 else 1) in
      let sz := size (items m) in
      let new_hover :=
        if is_set m MF_WRAP && (0 <? sz)
        then Z.rem (new_hover + sz) sz else new_hover in
      let new_hover := Z.max 0 (Z.min new_hover (sz - 1)) in
      do e <- at_ (items m) new_hover;
      if level_eqb (level e) MEL_ITEM then Some (Some new_hover)
      else cycle_hover_loop m reverse k' new_hover
  end.

(** [Menu::cycle_hover]. *)
Definition cycle_hover (m : Menu) (reverse : bool) : option Menu :=
  if negb (is_set m MF_ARROWS_SELECT) then Some m
  else
    let max_items :=
      if is_set m MF_WRAP then size (items m)
      else if reverse then last_hovered m
      else size (items m) - Z.max (last_hovered m) 0 in
    let new_hover :=
      if reverse && (last_hovered m <? 0) then 0 else last_hovered m in
    do found <- cycle_hover_loop m reverse (Z.to_nat max_items) new_hover;
    match found with
    | None => Some m
    | Some new_hover => set_hovered m new_hover false
    end.

(** The loop of [UIMenu::update_hovered_entry] over the visible range:
    [Some (Some m')] when an entry under the mouse ended the function. *)
Fixpoint hovered_entry_loop (force : bool) (mx my : Z) (k : nat) (i : Z)
    (m : Menu) : option (option Menu) :=
  match k with
  | O => Some None
  | S k' =>
      let u := m_ui_menu m in
      do entry <- at_ (item_info u) i;
      if heading entry then hovered_entry_loop force mx my k' (i + 1) m
      else
        do me <- at_ (items m) i;
        if (hotkeys_count me =? 0) && negb force
        then hovered_entry_loop force mx my k' (i + 1) m
        else if m_num_columns u =? 0 then None
        else
          let w := Z.quot (m_region_width u) (m_num_columns u) in
          let entry_x := column entry * w in
          do h1 <- at_ (row_heights u) (row entry + 1);
          do h0 <- at_ (row_heights u) (row entry);
          let entry_h := h1 - h0 in
          if (entry_x <=? mx) && (mx <? entry_x + w)
             && (y entry <=? my) && (my <? y entry + entry_h)
          then
            if force && negb (last_hovered m =? i) then
              do m' <- set_hovered m i force; Some (Some m')
            else if negb (hotkeys_count me =? 0) then
              Some (Some (set_ui_menu m (set_hover_idx u i)))
            else Some (Some m)
          else hovered_entry_loop force mx my k' (i + 1) m
  end.

(** [UIMenu::update_hovered_entry]; the mouse cursor shape is not part of
    the model. *)
Definition update_hovered_entry (m : Menu) (force : bool) : option Menu :=
  let u := m_ui_menu m in
  let mx := m_mouse_x u - m_region_x u in
  let my := m_mouse_y u - m_region_y u in
  do (vis_min, vis_max) <-
     is_visible_item_range (size (items m)) (m_ui_scroller m) u;
  do r <- hovered_entry_loop force mx my (Z.to_nat (vis_max - vis_min))
                             vis_min m;
  match r with
  | Some m' => Some m'
  | None =>
      if negb (has_flag m MF_ARROWS_SELECT) then
        if force then set_hovered m (-1) force
        else Some (set_ui_menu m (set_hover_idx u (-1)))
      else Some m
  end.

(** First statement of [UIMenu::_allocate_region]: a scroll request
    stored by [set_initial_scroll] is carried out and forgotten. *)
Definition replay_initial_scroll (m : Menu) : option Menu :=
  if 0 <=? m_force_scroll (m_ui_menu m) then
    do (_, m') <- set_scroll m (m_force_scroll (m_ui_menu m));
    Some (set_ui_menu m' (set_force_scroll (m_ui_menu m') (-1)))
  else Some m.

(** Second statement: the first allocation snaps the hover into view. *)
Definition initial_hover_snap (m : Menu) : option Menu :=
  if negb (m_initial_hover_snap (m_ui_menu m)) then
    do m' <- (if 0 <=? last_hovered m then
                do (_, m') <- snap_in_page m (last_hovered m); Some m'
              else Some m);
    Some (set_ui_menu m' (set_initial_hover_snap (m_ui_menu m') true))
  else Some m.

(** [UIMenu::_allocate_region]; [pack_buffers] only fills draw buffers. *)
Definition _allocate_region (m : Menu) : option Menu :=
  do m1 <- replay_initial_scroll m;
  do m2 <- initial_hover_snap m1;
  do u <- do_layout env (List.length (items m2)) (is_set m2 MF_NO_WRAP_ROWS)
                    (m_region_width (m_ui_menu m2))
                    (m_num_columns (m_ui_menu m2)) (m_ui_menu m2);
  let m3 := set_ui_menu m2 u in
  if negb (has_flag m3 MF_ARROWS_SELECT) || (last_hovered m3 <? 0)
  then update_hovered_entry m3 false
  else Some (set_ui_menu m3 (set_hover_idx u (last_hovered m3))).

(** [UIMenu::get_scroll_context]. *)
Definition get_scroll_context (m : Menu) : Z :=
  m_scroll_context (m_ui_menu m) + Z.quot (m_scroll_context (m_ui_menu m)) 2.

(** The part of [page_down] and [page_up] that moves the hover along
    with the page. *)
Definition move_hover_with_page (m : Menu) (new_hover : Z)
    (unchanged_target : Menu -> Z -> Z) (reverse : bool) : option Menu :=
  if 0 <=? new_hover then
    do fv <- get_first_visible m true;
    do m1 <- (if is_set m MF_ARROWS_SELECT && (fv + new_hover =? last_hovered m)
              then set_hovered m (unchanged_target m fv) false
              else set_hovered m (fv + new_hover) false);
    do e <- at_ (items m1) (last_hovered m1);
    if negb (level_eqb (level e) MEL_ITEM) then cycle_hover m1 reverse
    else Some m1
  else Some m.

(** The common start of [page_down] and [page_up]: the default hover and
    the hover position relative to the page. *)
Definition page_start (m : Menu) : option (Z * Menu) :=
  let m := if is_set m MF_ARROWS_SELECT && (last_hovered m <? 0)
           then set_last_hovered m 0 else m in
  do new_hover <-
    (if 0 <=? last_hovered m then
       do ip <- in_page m (last_hovered m) false;
       if ip then
         do fv <- get_first_visible m true; Some (last_hovered m - fv)
       else Some (-1)
     else Some (-1));
  Some (new_hover, m).

(** [Menu::page_down]; [y + dy] is an [int] sum. *)
Definition page_down (m : Menu) : option (bool * Menu) :=
  do (new_hover, m) <- page_start m;
  let dy := viewport_height m - get_scroll_context m in
  let y := get_scroll m in
  let at_bottom := m_region_height (m_ui_menu m) <=? wrap_int (y + dy) in
  do last_in <- in_page m (size (items m) - 1) true;
  let m := if negb last_in then scroller_set_scroll m (wrap_int (y + dy))
           else m in
  do m <- move_hover_with_page m new_hover
            (fun m _ => size (items m) - 1) true;
  Some (negb at_bottom, m).

(** [Menu::page_up]; [y - dy] is an [int] difference. *)
Definition page_up (m : Menu) : option (bool * Menu) :=
  do (new_hover, m) <- page_start m;
  let dy := viewport_height m - get_scroll_context m in
  let y := get_scroll m in
  let m := scroller_set_scroll m (wrap_int (y - dy)) in
  do m <- move_hover_with_page m new_hover (fun _ fv => fv + 0) false;
  Some (0 <? y, m).

(** The loop of [Menu::line_down]. *)
Fixpoint line_down_loop (m : Menu) (first_vis_y : Z) (k : nat) (index : Z)
    : option (bool * Menu) :=
  match k with
  | O => Some (false, m)
  | S k' =>
      do (y, _) <- get_item_region m index;
      if y =? first_vis_y then line_down_loop m first_vis_y k' (index + 1)
      else Some (true, scroller_set_scroll m y)
  end.

(** [Menu::line_down]. *)
Definition line_down (m : Menu) : option (bool * Menu) :=
  do index <- get_first_visible m false;
  do (first_vis_y, _) <- get_item_region m index;
  line_down_loop m first_vis_y (Z.to_nat (size (items m) - (index + 1)))
                 (index + 1).

(** [Menu::line_up]. *)
Definition line_up (m : Menu) : option (bool * Menu) :=
  do index <- get_first_visible m false;
  if 0 <? index then
    do (y, _) <- get_item_region m (index - 1);
    Some (true, scroller_set_scroll m y)
  else Some (false, m).

(** [Menu::next_block_from]; [next % items.size()] is computed on
    [size_t]. *)
Definition next_block_from (m : Menu) (index : Z) (forward wrap : bool)
    : option Z :=
  do (first, last) <- get_header_block m index;
  let next := if forward then last + 1 else first - 1 in
  do next <-
    (if wrap then
       if size (items m) =? 0 then None
       else Some (wrap_size_t next mod size (items m))
     else Some (Z.max (Z.min next (size (items m) - 1)) 0));
  do (first', _) <- get_header_block m next;
  Some first'.

(** The loop of [Menu::cycle_headers]. *)
Fixpoint cycle_headers_loop (m : Menu) (forward : bool) (start : Z)
    (fuel : nat) (cur : Z) : option (bool * Menu) :=
  match fuel with
  | O => None
  | S fuel' =>
      if cur =? start then Some (false, m)
      else
        do e <- at_ (items m) cur;
        if is_heading_level (level e) then
          do vis <- item_visible m cur;
          do m1 <- (if negb vis || negb (is_set m MF_ARROWS_SELECT)
                    then do (_, m') <- set_scroll m cur; Some m'
                    else Some m);
          do m2 <- (if is_set m1 MF_ARROWS_SELECT then
                      do m' <- set_hovered m1 cur false; cycle_hover m' false
                    else Some m1);
          Some (true, m2)
        else
          do next <- next_block_from m cur forward true;
          cycle_headers_loop m forward start fuel' next
  end.

(** [Menu::cycle_headers]; a forward scan is back at [start] after at
    most one step per entry. *)
Definition cycle_headers (m : Menu) (forward : bool) : option (bool * Menu) :=
  if size (items m) =? 0 then Some (false, m)
  else
    do start <- (if is_set m MF_ARROWS_SELECT
                 then Some (Z.max (last_hovered m) 0)
                 else get_first_visible m false);
    do (start, _) <- get_header_block m start;
    do cur <- next_block_from m start forward true;
    cycle_headers_loop m forward start (S (List.length (items m))) cur.

(** [Menu::cycle_mode]; the title and the footer are not part of the
    model. *)
Definition cycle_mode (m : Menu) (forward : bool) : option (bool * Menu) :=
  match action_cycle m with
  | CYCLE_NONE => Some (false, m)
  | CYCLE_TOGGLE =>
      if menu_action m =? ACT_MISC then None
      else
        let a := if menu_action m =? ACT_EXECUTE then ACT_EXAMINE
                 else ACT_EXECUTE in
        Some (true, set_sel (set_menu_action m a) [])
  | CYCLE_CYCLE =>
      let a := if forward then Z.rem (menu_action m + 1) ACT_NUM
               else Z.rem (menu_action m + ACT_NUM - 1) ACT_NUM in
      Some (true, set_sel (set_menu_action m a) [])
  end.

(** [Menu::filter_with_regex]; [select_index(i)] uses the default
    quantity of its declaration in menu.h, taken to be -1. *)
Fixpoint filter_loop (re : string) (k : nat) (i : Z) (m : Menu)
    : option (bool * Menu) :=
  match k with
  | O => Some (true, get_selected m)
  | S k' =>
      do e <- at_ (items m) i;
      if level_eqb (level e) MEL_ITEM && pattern_matches env re (get_text e)
      then
        do m' <- select_index m i (-1);
        if has_flag m' MF_SINGLESELECT then Some (false, get_selected m')
        else filter_loop re k' (i + 1) m'
      else filter_loop re k' (i + 1) m
  end.

Definition filter_with_regex (m : Menu) (re : string) : option (bool * Menu) :=
  filter_loop re (List.length (items m)) 0 m.

(** [Menu::process_command]. *)
Definition process_command (m : Menu) (cmd : command_type)
    : option (bool * Menu) :=
  do (ret, m) <-
    match cmd with
    | CMD_MENU_UP =>
        if is_set m MF_ARROWS_SELECT
        then do m' <- cycle_hover m true; Some (true, m')
        else do (_, m') <- line_up m; Some (true, m')
    | CMD_MENU_DOWN =>
        if is_set m MF_ARROWS_SELECT
        then do m' <- cycle_hover m false; Some (true, m')
        else do (_, m') <- line_down m; Some (true, m')
    | CMD_MENU_LINE_UP => do (_, m') <- line_up m; Some (true, m')
    | CMD_MENU_LINE_DOWN => do (_, m') <- line_down m; Some (true, m')
    | CMD_MENU_PAGE_UP => do (_, m') <- page_up m; Some (true, m')
    | CMD_MENU_PAGE_DOWN =>
        do (more, m') <- page_down m;
        if negb more && is_set m' MF_WRAP
        then Some (true, scroller_set_scroll m' 0)
        else Some (true, m')
    | CMD_MENU_SCROLL_TO_TOP =>
        let m := scroller_set_scroll m 0 in
        if is_set m MF_ARROWS_SELECT && negb (size (items m) =? 0) then
          do m1 <- set_hovered m 0 false;
          do e <- at_ (items m1) (last_hovered m1);
          if negb (level_eqb (level e) MEL_ITEM)
          then do m2 <- cycle_hover m1 false; Some (true, m2)
          else Some (true, m1)
        else Some (true, m)
    | CMD_MENU_SCROLL_TO_END =>
        if negb (size (items m) =? 0) then
          do last_in <- in_page m (size (items m) - 1) true;
          let m := if negb last_in then scroller_set_scroll m INT_MAX else m in
          if is_set m MF_ARROWS_SELECT then
            do m1 <- set_hovered m (size (items m) - 1) false;
            do e <- at_ (items m1) (last_hovered m1);
            if negb (level_eqb (level e) MEL_ITEM)
            then do m2 <- cycle_hover m1 true; Some (true, m2)
            else Some (true, m1)
          else Some (true, m)
        else Some (true, m)
    | CMD_MENU_SEARCH =>
        if has_flag m MF_ALLOW_FILTER then
          match title_prompt_line env with
          | EmptyString => Some (true, m)
          | line => filter_with_regex m line
          end
        else Some (true, m)
    | CMD_MENU_CYCLE_MODE => do (_, m') <- cycle_mode m true; Some (true, m')
    | CMD_MENU_CYCLE_MODE_REVERSE =>
        do (_, m') <- cycle_mode m false; Some (true, m')
    | CMD_MENU_CYCLE_HEADERS =>
        do (_, m') <- cycle_headers m true; Some (true, m')
    | CMD_MENU_HELP => Some (true, m)
    | CMD_MENU_EXIT =>
        Some (is_set m MF_UNCANCEL && negb (seen_hups env),
              set_lastch (set_sel m []) (ESCAPE env))
    | _ => Some (true, m)
    end;
  Some (ret, if is_no_cmd cmd then m else set_num m (-1)).

(** [Menu::minus_is_pageup], [Menu::skip_process_command] and
    [Menu::get_command]. *)
Definition minus_is_pageup (m : Menu) : bool :=
  negb (is_set m MF_MULTISELECT) && negb (is_set m MF_SPECIAL_MINUS).

Definition skip_process_command (m : Menu) (keyin : Z) : bool :=
  _key_is_minus keyin && negb (minus_is_pageup m).

Definition get_command (m : Menu) (keyin : Z) : command_type :=
  if skip_process_command m keyin then CMD_NO_CMD
  else if keyin =? -1 then CMD_MENU_EXIT
  else key_to_command env keyin.

(** The [default:] label of the [switch] of [Menu::process_key], up to
    its [break]: [(Some verdict, m)] when the function returns from
    inside. *)
Definition process_key_default (m : Menu) (keyin : Z)
    : option (option bool * Menu) :=
  let m := set_lastch m keyin in
  if negb (has_flag m (Z.lor MF_SINGLESELECT MF_MULTISELECT))
  then Some (Some false, m)
  else
    do m <- select_items m keyin (num m);
    let m := get_selected m in
    match sel m with
    | [i0] =>
        if has_flag m MF_SINGLESELECT then
          do item <- nth_error (items m) i0;
          let result :=
            match on_select item, on_single_selection m with
            | Some f, _ => invoke env f item
            | None, Some f => invoke env f item
            | None, None => false
            end in
          if result then
            do m' <- deselect_all m true; Some (Some true, m')
          else Some (Some false, m)
        else
          if has_flag m MF_ANYPRINTABLE
             && (negb (isadigit keyin) || is_set m MF_NO_SELECT_QTY)
          then Some (Some false, m) else Some (None, m)
    | _ =>
        if has_flag m MF_ANYPRINTABLE
           && (negb (isadigit keyin) || is_set m MF_NO_SELECT_QTY)
        then Some (Some false, m) else Some (None, m)
    end.

(** The [switch] of [Menu::process_key] (local tiles, no touch UI). *)
Definition process_key_switch (m : Menu) (keyin : Z)
    : option (option bool * Menu) :=
  if keyin =? CK_REDRAW env then Some (Some true, m)
  else if keyin =? 0 then Some (Some true, m)
  else if ((keyin =? CK_MOUSE_B1 env) || (keyin =? CK_MOUSE_CLICK env))
          && negb (is_set m MF_NOSELECT)
  then Some (None, m)
  else if (keyin =? CK_MOUSE_B1 env) || (keyin =? CK_MOUSE_CLICK env)
          || (keyin =? 46)
  then
    if negb (last_hovered m =? -1) && has_flag m MF_MULTISELECT then
      do m' <- select_item_index m (last_hovered m) (-1);
      Some (None, get_selected m')
    else Some (None, m)
  else if keyin =? CK_ENTER env then
    if has_flag m MF_SINGLESELECT && (0 <=? last_hovered m) then
      do m' <- select_item_index m (last_hovered m) 1;
      process_key_default m' keyin
    else if negb (has_flag m MF_PRESELECTED)
            || negb (match sel m with [] => true | _ :: _ => false end)
    then Some (Some false, m)
    else process_key_default m keyin
  else process_key_default m keyin.

(** [Menu::process_key]; the second component of the result tells
    whether [process_command] was run.  [Menu::pre_process] and
    [Menu::post_process] return their argument, and [deselect_all()] is
    called with its default [update_view], taken to be [true]. *)
Definition process_key (m : Menu) (keyin : Z) : option (bool * bool * Menu) :=
  if negb (is_set m MF_SHOW_EMPTY)
     && (match items m with [] => true | _ :: _ => false end)
  then Some (false, false, set_lastch m keyin)
  else
    let keyin := match f_keyfilter m with
                 | Some f => f keyin
                 | None => keyin
                 end in
    let keyin :=
      if (keyin =? 32) && has_flag m MF_MULTISELECT
         && has_flag m MF_ARROWS_SELECT
      then 46 else keyin in
    let '(cmd, m) :=
      if negb (is_set m MF_NO_SELECT_QTY) && negb (is_set m MF_NOSELECT)
         && isadigit keyin
      then
        let n0 := if 999 <? num m then -1 else num m in
        (CMD_NO_CMD,
         set_num m (if n0 =? -1 then keyin - 48 else n0 * 10 + keyin - 48))
      else (get_command m keyin, m) in
    if negb (is_no_cmd cmd) then
      do (ret, m') <- process_command m cmd; Some (ret, true, m')
    else
      do (verdict, m') <- process_key_switch m keyin;
      match verdict with
      | Some ret => Some (ret, false, m')
      | None =>
          Some (true, false,
                if negb (isadigit keyin) then set_num m' (-1) else m')
      end.

End MenuOps.

(** ** Predicates used in the statements *)

(** [R] holds between any two elements of [l] in list order. *)
Definition mono (R : Z -> Z -> Prop) (l : list Z) : Prop :=
  forall i j a b, (i < j)%nat ->
    nth_error l i = Some a -> nth_error l j = Some b -> R a b.

(** What [do_layout] maintains between its iterations. *)
Definition acc_ok (env : Env) (C : Z) (a : LayoutAcc) : Prop :=
  -1 <= l_column a < C /\
  (l_row_heights a = [] ->
     l_column a = -1 /\ l_height a = 0 /\ l_row_height a = 0) /\
  (l_row_heights a <> [] -> 0 <= l_column a) /\
  0 <= l_row_height a /\
  (0 < char_height env -> l_row_heights a <> [] -> 0 < l_row_height a) /\
  (forall v, In v (l_row_heights a) -> v <= l_height a) /\
  last (l_row_heights a) 0 = l_height a /\
  mono Z.le (l_row_heights a) /\
  (0 < char_height env -> mono Z.lt (l_row_heights a)).

(** How the row and column of an entry follow from its predecessor's
    ([prev_row] and [prev_col] are the row of the predecessor and the
    value of [column] it left behind). *)
Fixpoint chain (C : Z) (prev_row prev_col : Z) (es : list MenuItemInfo) : Prop :=
  match es with
  | [] => True
  | e :: t =>
      column e = (if heading e then 0 else Z.rem (prev_col + 1) C) /\
      row e = prev_row + (if column e =? 0 then 1 else 0) /\
      chain C (row e) (if heading e then C - 1 else column e) t
  end.

(** A laid-out entry list: rows and columns follow [chain], every entry
    lies in a row of the boundary table and starts at that row's upper
    boundary, and the table has one more element than there are rows. *)
Definition layout_wf (C : Z) (infos : list MenuItemInfo) (rhs : list Z) : Prop :=
  chain C (-1) (-1) infos /\
  Forall (fun e => 0 <= row e /\ at_ rhs (row e) = Some (y e) /\
                   row e + 1 < size rhs) infos /\
  mono Z.le rhs.

(** Number of non-heading entries of a list, and of the index range
    [[lo, hi)] of a list. *)
Fixpoint count_items (l : list MenuItemInfo) : Z :=
  match l with
  | [] => 0
  | e :: t => not_heading e + count_items t
  end.

Definition items_in_range (infos : list MenuItemInfo) (lo hi : Z) : Z :=
  count_items (firstn (Z.to_nat hi - Z.to_nat lo) (skipn (Z.to_nat lo) infos)).

(** The widget has one [item_info] per entry ([update_items] resizes the
    vector) and no entry has a negative row. *)
Definition ui_ready (m : Menu) : Prop :=
  List.length (item_info (m_ui_menu m)) = List.length (items m) /\
  Forall (fun e => 0 <= row e) (item_info (m_ui_menu m)).

(** *** Hotkey resolution as the specification words it *)

(** "key is one of its hotkeys", for the entry at index [i]. *)
Definition key_among_hotkeys (m : Menu) (i key : Z) : bool :=
  match at_ (items m) i with
  | Some e => entry_is_hotkey e key
  | None => false
  end.

(** The same, restricted to the current page when [MF_SELECT_BY_PAGE] is
    set. *)
Definition key_among_hotkeys_on_page (m : Menu) (i key : Z) : bool :=
  key_among_hotkeys m i key
  && (negb (is_set m MF_SELECT_BY_PAGE)
      || match in_page m i false with Some b => b | None => false end).

(** "[key] is its primary hotkey or the menu is SingleSelect". *)
Definition primary_or_single (m : Menu) (i key : Z) : bool :=
  match at_ (items m) i with
  | Some e => match hotkeys e with h0 :: _ => h0 =? key | [] => false end
  | None => false
  end || is_set m MF_SINGLESELECT.

(** "starting from the first visible index and wrapping around the whole
    list". *)
Definition scan_order (first_entry final : Z) : list Z :=
  map (fun i => Z.rem (Z.of_nat i + first_entry) final)
      (seq 0 (Z.to_nat final)).

Definition all_indices (m : Menu) : list Z :=
  map Z.of_nat (seq 0 (List.length (items m))).

(** Hotkey resolution for a literal key, following the words of the
    specification; [matches] says when an entry has the key. *)
Definition select_items_as_specified (env : Env)
    (matches : Menu -> Z -> Z -> bool) (m : Menu) (key qty : Z)
    : option Menu :=
  do first_entry <- get_first_visible m false;
  match find (fun i => matches m i key && primary_or_single m i key)
             (scan_order first_entry (size (items m))) with
  | Some index =>
      do m1 <- select_index env m index qty;
      set_hovered env m1 index false
  | None =>
      if is_set m MF_MULTISELECT then
        let hits := filter (fun i => matches m i key) (all_indices m) in
        do m1 <- fold_left (fun acc i => do a <- acc; select_index env a i qty)
                           hits (Some m);
        match hits with
        | [] => Some m1
        | first_snap :: _ =>
            do (_, m2) <- snap_in_page env m1 (last hits first_snap);
            set_hovered env m2 first_snap false
        end
      else Some m
  end.

(** A key that [select_items] treats as a hotkey, not as "select all",
    "invert" or "clear". *)
Definition literal_key (m : Menu) (key : Z) : bool :=
  negb (((key =? 44) || (key =? 42) || _key_is_minus key)
        && has_flag m MF_MULTISELECT).

(** What selecting and navigating leave alone: flags, the quantity
    accumulator, the filter and the menu-wide callback, the geometry of the
    layout, and the hotkeys and levels of the entries. *)
Definition frame (m m' : Menu) : Prop :=
  flags m' = flags m /\
  num m' = num m /\
  select_filter m' = select_filter m /\
  on_single_selection m' = on_single_selection m /\
  row_heights (m_ui_menu m') = row_heights (m_ui_menu m) /\
  map row (item_info (m_ui_menu m')) = map row (item_info (m_ui_menu m)) /\
  map hotkeys (items m') = map hotkeys (items m) /\
  map level (items m') = map level (items m).

(** Selecting also leaves the scroller alone. *)
Definition same_frame (m m' : Menu) : Prop :=
  frame m m' /\ m_ui_scroller m' = m_ui_scroller m.

(** *** The quantity prefix as the specification words it *)








(** *** Vocabulary of the page-height cap *)

(** Entry [i] of the layout, the number of non-heading entries before
    index [k], and the lower boundary of the row of entry [i]. *)
Definition entry_at (infos : list MenuItemInfo) (i : nat) : MenuItemInfo :=
  nth i infos default_info.

Definition items_before (infos : list MenuItemInfo) (k : nat) : Z :=
  count_items (firstn k infos).

Definition row_bottom (infos : list MenuItemInfo) (rhs : list Z) (i : nat) : Z :=
  nth (Z.to_nat (row (entry_at infos i) + 1)) rhs 0.

(** What the outer loop of [get_max_viewport_height] maintains: the
    window [[a, b)] starts a row, holds [num] (at most 52) non-heading
    entries and no proper prefix of it holds 52; [mvh] is below the span of
    every full window that starts a row before [a]. *)
Definition window_inv (infos : list MenuItemInfo) (a b : nat) (num mvh : Z)
    : Prop :=
  (a <= b <= List.length infos)%nat /\
  num = items_before infos b - items_before infos a /\ num <= 52 /\
  ((a < List.length infos)%nat -> column (entry_at infos a) = 0) /\
  (forall b', (a <= b' < b)%nat ->
     items_before infos b' - items_before infos a < 52) /\
  (forall a' b', (a' < a)%nat -> column (entry_at infos a') = 0 ->
     (a' <= b' < List.length infos)%nat ->
     items_before infos b' - items_before infos a' = 52 ->
     mvh <= y (entry_at infos b') - y (entry_at infos a')) /\
  (items_before infos (List.length infos - 1) < 52 -> mvh = INT_MAX).

(** What the result [V] satisfies: it is below the span of every window
    of 52 non-heading entries that starts a row and is followed by another
    entry, and it is [INT_MAX] when there is no such window. *)
Definition window_post (infos : list MenuItemInfo) (V : Z) : Prop :=
  (forall a' b', column (entry_at infos a') = 0 ->
     (a' <= b' < List.length infos)%nat ->
     items_before infos b' - items_before infos a' = 52 ->
     V <= y (entry_at infos b') - y (entry_at infos a')) /\
  (items_before infos (List.length infos - 1) < 52 -> V = INT_MAX).

(** [V] is attained: it is [INT_MAX], or below it and the span of such a
    window. *)
Definition window_attained (infos : list MenuItemInfo) (V : Z) : Prop :=
  V <= INT_MAX /\
  (V = INT_MAX \/
   exists a' b', column (entry_at infos a') = 0 /\
     (a' <= b' < List.length infos)%nat /\
     items_before infos b' - items_before infos a' = 52 /\
     V = y (entry_at infos b') - y (entry_at infos a')).

(** ** Concrete data for examples

    A monospace font (8 by 16 pixels, no wrapping), a shade of 12 pixels
    and a key table without bindings. *)
Definition example_env : Env :=
  mkEnv 16 (fun s => 8 * Z.of_nat (String.length s)) (fun s _ _ => s)
        (fun _ => 16) 12 (-1000) (-1001) (-1002) 13 27
        (fun _ => CMD_NO_CMD) (fun _ _ => true) (fun _ _ => false)
        text (fun k => String (ascii_of_N (Z.to_N k)) EmptyString) true
        EmptyString false.

Definition example_info (txt : string) (h : bool) : MenuItemInfo :=
  mkInfo 0 0 0 0 txt [] h.

Definition example_ui (infos : list MenuItemInfo) : UIMenu :=
  mkUI 0 (-1) (-1) (-1) false 0 0 1 infos [] (-1) (-1) false 0 0 800 600.

Definition example_entry (txt : string) (lvl : MenuEntryLevel)
    (keys : list Z) (qty : Z) : MenuEntry :=
  mkEntry txt lvl keys qty 0 false [] None.

Definition example_infos (entries : list MenuEntry) : list MenuItemInfo :=
  map (fun e => example_info (text e) (is_heading_level (level e))) entries.

(** A menu without a hover, with the given flags, entries, widget state,
    scroll offset and viewport height. *)
Definition example_menu (fl : Z) (entries : list MenuEntry) (u : UIMenu)
    (scroll vph : Z) : Menu :=
  mkMenu fl entries [] (-1) 0 (-1) [] None None CYCLE_NONE ACT_EXAMINE u
         (mkScroller scroll vph).

(** Two lines of plain text (level [MEL_NONE]) followed by one item, laid
    out in one column: three rows of 20 pixels. *)
Definition example_text_then_item : list MenuEntry :=
  [example_entry "About this list" MEL_NONE [] 0;
   example_entry "(press a key)" MEL_NONE [] 0;
   example_entry "go" MEL_ITEM [97] 1].

Definition example_laid_out (entries : list MenuEntry) (columns : Z) : UIMenu :=
  match do_layout example_env (List.length entries) false 800 columns
                  (example_ui (example_infos entries)) with
  | Some u => u
  | None => example_ui (example_infos entries)
  end.

(** Ten one-line items with the hotkeys a to j, in rows of 20 pixels. *)
Definition example_ten_items : list MenuEntry :=
  map (fun k => example_entry "item" MEL_ITEM [k] 1)
      [97; 98; 99; 100; 101; 102; 103; 104; 105; 106].

(** ** Refreshing the widget from the entries *)

Definition set_draw_tiles (u : UIMenu) (v : bool) : UIMenu :=
  mkUI (m_height u) (m_hover_idx u) (m_min_col_width u) (m_force_scroll u)
       (m_initial_hover_snap u) (m_scroll_context u) (m_nat_column_width u)
       (m_num_columns u) (item_info u) (row_heights u) (m_mouse_x u)
       (m_mouse_y u) v (m_region_x u) (m_region_y u) (m_region_width u)
       (m_region_height u).

Definition has_tiles (entry : MenuItemInfo) : bool :=
  match itiles entry with [] => false | _ :: _ => true end.

Section MenuUpdate.

Variable env : Env.

(** The first loop of [UIMenu::update_items]: [k] calls of [update_item]
    from index [i]. *)
Fixpoint update_items_loop (k : nat) (i : Z) (m : Menu) : option Menu :=
  match k with
  | O => Some m
  | S k' => do m' <- update_item env m i; update_items_loop k' (i + 1) m'
  end.

(** Its second loop, which computes [m_draw_tiles]. *)
Fixpoint draw_tiles_loop (l : list MenuItemInfo) : bool :=
  match l with
  | [] => false
  | entry :: rest =>
      if negb (heading entry) && has_tiles entry then tile_menu_icons env
      else draw_tiles_loop rest
  end.

(** [UIMenu::update_items]. *)
Definition update_items (m : Menu) : option Menu :=
  let u := m_ui_menu m in
  let m0 :=
    set_ui_menu m
      (set_item_info u (resize_info (item_info u) (List.length (items m)))) in
  do m1 <- update_items_loop (List.length (items m)) 0 m0;
  Some (set_ui_menu m1
          (set_draw_tiles (m_ui_menu m1)
                          (draw_tiles_loop (item_info (m_ui_menu m1))))).

(** [Menu::update_menu] for a menu that is not shown yet or is drawn with
    local tiles; the title text is not part of the model. *)
Definition update_menu (m : Menu) : option Menu :=
  do m1 <- update_items m;
  if 0 <=? last_hovered m1 then set_hovered env m1 (last_hovered m1) false
  else Some m1.

(** [Menu::add_entry]; the tag copied into the entry is not part of the
    model. *)
Definition add_entry (m : Menu) (entry : MenuEntry) : Menu :=
  set_items m (items m ++ [entry]).

End MenuUpdate.

(** ** Flags and the start of [Menu::show] *)

(** Modelled from the spec: two more bits of the flag set of menu.h. *)
Definition MF_INIT_HOVER : Z := 64.
Definition MF_START_AT_END : Z := 4096.

Definition set_flags_field (m : Menu) (v : Z) : Menu :=
  mkMenu v (items m) (sel m) (num m) (lastch m) (last_hovered m)
         (select_filter m) (f_keyfilter m) (on_single_selection m)
         (action_cycle m) (menu_action m) (m_ui_menu m) (m_ui_scroller m).

(** [Menu::set_flags]; [menu_arrow_control] is
    [Options.menu_arrow_control].  The check of the selection flags is
    compiled only with DEBUG. *)
Definition set_flags (menu_arrow_control : bool) (m : Menu) (new_flags : Z)
    : Menu :=
  let m := set_flags_field m new_flags in
  if negb menu_arrow_control || negb (Z.land (flags m) MF_NOSELECT =? 0)
  then set_flags_field m
         (Z.land (flags m) (Z.lnot (Z.lor MF_ARROWS_SELECT MF_INIT_HOVER)))
  else m.

(** [Menu::show] up to its call of [do_menu]: the initial selection, scroll
    offset and hover.  The footer ([set_more]) is not part of the model. *)
Definition show_prologue (env : Env) (m : Menu) (reuse_selections : bool)
    : option Menu :=
  do m <- (if reuse_selections then Some (get_selected m)
           else deselect_all env m false);
  if is_set m MF_START_AT_END then
    let m := scroller_set_scroll m INT_MAX in
    if is_set m MF_INIT_HOVER then
      do m <- set_hovered env m (size (items m) - 1) false;
      do e <- at_ (items m) (last_hovered m);
      if negb (level_eqb (level e) MEL_ITEM) then cycle_hover env m true
      else Some m
    else Some m
  else if is_set m MF_INIT_HOVER then
    do stray <- (if last_hovered m <? 0 then Some true
                 else do e <- at_ (items m) (last_hovered m);
                      Some (negb (level_eqb (level e) MEL_ITEM)));
    if stray then cycle_hover env m false else Some m
  else Some m.

(** ** Free functions and small queries *)

(** [Menu::get_entry_index]; the entry pointer [e] is modelled, like the
    pointers of [sel], by the position of the entry in [items]. *)
Fixpoint entry_index_loop (l : list MenuEntry) (pos e : nat) (index : Z) : Z :=
  match l with
  | [] => -1
  | item :: rest =>
      if Nat.eqb pos e then index
      else entry_index_loop rest (S pos) e
             (if negb (quantity item =? 0) then index + 1 else index)
  end.

Definition get_entry_index (m : Menu) (e : nat) : Z :=
  entry_index_loop (items m) 0 e 0.

(** [static_cast<char>(i)] printed with [%c]. *)
Definition char_of_int (i : Z) : ascii := ascii_of_N (Z.to_N (i mod 256)).

(** [hyphenated_hotkey_letters]; [first] is the [int] value of the
    character. *)
Definition hyphenated_hotkey_letters (how_many first : Z) : string :=
  let how_many := Z.min how_many 52 in
  if 1 <? how_many then
    let last := first + how_many - 1 in
    let last := if 122 <? last then 65 + last - (122 + 1) else last in
    ("[<w>" ++ String (char_of_int first)
       ("</w>-<w>" ++ String (char_of_int last) "</w>]"))%string
  else ("[<w>" ++ String (char_of_int first) "</w>]")%string.

(** [%d] of an [int], and [string(n, ' ')]. *)
Definition decimal (i : Z) : string :=
  DecimalString.NilZero.string_of_int (Z.to_int i).

Fixpoint spaces (n : nat) : string :=
  match n with
  | O => EmptyString
  | S k => String " " (spaces k)
  end.

(** [Menu::get_select_count_string]; [f_selitem] is the optional callback
    of that name. *)
Definition get_select_count_string (f_selitem : option (list nat -> string))
    (m : Menu) (count : Z) : string :=
  let ret :=
    match f_selitem with
    | Some f => f (sel m)
    | None =>
        if negb (count =? 0)
        then (" (" ++ decimal count ++ " selected)")%string
        else EmptyString
    end in
  (ret ++ spaces (Z.to_nat (Z.max (12 - Z.of_nat (String.length ret)) 0)))%string.

(** The scroll position that [UIMenuPopup::_allocate_region] passes to the
    footer, in percent. *)
Definition scroll_percent (menu_height viewport_height scroll : Z) : Z :=
  if menu_height - viewport_height =? 0 then 0
  else Z.quot (scroll * 100) (menu_height - viewport_height).

(** The text that [UIMenuMore::set_from_template] puts in place of [XXX];
    [%2d] pads the number to two columns. *)
Definition scroll_position_text (scroll_percent : Z) : string :=
  if scroll_percent <=? 0 then "top"%string
  else if 100 <=? scroll_percent then "bot"%string
  else
    let d := decimal scroll_percent in
    (spaces (2 - String.length d) ++ d ++ "%")%string.

(** An entry of [Options.menu_colour_mappings]. *)
Record colour_mapping := mkMapping {
  cm_tag : string;
  cm_pattern : string;
  cm_colour : Z
}.

(** [menu_colour] over the given mappings. *)
Fixpoint menu_colour (env : Env) (mappings : list colour_mapping)
    (text prefix tag : string) : Z :=
  match mappings with
  | [] => -1
  | cm :: rest =>
      if ((cm_tag cm =? EmptyString)%string || (cm_tag cm =? "any")%string
          || (cm_tag cm =? tag)%string
          || ((cm_tag cm =? "inventory")%string && (tag =? "pickup")%string))
         && pattern_matches env (cm_pattern cm) (prefix ++ text)
      then cm_colour cm
      else menu_colour env rest text prefix tag
  end.

(** ** The column composer

    [formatted_string] belongs to format.cc; the composer uses its width,
    its empty value, appending and padding with blanks. *)
Section ColumnComposer.

Variable fstring : Type.
Variable fs_width : fstring -> Z.
Variable fs_empty : fstring.
Variable fs_append : fstring -> fstring -> fstring.
Variable fs_pad : fstring -> Z -> fstring.

(** [column_composer::strip_blank_lines]: [k] is [i + 1]. *)
Fixpoint strip_blank_loop (k : nat) (fs : list fstring) : list fstring :=
  match k with
  | O => fs
  | S i =>
      match nth_error fs i with
      | Some line =>
          if fs_width line =? 0
          then strip_blank_loop i (firstn i fs ++ skipn (S i) fs)
          else fs
      | None => fs
      end
  end.

Definition strip_blank_lines (fs : list fstring) : list fstring :=
  strip_blank_loop (List.length fs) fs.

(** [vector::resize] of [flines]. *)
Definition resize_lines (l : list fstring) (n : nat) : list fstring :=
  firstn n l ++ repeat fs_empty (n - List.length l).

(** The loop of [column_composer::compose_formatted_column]. *)
Fixpoint compose_loop (lines : list fstring) (f : nat) (margin : Z)
    (flines : list fstring) : option (list fstring) :=
  match lines with
  | [] => Some flines
  | line :: rest =>
      do old <- nth_error flines f;
      let padded :=
        if 1 <? margin then
          let xdelta := margin - fs_width old - 1 in
          if 0 <? xdelta then fs_pad old xdelta else old
        else old in
      compose_loop rest (S f) margin
                   (set_nth flines f (fs_append padded line))
  end.

(** [column_composer::compose_formatted_column]; a negative [startline]
    makes the unsigned size comparison and the index meaningless
    ([None]). *)
Definition compose_formatted_column (flines lines : list fstring)
    (startline margin : Z) : option (list fstring) :=
  if startline <? 0 then None
  else
    let needed := (Z.to_nat startline + List.length lines)%nat in
    let flines :=
      if (List.length flines <? needed)%nat then resize_lines flines needed
      else flines in
    compose_loop lines (Z.to_nat startline) margin flines.

End ColumnComposer.

(** ** More predicates used in the statements *)

(** No row of the boundary table is taller than [bound]. *)
Definition row_gaps_within (rhs : list Z) (bound : Z) : Prop :=
  forall i a b, nth_error rhs i = Some a -> nth_error rhs (S i) = Some b ->
    b - a <= bound.

(** The state of a menu after [update_items] and [do_layout]: one layout
    record per entry, placed by [do_layout] for some positive number of
    columns. *)
Definition laid_out (m : Menu) : Prop :=
  exists C, 0 < C /\
    layout_wf C (item_info (m_ui_menu m)) (row_heights (m_ui_menu m)) /\
    List.length (item_info (m_ui_menu m)) = List.length (items m).

(** What the keys [','], ['*'] and ['-'] act on in [select_index(-1, qty)]
    when the menu does not select by page: the [MEL_ITEM] entries with a
    hotkey, for [','] only those that pass the selection filter; and the
    quantity code each key passes on. *)
Definition selectable_entry (env : Env) (m : Menu) (e : MenuEntry) : bool :=
  match select_filter m with
  | [] => true
  | _ :: _ =>
      existsb (fun pat => pattern_matches env pat (get_filter_text env e))
              (select_filter m)
  end.

Definition bulk_target (env : Env) (m : Menu) (filtered : bool)
    (e : MenuEntry) : bool :=
  level_eqb (level e) MEL_ITEM
  && negb (match hotkeys e with [] => true | _ :: _ => false end)
  && (negb filtered || selectable_entry env m e).

Definition bulk_quantity (key : Z) : Z :=
  if key =? 44 then -2 else if key =? 42 then -1 else 0.

(** The commands that only scroll or move the hover, and what they leave
    alone: the entries, the selection, the flags, the last key and the
    menu action. *)
Definition is_navigation (cmd : command_type) : bool :=
  match cmd with
  | CMD_MENU_UP | CMD_MENU_DOWN | CMD_MENU_LINE_UP | CMD_MENU_LINE_DOWN
  | CMD_MENU_PAGE_UP | CMD_MENU_PAGE_DOWN | CMD_MENU_SCROLL_TO_TOP
  | CMD_MENU_SCROLL_TO_END | CMD_MENU_CYCLE_HEADERS | CMD_MENU_HELP => true
  | _ => false
  end.

Definition same_content (m m' : Menu) : Prop :=
  items m' = items m /\ sel m' = sel m /\ flags m' = flags m /\
  lastch m' = lastch m /\ menu_action m' = menu_action m.

(** The hotkey letters in the order the menus hand them out. *)
Definition hotkey_alphabet : string :=
  "abcdefghijklmnopqrstuvwxyzABCDEFGHIJKLMNOPQRSTUVWXYZ".

(* ================================================================== *)
(** * Theorems *)

(** ** Entry model *)

Section EntryFacts.

Lemma level_eqb_eq a b : level_eqb a b = true <-> a = b.
Proof. destruct a, b; simpl; split; intro H; try reflexivity; discriminate H. Qed.


Lemma select_frame e qty :
  text (select e qty) = text e /\ level (select e qty) = level e /\
  hotkeys (select e qty) = hotkeys e /\ quantity (select e qty) = quantity e /\
  indent_no_hotkeys (select e qty) = indent_no_hotkeys e /\
  tiles (select e qty) = tiles e /\ on_select (select e qty) = on_select e.
Proof.
  unfold select.
  repeat match goal with |- context [if ?c then _ else _] => destruct c end;
    simpl; repeat split; reflexivity.
Qed.

End EntryFacts.

(** C2 (as stated) fails: an entry without action and with [quantity = 0]
    asked for [qty = 3] keeps [selected_qty = 0], where the four cases of
    the claim would store 3. *)
Lemma select_differs_from_specified :
  let e := mkEntry "x" MEL_ITEM [97] 0 0 false [] None in
  selected_qty (select e 3) = 0 /\
  selected_qty (select_as_specified e 3) = 3 /\
  select e 3 <> select_as_specified e 3.
Proof. cbv. repeat split; discriminate. Qed.

(** C2 (amended): [select] tests its cases in the order of the source:
    an action entry with [quantity = 0] gets [selected_qty = 1]; else
    [qty = -2] stores [quantity]; else a selected entry is toggled off;
    else, if [quantity <> 0], [selected_qty] becomes [quantity] for
    [qty = -1] and [qty] otherwise; an unselected entry without quantity
    (and without action) is left as it is.  No other field changes. *)
Theorem select_cases (e : MenuEntry) (qty : Z) :
  let e' := select e qty in
  (has_action e = true /\ quantity e = 0 -> selected_qty e' = 1) /\
  (~ (has_action e = true /\ quantity e = 0) ->
     (qty = -2 -> selected_qty e' = quantity e) /\
     (qty <> -2 ->
        (selected e = true -> selected_qty e' = 0) /\
        (selected e = false ->
           (quantity e <> 0 ->
              selected_qty e' = if qty =? -1 then quantity e else qty) /\
           (quantity e = 0 -> e' = e)))) /\
  text e' = text e /\ level e' = level e /\ hotkeys e' = hotkeys e /\
  quantity e' = quantity e /\ indent_no_hotkeys e' = indent_no_hotkeys e /\
  tiles e' = tiles e /\ on_select e' = on_select e.
Proof.
  cbv zeta. split; [| split; [| apply select_frame]].
  - intros [Ha Hq]. unfold select. rewrite Ha, Hq. reflexivity.
  - intros Hn. unfold select.
    destruct (has_action e && (quantity e =? 0)) eqn:E.
    + exfalso. apply Hn. apply andb_true_iff in E. destruct E as [E1 E2].
      split; [exact E1 | lia].
    + split.
      * intros ->. reflexivity.
      * intros Hq2. destruct (qty =? -2) eqn:E2; [lia |].
        split.
        -- intros ->. reflexivity.
        -- intros ->. split.
           ++ intros Hq. destruct (quantity e =? 0) eqn:E3; [lia |]. reflexivity.
           ++ intros Hq. rewrite Hq. reflexivity.
Qed.

(** C9 (as stated) fails: the base [select] does not clamp the requested
    quantity; a numeric prefix of 5 on an entry of quantity 3 stores 5, and
    an action entry of quantity 0 stores 1. *)
Lemma select_exceeds_quantity :
  let e := mkEntry "arrows" MEL_ITEM [97] 3 0 false [] None in
  let a := mkEntry "act" MEL_ITEM [98] 0 0 false [] (Some O) in
  (selected_qty (select e 5) = 5 /\ quantity (select e 5) = 3) /\
  (selected_qty (select a (-1)) = 1 /\ quantity (select a (-1)) = 0) /\
  ~ (0 <= selected_qty (select e 5) <= quantity (select e 5)).
Proof. cbv. repeat split; try reflexivity. intros [_ H]. apply H. reflexivity. Qed.

(** C9 (amended): [select] keeps [0 <= selected_qty <= quantity] when the
    entry satisfied it before, is not an action entry of quantity 0, and
    the requested [qty] is -1, -2 or lies within [0 .. quantity]. *)
Theorem select_within_quantity (e : MenuEntry) (qty : Z) :
  0 <= selected_qty e <= quantity e ->
  ~ (has_action e = true /\ quantity e = 0) ->
  qty = -1 \/ qty = -2 \/ 0 <= qty <= quantity e ->
  0 <= selected_qty (select e qty) <= quantity (select e qty).
Proof.
  intros Hinv Hact Hq. unfold select.
  destruct (has_action e && (quantity e =? 0)) eqn:E.
  - exfalso. apply Hact. apply andb_true_iff in E. destruct E. split; [assumption | lia].
  - destruct (qty =? -2) eqn:E2; [simpl; lia |].
    destruct (selected e); [simpl; lia |].
    destruct (quantity e =? 0) eqn:E3; simpl; [assumption |].
    destruct (qty =? -1) eqn:E4; lia.
Qed.

Lemma select_within_quantity_witness :
  let e := mkEntry "arrows" MEL_ITEM [97] 3 0 false [] None in
  0 <= selected_qty (select e 2) <= quantity (select e 2).
Proof.
  apply (select_within_quantity (mkEntry "arrows" MEL_ITEM [97] 3 0 false [] None) 2).
  - simpl. lia.
  - simpl. intros [H _]. discriminate H.
  - right. right. simpl. lia.
Defined.

(** ** Layout engine *)

(** A read beyond the terminating NUL cannot change the verdict of
    [_has_hotkey_prefix]: any reader that agrees with the string up to and
    including the NUL gives the same result. *)
Lemma has_hotkey_prefix_short (s : string) (rd : nat -> Z) :
  (forall i, (i <= String.length s)%nat -> rd i = char_at s i) ->
  hotkey_prefix_of rd = _has_hotkey_prefix s.
Proof.
  intros H. unfold _has_hotkey_prefix, hotkey_prefix_of.
  destruct s as [| c0 [| c1 [| c2 [| c3 s']]]].
  - rewrite (H 0%nat) by (simpl; lia). simpl (char_at EmptyString 0).
    change (0 =? 32) with false. rewrite !andb_false_r. reflexivity.
  - rewrite (H 1%nat) by (simpl; lia).
    change (char_at (String c0 EmptyString) 1) with 0. reflexivity.
  - rewrite (H 2%nat) by (simpl; lia).
    change (char_at (String c0 (String c1 EmptyString)) 2) with 0.
    change (0 =? 32) with false. rewrite !andb_false_r. reflexivity.
  - rewrite (H 3%nat) by (simpl; lia).
    change (char_at (String c0 (String c1 (String c2 EmptyString))) 3) with 0.
    change ((0 =? 45) || (0 =? 43) || (0 =? 35)) with false.
    rewrite !andb_false_r. reflexivity.
  - rewrite (H 0%nat), (H 1%nat), (H 2%nat), (H 3%nat), (H 4%nat)
      by (simpl; lia).
    reflexivity.
Qed.

Section LayoutFacts.

Variable env : Env.
Variable C : Z.
Hypothesis C_pos : 0 < C.
Hypothesis text_height_nonneg : 0 <= char_height env.

Lemma mono_snoc (R : Z -> Z -> Prop) l h :
  mono R l -> (forall v, In v l -> R v h) -> mono R (l ++ [h]).
Proof.
  intros Hm Hall i j a b Hij Hi Hj.
  assert (Hjl : (j < List.length (l ++ [h]))%nat)
    by (apply nth_error_Some; congruence).
  rewrite length_app in Hjl. simpl in Hjl.
  destruct (Nat.lt_ge_cases j (List.length l)) as [Hlt | Hge].
  - rewrite nth_error_app1 in Hi by lia. rewrite nth_error_app1 in Hj by lia.
    exact (Hm i j a b Hij Hi Hj).
  - assert (j = List.length l) by lia. subst j.
    rewrite nth_error_app2 in Hj by lia. rewrite Nat.sub_diag in Hj.
    simpl in Hj. injection Hj as <-.
    rewrite nth_error_app1 in Hi by lia.
    apply Hall. eapply nth_error_In; eassumption.
Qed.

Lemma mono_nil (R : Z -> Z -> Prop) : mono R [].
Proof. intros i j a b _ Hi. destruct i; discriminate Hi. Qed.

Lemma last_snoc (l : list Z) h d : last (l ++ [h]) d = h.
Proof. apply last_last. Qed.

Lemma size_snoc {A} (l : list A) h : size (l ++ [h]) = size l + 1.
Proof. unfold size. rewrite length_app. simpl. lia. Qed.

Lemma size_nonneg {A} (l : list A) : 0 <= size l.
Proof. unfold size. lia. Qed.

Lemma acc_ok_init sc : acc_ok env C (mkAcc (-1) 0 0 0 [] sc).
Proof.
  unfold acc_ok; simpl. repeat split; try lia; try congruence;
    try (intros; contradiction); try apply mono_nil.
  intros _. apply mono_nil.
Qed.

(** The push performed when [column == 0]. *)
Lemma push_ok (a : LayoutAcc) :
  acc_ok env C a ->
  let row_height :=
    l_row_height a + (if l_row_height a =? 0 then 0 else 2 * item_pad) in
  let height := l_height a + row_height in
  let rhs := l_row_heights a ++ [height] in
  0 <= row_height /\
  (forall v, In v rhs -> v <= height) /\
  last rhs 0 = height /\ mono Z.le rhs /\
  (0 < char_height env -> mono Z.lt rhs).
Proof.
  intros (Hc & Hnil & Hne & Hrh & Hrhs & Hle & Hlast & Hm & Hms). cbv zeta.
  assert (H0 : 0 <= l_row_height a + (if l_row_height a =? 0 then 0 else 2 * item_pad))
    by (unfold item_pad; destruct (l_row_height a =? 0); lia).
  split; [exact H0 |]. split; [| split; [| split]].
  - intros v Hv. apply in_app_or in Hv. destruct Hv as [Hv | [<- | []]].
    + specialize (Hle v Hv). lia.
    + lia.
  - apply last_snoc.
  - apply mono_snoc; [exact Hm |]. intros v Hv. specialize (Hle v Hv). lia.
  - intros Hpos. apply mono_snoc; [exact (Hms Hpos) |].
    intros v Hv. specialize (Hle v Hv).
    assert (Hn : l_row_heights a <> []) by (intros E; rewrite E in Hv; exact Hv).
    specialize (Hrhs Hpos Hn). unfold item_pad.
    destruct (l_row_height a =? 0) eqn:E; lia.
Qed.

Lemma rem_range (c : Z) : -1 <= c < C -> 0 <= Z.rem (c + 1) C < C.
Proof. intros H. apply Z.rem_bound_pos; lia. Qed.

Lemma snoc_not_nil {A} (l : list A) (h : A) : l ++ [h] <> [].
Proof. destruct l; discriminate. Qed.

Lemma layout_entry_spec mw nw dt i e a e' a' :
  acc_ok env C a ->
  layout_entry env mw C nw dt i e a = (e', a') ->
  acc_ok env C a' /\
  (exists extra, l_row_heights a' = l_row_heights a ++ extra) /\
  l_row_heights a' <> [] /\
  heading e' = heading e /\ itext e' = itext e /\ itiles e' = itiles e /\
  column e' = (if heading e then 0 else Z.rem (l_column a + 1) C) /\
  row e' = size (l_row_heights a) - 1 + (if column e' =? 0 then 1 else 0) /\
  row e' = size (l_row_heights a') - 1 /\
  y e' = l_height a' /\
  l_column a' = (if heading e then C - 1 else column e').
Proof.
  intros Hok Hstep.
  pose proof (push_ok a Hok) as Hpush. cbv zeta in Hpush.
  destruct Hpush as (P0 & Ple & Plast & Pm & Pms).
  destruct Hok as (Hc & Hnil & Hne & Hrh & Hrhs & Hle & Hlast & Hm & Hms).
  unfold layout_entry in Hstep.
  destruct (heading e) eqn:Hh.
  - (* heading *)
    simpl in Hstep.
    assert (Hth : 0 < char_height env +
                      match i with O => 5 | S _ => 10 end)
      by (destruct i; lia).
    set (rh := if dt && (mw <? string_width env (itext e))
               then Z.max (char_height env + match i with O => 5 | S _ => 10 end)
                          (string_height env (font_split env (itext e) mw UINT_MAX))
               else char_height env + match i with O => 5 | S _ => 10 end) in *.
    assert (Hrh' : 0 < rh)
      by (unfold rh; destruct (dt && (mw <? string_width env (itext e))); lia).
    injection Hstep as <- <-. unfold acc_ok. simpl. rewrite size_snoc.
    repeat split; try lia; try assumption; try reflexivity;
      try (intros E; exfalso; exact (snoc_not_nil _ _ E));
      try (exfalso; eapply snoc_not_nil; eassumption);
      try apply snoc_not_nil.
    eexists; reflexivity.
  - (* ordinary entry *)
    pose proof (rem_range (l_column a) Hc) as Hr.
    set (col := Z.rem (l_column a + 1) C) in *.
    set (ti := if dt then 38 else 0) in *.
    set (ih := Z.max (char_height env)
                     (match itiles e with [] => 0 | _ :: _ => 32 end)) in *.
    destruct (if negb nw && (Z.quot mw C - ti - pad_right <? string_width env (itext e))
              then wrap_item env (Z.quot mw C) ti ih e else (ti, ih))
      as [text_sx item_height] eqn:Hw.
    assert (Hih : char_height env <= item_height /\ 0 <= item_height).
    { destruct (negb nw && (Z.quot mw C - ti - pad_right <? string_width env (itext e))).
      - unfold wrap_item in Hw.
        destruct (_has_hotkey_prefix (itext e)); injection Hw as _ <-; unfold ih; lia.
      - injection Hw as _ <-. unfold ih. lia. }
    destruct (col =? 0) eqn:Hcol.
    + simpl in Hstep. injection Hstep as <- <-. unfold acc_ok. simpl.
      rewrite size_snoc. rewrite Hcol.
      repeat split; try lia; try assumption; try reflexivity;
        try (intros E; exfalso; exact (snoc_not_nil _ _ E));
        try (exfalso; eapply snoc_not_nil; eassumption);
        try apply snoc_not_nil.
      eexists; reflexivity.
    + simpl in Hstep. injection Hstep as <- <-. unfold acc_ok. simpl.
      rewrite Hcol.
      assert (Hnn : l_row_heights a <> []).
      { intros E. destruct (Hnil E) as (E1 & _). unfold col in Hcol.
        replace (l_column a + 1) with 0 in Hcol by lia.
        rewrite Z.rem_0_l in Hcol by lia. discriminate Hcol. }
      repeat split; try lia; try assumption; try reflexivity;
        try (intros E; contradiction); try contradiction.
      exists []. rewrite app_nil_r. reflexivity.
Qed.

Lemma at_snoc {A} (l : list A) (v : A) : at_ (l ++ [v]) (size l) = Some v.
Proof.
  unfold at_, size. destruct (Z.ltb_spec (Z.of_nat (List.length l)) 0); [lia |].
  rewrite Nat2Z.id, nth_error_app2 by lia. rewrite Nat.sub_diag. reflexivity.
Qed.

Lemma at_last (l : list Z) : l <> [] -> at_ l (size l - 1) = Some (last l 0).
Proof.
  intros Hl. rewrite (app_removelast_last 0 Hl).
  rewrite last_last, size_snoc.
  replace (size (removelast l) + 1 - 1) with (size (removelast l)) by lia.
  apply at_snoc.
Qed.

Lemma at_app {A} (l extra : list A) i v :
  at_ l i = Some v -> at_ (l ++ extra) i = Some v.
Proof.
  unfold at_. destruct (i <? 0); [discriminate |].
  intros H. rewrite nth_error_app1; [exact H |].
  apply nth_error_Some. congruence.
Qed.

Lemma at_lt_size {A} (l : list A) i v : at_ l i = Some v -> 0 <= i < size l.
Proof.
  unfold at_, size. destruct (Z.ltb_spec i 0); [discriminate |].
  intros E. assert (Z.to_nat i < List.length l)%nat
    by (apply nth_error_Some; congruence). lia.
Qed.

Lemma at_Some {A} (l : list A) i : 0 <= i < size l -> exists v, at_ l i = Some v.
Proof.
  unfold at_, size. intros H. destruct (Z.ltb_spec i 0); [lia |].
  destruct (nth_error l (Z.to_nat i)) eqn:E; [eauto |].
  apply nth_error_None in E. lia.
Qed.

Lemma layout_loop_spec mw nw dt infos :
  forall i a es a',
  acc_ok env C a ->
  layout_loop env mw C nw dt i infos a = (es, a') ->
  acc_ok env C a' /\
  (exists extra, l_row_heights a' = l_row_heights a ++ extra) /\
  (infos <> [] -> l_row_heights a' <> []) /\
  chain C (size (l_row_heights a) - 1) (l_column a) es /\
  Forall (fun e => size (l_row_heights a) - 1 <= row e /\
                   at_ (l_row_heights a') (row e) = Some (y e)) es /\
  map heading es = map heading infos /\
  map itext es = map itext infos.
Proof.
  induction infos as [| e rest IH]; intros i a es a' Hok Hloop.
  - simpl in Hloop. injection Hloop as <- <-.
    split; [exact Hok |].
    split; [exists []; rewrite app_nil_r; reflexivity |].
    split; [intros H; contradiction |].
    simpl. repeat split; constructor.
  - simpl in Hloop.
    destruct (layout_entry env mw C nw dt i e a) as [e1 a1] eqn:Hstep.
    destruct (layout_loop env mw C nw dt (S i) rest a1) as [rest' a2] eqn:Hrest.
    injection Hloop as <- <-.
    destruct (layout_entry_spec _ _ _ _ _ _ _ _ Hok Hstep)
      as (Hok1 & [ex1 Hex1] & Hne1 & Hh & Ht & Hti & Hcol & Hrow & Hrow' & Hy & Hc').
    destruct (IH _ _ _ _ Hok1 Hrest)
      as (Hok2 & [ex2 Hex2] & _ & Hch & Hall & Hmh & Hmt).
    split; [exact Hok2 |].
    split; [exists (ex1 ++ ex2); rewrite Hex2, Hex1, app_assoc; reflexivity |].
    split; [intros _; rewrite Hex2; intros E; apply app_eq_nil in E; tauto |].
    split; [| split; [| split]].
    + simpl. rewrite Hh. split; [exact Hcol |]. split; [exact Hrow |].
      rewrite <- Hc', Hrow'. exact Hch.
    + constructor.
      * split.
        -- rewrite Hrow. destruct (column e1 =? 0); lia.
        -- rewrite Hex2. apply at_app. rewrite Hrow', Hy.
           destruct Hok1 as (_ & _ & _ & _ & _ & _ & Hlast & _).
           rewrite <- Hlast. apply at_last. exact Hne1.
      * eapply Forall_impl; [| exact Hall]. simpl. intros x [Hx1 Hx2].
        split; [| exact Hx2].
        rewrite Hex1 in Hx1. unfold size in *. rewrite length_app in Hx1. lia.
    + simpl. rewrite Hh, Hmh. reflexivity.
    + simpl. rewrite Ht, Hmt. reflexivity.
Qed.

(** Index-wise reading of [chain]. *)
Lemma chain_index es :
  forall pr pc, chain C pr pc es -> -1 <= pc < C ->
  (forall e, nth_error es 0 = Some e ->
     column e = (if heading e then 0 else Z.rem (pc + 1) C) /\
     row e = pr + (if column e =? 0 then 1 else 0)) /\
  (forall i p e, nth_error es i = Some p -> nth_error es (S i) = Some e ->
     (heading e = true -> column e = 0) /\
     (column e <> 0 -> column e = column p + 1) /\
     row e = row p + (if column e =? 0 then 1 else 0)) /\
  (forall i e, nth_error es i = Some e ->
     0 <= column e < C /\ (heading e = true -> column e = 0)).
Proof.
  induction es as [| e0 t IH]; intros pr pc Hch Hpc.
  - repeat split; intros; try (destruct i); discriminate.
  - simpl in Hch. destruct Hch as (Hc0 & Hr0 & Hch).
    assert (Hc0r : 0 <= column e0 < C).
    { rewrite Hc0. destruct (heading e0); [lia | apply rem_range; exact Hpc]. }
    assert (Hpc' : -1 <= (if heading e0 then C - 1 else column e0) < C)
      by (destruct (heading e0); lia).
    destruct (IH _ _ Hch Hpc') as (IH0 & IHs & IHr).
    split; [| split].
    + intros e He. simpl in He. injection He as <-. split; assumption.
    + intros i p e Hp He. destruct i as [| i].
      * simpl in Hp, He. injection Hp as <-.
        destruct (IH0 e He) as (Hc & Hr).
        split; [intros Hh; rewrite Hc, Hh; reflexivity |].
        split; [| exact Hr].
        intros Hne. rewrite Hc in *. destruct (heading e); [contradiction |].
        destruct (heading e0).
        -- replace (C - 1 + 1) with C in Hne by lia.
           rewrite Z.rem_same in Hne by lia. contradiction.
        -- destruct (Z.eq_dec (column e0 + 1) C) as [E | E].
           ++ rewrite E, Z.rem_same in Hne by lia. contradiction.
           ++ apply Z.rem_small. lia.
      * simpl in Hp, He. exact (IHs i p e Hp He).
    + intros i e He. destruct i as [| i].
      * simpl in He. injection He as <-. split; [exact Hc0r |].
        intros Hh. rewrite Hc0, Hh. reflexivity.
      * simpl in He. exact (IHr i e He).
Qed.

Lemma do_layout_wf n nw mw u :
  (n <= List.length (item_info u))%nat ->
  exists u', do_layout env n nw mw C u = Some u' /\
    layout_wf C (firstn n (item_info u')) (row_heights u') /\
    last (row_heights u') 0 = m_height u' /\
    (0 < char_height env -> mono Z.lt (row_heights u')) /\
    map heading (item_info u') = map heading (item_info u) /\
    map itext (item_info u') = map itext (item_info u).
Proof.
  intros Hn. unfold do_layout.
  destruct (Z.eqb_spec C 0) as [E | _]; [lia |].
  destruct (Nat.ltb_spec (List.length (item_info u)) n) as [E | _]; [lia |].
  destruct (layout_loop env mw C nw (m_draw_tiles u) 0 (firstn n (item_info u))
              (mkAcc (-1) 0 0 0 [] (m_scroll_context u))) as [es a] eqn:Hloop.
  destruct (layout_loop_spec _ _ _ _ _ _ _ _ (acc_ok_init _) Hloop)
    as (Hok & [ex Hex] & _ & Hch & Hall & Hmh & Hmt).
  simpl in Hex, Hch, Hall.
  pose proof (push_ok a Hok) as Hpush. cbv zeta in Hpush.
  destruct Hpush as (P0 & Ple & Plast & Pm & Pms).
  assert (Hlen : List.length es = n).
  { rewrite <- (length_map heading es), Hmh, length_map, length_firstn. lia. }
  eexists. split; [reflexivity |]. simpl.
  rewrite firstn_app, Hlen, Nat.sub_diag, firstn_O, app_nil_r.
  rewrite <- Hlen at 1. rewrite firstn_all.
  split; [| split; [| split; [| split]]].
  - split; [exact Hch |]. split; [| exact Pm].
    eapply Forall_impl; [| exact Hall]. simpl. intros e [He1 He2].
    pose proof (at_lt_size _ _ _ He2) as Hlt.
    split; [lia |]. split; [apply at_app; exact He2 |].
    rewrite size_snoc. lia.
  - exact Plast.
  - exact Pms.
  - rewrite map_app, Hmh, <- map_app, firstn_skipn. reflexivity.
  - rewrite map_app, Hmt, <- map_app, firstn_skipn. reflexivity.
Qed.

End LayoutFacts.

Section LayoutShape.

Variable env : Env.
Variable C : Z.
Hypothesis C_pos : 0 < C.
Hypothesis text_height_nonneg : 0 <= char_height env.

(** The first entry opens row 0 at height 0. *)
Lemma layout_entry_first mw nw dt i e a e' a' :
  acc_ok env C a -> l_row_heights a = [] ->
  layout_entry env mw C nw dt i e a = (e', a') ->
  l_row_heights a' = [0].
Proof.
  intros Hok Hnil Hstep.
  destruct Hok as (_ & Hinit & _). destruct (Hinit Hnil) as (Hc & Hh & Hrh).
  unfold layout_entry in Hstep. rewrite Hc, Hh, Hrh, Hnil in Hstep.
  replace (-1 + 1) with 0 in Hstep by lia.
  rewrite Z.rem_0_l in Hstep by lia.
  destruct (heading e); simpl in Hstep.
  - injection Hstep as _ <-. reflexivity.
  - destruct (if negb nw && _ then _ else _) as [sx ih] in Hstep.
    injection Hstep as _ <-. reflexivity.
Qed.

Lemma layout_loop_first mw nw dt infos i a es a' :
  acc_ok env C a -> l_row_heights a = [] -> infos <> [] ->
  layout_loop env mw C nw dt i infos a = (es, a') ->
  nth_error (l_row_heights a') 0 = Some 0.
Proof.
  intros Hok Hnil Hne Hloop. destruct infos as [| e rest]; [contradiction |].
  simpl in Hloop.
  destruct (layout_entry env mw C nw dt i e a) as [e1 a1] eqn:Hstep.
  destruct (layout_loop env mw C nw dt (S i) rest a1) as [rest' a2] eqn:Hrest.
  injection Hloop as _ <-.
  pose proof (layout_entry_first _ _ _ _ _ _ _ _ Hok Hnil Hstep) as H1.
  destruct (layout_entry_spec env C C_pos text_height_nonneg
              _ _ _ _ _ _ _ _ Hok Hstep) as (Hok1 & _).
  destruct (layout_loop_spec env C C_pos text_height_nonneg
              _ _ _ _ _ _ _ _ Hok1 Hrest) as (_ & [ex Hex] & _).
  rewrite Hex, H1. reflexivity.
Qed.

(** The table ends with the row of the last entry. *)
Lemma layout_loop_last mw nw dt infos :
  forall i a es a', acc_ok env C a ->
  layout_loop env mw C nw dt i infos a = (es, a') ->
  forall e, nth_error es (List.length es - 1) = Some e ->
  row e = size (l_row_heights a') - 1.
Proof.
  induction infos as [| e0 rest IH]; intros i a es a' Hok Hloop e He.
  - simpl in Hloop. injection Hloop as <- <-. discriminate He.
  - simpl in Hloop.
    destruct (layout_entry env mw C nw dt i e0 a) as [e1 a1] eqn:Hstep.
    destruct (layout_loop env mw C nw dt (S i) rest a1) as [rest' a2] eqn:Hrest.
    injection Hloop as <- <-.
    destruct (layout_entry_spec env C C_pos text_height_nonneg
                _ _ _ _ _ _ _ _ Hok Hstep)
      as (Hok1 & _ & _ & _ & _ & _ & _ & _ & Hrow' & _).
    destruct rest as [| r1 rest1].
    + simpl in Hrest. injection Hrest as <- <-. simpl in He.
      injection He as <-. exact Hrow'.
    + assert (Hlen : rest' <> []).
      { simpl in Hrest.
        destruct (layout_entry env mw C nw dt (S i) r1 a1).
        destruct (layout_loop env mw C nw dt (S (S i)) rest1 l).
        injection Hrest as <- _. discriminate. }
      apply (IH _ _ _ _ Hok1 Hrest).
      destruct rest' as [| x xs]; [contradiction |].
      simpl in He. simpl. rewrite Nat.sub_0_r in *. exact He.
Qed.

(** The column of an entry, from its predecessor's. *)
Lemma chain_step es :
  forall pr pc i p e, chain C pr pc es ->
  nth_error es i = Some p -> nth_error es (S i) = Some e ->
  column e = (if heading e then 0
              else Z.rem ((if heading p then C - 1 else column p) + 1) C).
Proof.
  induction es as [| e0 t IH]; intros pr pc i p e Hch Hp He.
  - destruct i; discriminate.
  - simpl in Hch. destruct Hch as (_ & _ & Hch).
    destruct i as [| i].
    + simpl in Hp. injection Hp as <-. simpl in He.
      destruct t as [| e1 t1]; [discriminate |]. simpl in He.
      injection He as <-. simpl in Hch. destruct Hch as (Hc & _). exact Hc.
    + simpl in Hp, He. exact (IH _ _ _ _ _ Hch Hp He).
Qed.

(** The boundary table of [do_layout]: it starts at 0 and has one element
    more than there are rows. *)
Lemma do_layout_table n nw mw u u' :
  (n <= List.length (item_info u))%nat ->
  do_layout env n nw mw C u = Some u' ->
  nth_error (row_heights u') 0 = Some 0 /\
  (n = 0%nat -> row_heights u' = [0]) /\
  (forall e, (0 < n)%nat -> nth_error (item_info u') (n - 1) = Some e ->
     size (row_heights u') = row e + 2).
Proof.
  intros Hn Hdo. unfold do_layout in Hdo.
  destruct (Z.eqb_spec C 0) as [E | _]; [lia |].
  destruct (Nat.ltb_spec (List.length (item_info u)) n) as [E | _]; [lia |].
  destruct (layout_loop env mw C nw (m_draw_tiles u) 0 (firstn n (item_info u))
              (mkAcc (-1) 0 0 0 [] (m_scroll_context u))) as [es a] eqn:Hloop.
  injection Hdo as <-. simpl.
  pose proof (acc_ok_init env C C_pos (m_scroll_context u)) as Hok0.
  destruct (layout_loop_spec env C C_pos text_height_nonneg
              _ _ _ _ _ _ _ _ Hok0 Hloop) as (_ & _ & Hne & _ & _ & Hmh & _).
  assert (Hlen : List.length es = n).
  { rewrite <- (length_map heading es), Hmh, length_map, length_firstn. lia. }
  destruct n as [| n'].
  - simpl in Hloop. injection Hloop as <- <-. simpl.
    split; [reflexivity |]. split; [reflexivity |]. intros e H. lia.
  - assert (Hnn : firstn (S n') (item_info u) <> []).
    { destruct (item_info u); [simpl in Hn; lia | discriminate]. }
    pose proof (layout_loop_first _ _ _ _ _ _ _ _ Hok0 eq_refl Hnn Hloop) as H0.
    split; [| split; [discriminate |]].
    + destruct (l_row_heights a); [discriminate H0 | exact H0].
    + intros e _ He. rewrite size_snoc.
      rewrite nth_error_app1 in He by lia.
      rewrite <- Hlen in He.
      rewrite (layout_loop_last _ _ _ _ _ _ _ _ Hok0 Hloop e He). lia.
Qed.

End LayoutShape.

(** C1: for a positive column count [C] (and a font whose character
    height is not negative), [do_layout] returns a layout with these
    properties.  Columns: every non-heading entry has a column in
    [[0, C)]: column 0 for the first entry and right after a heading, and
    otherwise the column after its predecessor's, wrapping from [C - 1] to
    0.  Rows: every heading has column 0; an entry in column 0 lies one row
    below its predecessor (row 0 for the first entry) and every other entry
    lies in the row of its predecessor.  Table: the row-height boundary
    table is not empty and starts at 0, it is non-decreasing, it has one
    element more than there are rows (every entry's row has both its
    boundaries in the table, and the last entry lies in the last row), an
    entry starts at the upper boundary of its row, and the last element of
    the table is the content height [m_height]. *)
Theorem do_layout_sound (env : Env) (n : nat) (no_wrap_rows : bool)
    (mw C : Z) (u : UIMenu) :
  0 < C -> 0 <= char_height env -> (n <= List.length (item_info u))%nat ->
  exists u', do_layout env n no_wrap_rows mw C u = Some u' /\
    map heading (item_info u') = map heading (item_info u) /\
    (forall i e, (i < n)%nat -> nth_error (item_info u') i = Some e ->
       heading e = false ->
       0 <= column e < C /\
       match i with
       | O => column e = 0 /\ row e = 0
       | S j => exists p, nth_error (item_info u') j = Some p /\
                  column e = Z.rem ((if heading p then C - 1 else column p) + 1) C /\
                  row e = row p + (if column e =? 0 then 1 else 0)
       end) /\
    (forall i e, (i < n)%nat -> nth_error (item_info u') i = Some e ->
       heading e = true ->
       column e = 0 /\
       match i with
       | O => row e = 0
       | S j => exists p, nth_error (item_info u') j = Some p /\
                          row e = row p + 1
       end) /\
    (forall i a b, nth_error (row_heights u') i = Some a ->
       nth_error (row_heights u') (S i) = Some b -> a <= b) /\
    nth_error (row_heights u') 0 = Some 0 /\
    (forall i e, (i < n)%nat -> nth_error (item_info u') i = Some e ->
       0 <= row e /\ row e + 1 < size (row_heights u') /\
       at_ (row_heights u') (row e) = Some (y e)) /\
    size (row_heights u')
    = match n with
      | O => 1
      | S j => match nth_error (item_info u') j with
               | Some e => row e + 2
               | None => 1
               end
      end /\
    last (row_heights u') 0 = m_height u'.
Proof.
  intros HC Hth Hn.
  destruct (do_layout_wf env C HC Hth n no_wrap_rows mw u Hn)
    as (u' & Hdo & (Hch & Hall & Hm) & Hlast & _ & Hmh & _).
  destruct (do_layout_table env C HC Hth n no_wrap_rows mw u u' Hn Hdo)
    as (Hfirst & Hzero & Hsize).
  exists u'. split; [exact Hdo |]. split; [exact Hmh |].
  destruct (chain_index C HC _ _ _ Hch ltac:(lia)) as (H0 & Hs & Hr).
  assert (Hnth : forall i, (i < n)%nat ->
            nth_error (firstn n (item_info u')) i = nth_error (item_info u') i).
  { intros i Hi. rewrite nth_error_firstn.
    destruct (Nat.ltb_spec i n); [reflexivity | lia]. }
  assert (Hprev : forall j, (S j < n)%nat ->
            exists p, nth_error (firstn n (item_info u')) j = Some p).
  { intros j Hj.
    destruct (nth_error (firstn n (item_info u')) j) as [p |] eqn:Hp; [eauto |].
    apply nth_error_None in Hp. rewrite length_firstn in Hp.
    assert (List.length (item_info u') = List.length (item_info u))
      by (rewrite <- (length_map heading), Hmh, length_map; reflexivity).
    lia. }
  split; [| split; [| split; [| split; [| split; [| split]]]]].
  - intros i e Hi He Hh. rewrite <- Hnth in He by exact Hi.
    split; [apply (Hr i e He) |].
    destruct i as [| j].
    + destruct (H0 e He) as (Hc & Hrow). rewrite Hh in Hc.
      replace (-1 + 1) with 0 in Hc by lia. rewrite Z.rem_0_l in Hc by lia.
      rewrite Hrow, Hc. split; reflexivity.
    + destruct (Hprev j Hi) as [p Hp].
      exists p. split; [rewrite <- Hnth by lia; exact Hp |].
      pose proof (chain_step C _ _ _ _ _ _ Hch Hp He) as Hc.
      rewrite Hh in Hc. split; [exact Hc |].
      apply (Hs j p e Hp He).
  - intros i e Hi He Hh. rewrite <- Hnth in He by exact Hi.
    split; [apply (Hr i e He); exact Hh |].
    destruct i as [| j].
    + destruct (H0 e He) as (Hc & Hrow). rewrite Hh in Hc. rewrite Hrow, Hc.
      reflexivity.
    + destruct (Hprev j Hi) as [p Hp].
      exists p. split; [rewrite <- Hnth by lia; exact Hp |].
      destruct (Hs j p e Hp He) as (Hc & _ & Hrow).
      rewrite Hrow, (Hc Hh). reflexivity.
  - intros i a b Ha Hb. exact (Hm i (S i) a b ltac:(lia) Ha Hb).
  - exact Hfirst.
  - intros i e Hi He. rewrite <- Hnth in He by exact Hi.
    rewrite Forall_forall in Hall.
    destruct (Hall e (nth_error_In _ _ He)) as (A & B & D).
    split; [exact A |]. split; [exact D | exact B].
  - destruct n as [| j].
    + rewrite (Hzero eq_refl). reflexivity.
    + destruct (nth_error (item_info u') j) as [e |] eqn:He.
      * apply (Hsize e); [lia |]. simpl. rewrite Nat.sub_0_r. exact He.
      * apply nth_error_None in He.
        assert (List.length (item_info u') = List.length (item_info u))
          by (rewrite <- (length_map heading), Hmh, length_map; reflexivity).
        lia.
  - exact Hlast.
Qed.

Lemma do_layout_sound_witness :
  exists u',
    do_layout example_env 3 false 800 2
      (example_ui [example_info "Fruits" true; example_info " a - apple" false;
                   example_info " p - pear" false]) = Some u' /\
    row_heights u' = [0; 25; 45] /\ m_height u' = 45 /\
    map column (item_info u') = [0; 0; 1] /\
    map row (item_info u') = [0; 1; 1] /\
    last (row_heights u') 0 = m_height u'.
Proof.
  destruct (do_layout_sound example_env 3 false 800 2
              (example_ui [example_info "Fruits" true;
                           example_info " a - apple" false;
                           example_info " p - pear" false]))
    as (u' & H & _ & _ & _ & _ & _ & _ & _ & Hl).
  - lia.
  - simpl. lia.
  - simpl. lia.
  - exists u'. split; [exact H |].
    vm_compute in H. injection H as <-.
    repeat split; reflexivity.
Defined.

(** ** Page-height cap *)

Section MaxViewport.

Variable C : Z.
Variable infos : list MenuItemInfo.
Variable rhs : list Z.
Hypothesis C_range : 0 < C <= 52.
Hypothesis wf : layout_wf C infos rhs.

Local Abbreviation n := (List.length infos).
Local Abbreviation inf := (entry_at infos).
Local Abbreviation P := (items_before infos).

Lemma nth_inf i : (i < n)%nat -> nth_error infos i = Some (inf i).
Proof. intros H. apply nth_error_nth'. exact H. Qed.

Lemma count_items_app l1 l2 :
  count_items (l1 ++ l2) = count_items l1 + count_items l2.
Proof. induction l1 as [| e t IH]; simpl; [reflexivity | rewrite IH; lia]. Qed.

Lemma count_items_bounds l : 0 <= count_items l <= Z.of_nat (List.length l).
Proof.
  induction l as [| e t IH]; simpl; [lia |].
  unfold not_heading. destruct (heading e); lia.
Qed.

Lemma firstn_S_snoc {A} (l : list A) k d :
  (k < List.length l)%nat -> firstn (S k) l = firstn k l ++ [nth k l d].
Proof.
  revert k. induction l as [| h t IH]; intros k Hk; simpl in Hk; [lia |].
  destruct k as [| k]; simpl; [reflexivity |].
  rewrite <- IH by lia. reflexivity.
Qed.

Lemma P_S k : (k < n)%nat -> P (S k) = P k + not_heading (inf k).
Proof.
  intros Hk. unfold items_before. rewrite (firstn_S_snoc infos k default_info Hk).
  rewrite count_items_app. simpl. fold (inf k). lia.
Qed.

Lemma P_0 : P 0 = 0.
Proof. reflexivity. Qed.

Lemma P_step_bounds k : P k <= P (S k) <= P k + 1.
Proof.
  destruct (Nat.lt_ge_cases k n) as [H | H].
  - rewrite (P_S k H). unfold not_heading. destruct (heading (inf k)); lia.
  - unfold items_before. rewrite !firstn_all2 by lia. lia.
Qed.

Lemma P_diff a b : (a <= b)%nat -> 0 <= P b - P a <= Z.of_nat (b - a).
Proof.
  induction 1 as [| b Hle IH].
  - rewrite Nat.sub_diag. lia.
  - pose proof (P_step_bounds b). lia.
Qed.

(** Discrete intermediate value: the count reaches every value below its
    final one. *)
Lemma P_reaches a b t :
  (a <= b)%nat -> 0 <= t <= P b - P a ->
  exists b', (a <= b' <= b)%nat /\ P b' - P a = t.
Proof.
  induction 1 as [| b Hle IH]; intros Ht.
  - exists a. split; lia.
  - pose proof (P_step_bounds b) as Hs.
    destruct (Z.eq_dec t (P (S b) - P a)) as [E | E].
    + exists (S b). split; lia.
    + destruct IH as (b' & Hb' & E'); [lia |]. exists b'. split; [lia | exact E'].
Qed.

Lemma wf_entry i :
  (i < n)%nat ->
  0 <= row (inf i) /\ at_ rhs (row (inf i)) = Some (y (inf i)) /\
  row (inf i) + 1 < size rhs /\ 0 <= column (inf i) < C /\
  (heading (inf i) = true -> column (inf i) = 0).
Proof.
  intros Hi. destruct wf as (Hch & Hall & _).
  rewrite Forall_forall in Hall.
  destruct (Hall (inf i)) as (H1 & H2 & H3).
  { apply nth_In. exact Hi. }
  destruct (chain_index C ltac:(lia) _ _ _ Hch ltac:(lia)) as (_ & _ & Hr).
  destruct (Hr i (inf i) (nth_inf i Hi)) as (H4 & H5).
  repeat split; try assumption; lia.
Qed.

Lemma wf_first : (0 < n)%nat -> column (inf 0) = 0 /\ row (inf 0) = 0.
Proof.
  intros Hn. destruct wf as (Hch & _).
  destruct (chain_index C ltac:(lia) _ _ _ Hch ltac:(lia)) as (H0 & _ & _).
  destruct (H0 (inf 0%nat) (nth_inf 0%nat Hn)) as (Hc & Hr).
  assert (Hc0 : column (inf 0%nat) = 0).
  { rewrite Hc. destruct (heading (inf 0%nat)); [reflexivity |].
    replace (-1 + 1) with 0 by lia. apply Z.rem_0_l. lia. }
  split; [exact Hc0 |]. rewrite Hr, Hc0. reflexivity.
Qed.

Lemma wf_step i :
  (S i < n)%nat ->
  (column (inf (S i)) <> 0 -> column (inf (S i)) = column (inf i) + 1) /\
  row (inf (S i)) = row (inf i) + (if column (inf (S i)) =? 0 then 1 else 0).
Proof.
  intros Hi. destruct wf as (Hch & _).
  destruct (chain_index C ltac:(lia) _ _ _ Hch ltac:(lia)) as (_ & Hs & _).
  destruct (Hs i (inf i) (inf (S i)) (nth_inf i ltac:(lia)) (nth_inf (S i) Hi))
    as (_ & H2 & H3).
  split; assumption.
Qed.

Lemma row_mono i j : (i <= j)%nat -> (j < n)%nat -> row (inf i) <= row (inf j).
Proof.
  induction 1 as [| j Hle IH]; intros Hj; [lia |].
  destruct (wf_step j Hj) as (_ & Hr). specialize (IH ltac:(lia)).
  rewrite Hr. destruct (column (inf (S j)) =? 0); lia.
Qed.

Lemma rhs_le r1 r2 v1 v2 :
  r1 <= r2 -> at_ rhs r1 = Some v1 -> at_ rhs r2 = Some v2 -> v1 <= v2.
Proof.
  intros Hr H1 H2. destruct wf as (_ & _ & Hm).
  destruct (Z.eq_dec r1 r2) as [-> | Hne]; [rewrite H1 in H2; injection H2; lia |].
  pose proof (at_lt_size _ _ _ H1). pose proof (at_lt_size _ _ _ H2).
  unfold at_ in H1, H2.
  destruct (r1 <? 0); [discriminate |]. destruct (r2 <? 0); [discriminate |].
  exact (Hm (Z.to_nat r1) (Z.to_nat r2) v1 v2 ltac:(lia) H1 H2).
Qed.

Lemma y_mono i j : (i <= j)%nat -> (j < n)%nat -> y (inf i) <= y (inf j).
Proof.
  intros Hij Hj.
  destruct (wf_entry i ltac:(lia)) as (_ & Hi' & _).
  destruct (wf_entry j Hj) as (_ & Hj' & _).
  exact (rhs_le _ _ _ _ (row_mono i j Hij Hj) Hi' Hj').
Qed.

Lemma wrap_size_t_small z : 0 <= z < 2 ^ 64 -> wrap_size_t z = z.
Proof. intros H. unfold wrap_size_t. apply Z.mod_small. exact H. Qed.

(** The inner loop leaves [a] at the start of the next row, which is not
    beyond [b] when at least [C] entries lie between [a] and [b]. *)
Lemma drop_row_spec a b :
  (b < n)%nat -> C <= Z.of_nat (b - a) ->
  forall fuel k num,
  (a <= k < b)%nat -> column (inf k) = Z.of_nat (k - a) ->
  P b - P k <= num < 2 ^ 64 -> (b - k <= fuel)%nat ->
  exists a', drop_row infos fuel k num = Some (a', num - (P a' - P k)) /\
    (k < a' <= b)%nat /\ column (inf a') = 0 /\
    (forall j, (k < j < a')%nat -> column (inf j) <> 0).
Proof.
  intros Hb HC. induction fuel as [| fuel IH]; intros k num Hk Hcol Hnum Hfuel;
    [lia |].
  cbn [drop_row]. rewrite (nth_inf k) by lia. rewrite (nth_inf (S k)) by lia.
  pose proof (P_S k ltac:(lia)) as HPS.
  pose proof (P_diff (S k) b ltac:(lia)) as HPd.
  assert (Hnh : 0 <= not_heading (inf k) <= 1)
    by (unfold not_heading; destruct (heading (inf k)); lia).
  rewrite wrap_size_t_small by lia.
  destruct (Z.eqb_spec (column (inf (S k))) 0) as [E | E].
  - exists (S k). split; [f_equal; f_equal; lia |].
    split; [lia |]. split; [exact E |]. intros j Hj. lia.
  - destruct (wf_step k ltac:(lia)) as (Hc & _). specialize (Hc E).
    destruct (wf_entry (S k) ltac:(lia)) as (_ & _ & _ & Hcr & _).
    assert (HSk : (S k < b)%nat) by lia.
    destruct (IH (S k) (num - not_heading (inf k)) ltac:(lia) ltac:(lia)
                 ltac:(lia) ltac:(lia))
      as (a' & Hd & Ha' & Hc0 & Hnz).
    exists a'. split; [rewrite Hd; f_equal; f_equal; lia |].
    split; [lia |]. split; [exact Hc0 |].
    intros j Hj. destruct (Nat.eq_dec j (S k)) as [-> | Hne]; [exact E |].
    apply Hnz. lia.
Qed.

Local Abbreviation Inv := (window_inv infos).
Local Abbreviation Post := (window_post infos).

Lemma P_mono a b : (a <= b)%nat -> P a <= P b.
Proof. intros H. pose proof (P_diff a b H). lia. Qed.

Lemma max_viewport_loop_spec :
  forall fuel a b num mvh,
  Inv a b num mvh -> (2 * n + 1 <= fuel + a + b)%nat ->
  exists V, max_viewport_loop infos rhs fuel a b num mvh = Some V /\ Post V.
Proof.
  induction fuel as [| fuel IH]; intros a b num mvh HI Hfuel.
  - destruct HI as ((Ha & Hb) & _). lia.
  - destruct HI as ((Hab & Hbn) & Hnum & H52 & Hcol & Hmin & Hold & Hmax).
    cbn [max_viewport_loop].
    destruct (Nat.ltb_spec b n) as [Hb | Hb].
    + destruct (Z.ltb_spec num 52) as [Hlt | Hge].
      * (* extend the window *)
        rewrite (nth_inf b Hb).
        apply IH; [| lia].
        pose proof (P_S b Hb) as HPS.
        assert (Hnh : 0 <= not_heading (inf b) <= 1)
          by (unfold not_heading; destruct (heading (inf b)); lia).
        repeat split; try lia; try assumption.
        intros b' Hb'. destruct (Nat.eq_dec b' b) as [-> | Hne]; [lia |].
        apply Hmin. lia.
      * (* a full window: record its span and drop the first row *)
        assert (Hn52 : num = 52) by lia.
        destruct (Z.eqb_spec num 52) as [_ | Hne]; [| lia].
        pose proof (P_diff a b Hab) as HPd.
        assert (Hb1 : (1 <= b)%nat) by lia.
        rewrite (nth_inf b Hb), (nth_inf a ltac:(lia)).
        replace (at_ infos (Z.of_nat b - 1)) with (Some (inf (b - 1))).
        2:{ unfold at_. destruct (Z.ltb_spec (Z.of_nat b - 1) 0); [lia |].
            replace (Z.to_nat (Z.of_nat b - 1)) with (b - 1)%nat by lia.
            symmetry. apply nth_inf. lia. }
        destruct (wf_entry b Hb) as (_ & Hyb & _).
        destruct (wf_entry (b - 1) ltac:(lia)) as (_ & Hyb1 & _).
        rewrite Hyb, Hyb1.
        destruct (drop_row_spec a b Hb ltac:(lia) n a num ltac:(lia))
          as (a' & Hd & Ha' & Hc0 & Hnz).
        { rewrite Nat.sub_diag. apply Hcol. lia. }
        { lia. }
        { lia. }
        rewrite Hd.
        apply IH; [| lia].
        pose proof (P_mono a a' ltac:(lia)) as HPa.
        repeat split; try lia.
        -- intros b' Hb'. specialize (Hmin b' ltac:(lia)). lia.
        -- intros a0 b0 Ha0 Hc Hb0 HP0.
           destruct (Nat.lt_ge_cases a0 a) as [Hlt0 | Hge0].
           ++ specialize (Hold a0 b0 Hlt0 Hc Hb0 HP0). lia.
           ++ assert (a0 = a).
              { destruct (Nat.eq_dec a0 a) as [E | E]; [exact E |].
                exfalso. apply (Hnz a0); [lia | exact Hc]. }
              subst a0.
              assert (Hbb : (b <= b0)%nat).
              { destruct (Nat.lt_ge_cases b0 b) as [Hl | Hg]; [| exact Hg].
                specialize (Hmin b0 ltac:(lia)). lia. }
              pose proof (y_mono b b0 Hbb ltac:(lia)). lia.
        -- intros Hsmall. exfalso.
           pose proof (P_mono b (n - 1) ltac:(lia)).
           pose proof (P_mono 0 a ltac:(lia)). rewrite P_0 in *. lia.
    + (* the scan is over *)
      eexists. split; [reflexivity |]. split; [| exact Hmax].
      intros a0 b0 Hc Hb0 HP0.
      destruct (Nat.lt_ge_cases a0 a) as [Hlt0 | Hge0].
      * exact (Hold a0 b0 Hlt0 Hc Hb0 HP0).
      * exfalso. specialize (Hmin b0 ltac:(lia)).
        pose proof (P_mono a a0 Hge0). lia.
Qed.

Lemma get_max_viewport_height_post :
  exists V, max_viewport_loop infos rhs (2 * n + 1) 0 0 0 INT_MAX = Some V /\
            Post V.
Proof.
  apply max_viewport_loop_spec; [| lia].
  repeat split; try lia.
  apply wf_first; assumption.
Qed.

(** *** The visible range at a row-aligned scroll position *)

Local Abbreviation bot := (row_bottom infos rhs).

Lemma at_bot i : (i < n)%nat -> at_ rhs (row (inf i) + 1) = Some (bot i).
Proof.
  intros Hi. destruct (wf_entry i Hi) as (H0 & _ & H1 & _).
  unfold at_, bot. destruct (Z.ltb_spec (row (inf i) + 1) 0); [lia |].
  apply nth_error_nth'. unfold size in H1. lia.
Qed.

Lemma skipn_cons {A} (l : list A) k d :
  (k < List.length l)%nat -> skipn k l = nth k l d :: skipn (S k) l.
Proof.
  revert k. induction l as [| h t IH]; intros k Hk; simpl in Hk; [lia |].
  destruct k as [| k]; [reflexivity |].
  simpl. apply IH. lia.
Qed.

Lemma vis_min_loop_spec s :
  forall m k, (k + m = n)%nat ->
  (vis_min_loop rhs s (skipn k infos) (Z.of_nat k) = Some None /\
   forall i, (k <= i < n)%nat -> bot i <= s) \/
  (exists i0, (k <= i0 < n)%nat /\
     vis_min_loop rhs s (skipn k infos) (Z.of_nat k) = Some (Some (Z.of_nat i0)) /\
     s < bot i0 /\ forall i, (k <= i < i0)%nat -> bot i <= s).
Proof.
  induction m as [| m IH]; intros k Hk.
  - left. rewrite skipn_all2 by lia. split; [reflexivity |].
    intros i Hi. lia.
  - rewrite (skipn_cons infos k default_info) by lia. fold (inf k).
    cbn [vis_min_loop]. rewrite (at_bot k) by lia.
    destruct (Z.ltb_spec s (bot k)) as [Hlt | Hge].
    + right. exists k. repeat split; try lia.
    + replace (Z.of_nat k + 1) with (Z.of_nat (S k)) by lia.
      destruct (IH (S k) ltac:(lia)) as [(E & Hall) | (i0 & Hi0 & E & Hs & Hall)].
      * left. split; [exact E |]. intros i Hi.
        destruct (Nat.eq_dec i k) as [-> | Hne]; [exact Hge | apply Hall; lia].
      * right. exists i0. split; [lia |]. split; [exact E |]. split; [exact Hs |].
        intros i Hi.
        destruct (Nat.eq_dec i k) as [-> | Hne]; [exact Hge | apply Hall; lia].
Qed.

Lemma vis_max_loop_spec t :
  forall m k, (k + m = n)%nat ->
  (vis_max_loop rhs t (skipn k infos) (Z.of_nat k) = Some None /\
   forall i, (k <= i < n)%nat -> y (inf i) < t) \/
  (exists i1, (k <= i1 < n)%nat /\
     vis_max_loop rhs t (skipn k infos) (Z.of_nat k) = Some (Some (Z.of_nat i1)) /\
     forall i, (k <= i < i1)%nat -> y (inf i) < t).
Proof.
  induction m as [| m IH]; intros k Hk.
  - left. rewrite skipn_all2 by lia. split; [reflexivity |].
    intros i Hi. lia.
  - rewrite (skipn_cons infos k default_info) by lia. fold (inf k).
    cbn [vis_max_loop].
    destruct (wf_entry k ltac:(lia)) as (_ & Hy & _). rewrite Hy.
    destruct (Z.leb_spec t (y (inf k))) as [Hle | Hgt].
    + right. exists k. repeat split; try lia.
    + replace (Z.of_nat k + 1) with (Z.of_nat (S k)) by lia.
      destruct (IH (S k) ltac:(lia)) as [(E & Hall) | (i1 & Hi1 & E & Hall)].
      * left. split; [exact E |]. intros i Hi.
        destruct (Nat.eq_dec i k) as [-> | Hne]; [exact Hgt | apply Hall; lia].
      * right. exists i1. split; [lia |]. split; [exact E |].
        intros i Hi.
        destruct (Nat.eq_dec i k) as [-> | Hne]; [exact Hgt | apply Hall; lia].
Qed.

Lemma firstn_split {A} (l : list A) :
  forall lo hi, (lo <= hi)%nat ->
  firstn hi l = firstn lo l ++ firstn (hi - lo) (skipn lo l).
Proof.
  induction l as [| h t IH]; intros lo hi Hle.
  - rewrite skipn_nil, !firstn_nil. reflexivity.
  - destruct lo as [| lo].
    + rewrite Nat.sub_0_r. reflexivity.
    + destruct hi as [| hi]; [lia |]. simpl. f_equal. apply IH. lia.
Qed.

Lemma items_in_range_P lo hi :
  (lo <= hi)%nat ->
  items_in_range infos (Z.of_nat lo) (Z.of_nat hi) = P hi - P lo.
Proof.
  intros Hle. unfold items_in_range, P. rewrite !Nat2Z.id.
  rewrite (firstn_split infos lo hi Hle), count_items_app. lia.
Qed.

Hypothesis strict : mono Z.lt rhs.

Lemma y_lt_bot i : (i < n)%nat -> y (inf i) < bot i.
Proof.
  intros Hi. destruct (wf_entry i Hi) as (H0 & Hy & _).
  pose proof (at_bot i Hi) as Hb. unfold at_ in Hy, Hb.
  destruct (row (inf i) <? 0); [discriminate |].
  destruct (row (inf i) + 1 <? 0); [discriminate |].
  apply (strict (Z.to_nat (row (inf i))) (Z.to_nat (row (inf i) + 1)));
    [lia | exact Hy | exact Hb].
Qed.

Lemma bot_le_y i j :
  (i < n)%nat -> (j < n)%nat -> row (inf i) < row (inf j) -> bot i <= y (inf j).
Proof.
  intros Hi Hj Hr. destruct (wf_entry j Hj) as (_ & Hy & _).
  apply (rhs_le (row (inf i) + 1) (row (inf j)));
    [lia | exact (at_bot i Hi) | exact Hy].
Qed.

Lemma visible_range_cap (V : Z) (j0 : nat) :
  Post V -> (j0 < n)%nat ->
  exists lo hi : nat, (lo <= hi <= n)%nat /\
    vis_min_loop rhs (y (inf j0)) infos 0 = Some (Some (Z.of_nat lo)) /\
    (vis_max_loop rhs (y (inf j0) + V) (skipn lo infos) (Z.of_nat lo)
       = Some (Some (Z.of_nat hi)) \/
     vis_max_loop rhs (y (inf j0) + V) (skipn lo infos) (Z.of_nat lo)
       = Some None /\ hi = n) /\
    P hi - P lo <= 52.
Proof.
  intros [HPost _] Hj0. set (s := y (inf j0)).
  destruct (vis_min_loop_spec s n 0%nat ltac:(lia))
    as [(_ & Hall) | (i0 & Hi0 & Emin & Hs & Hbefore)].
  { pose proof (Hall j0 ltac:(lia)). pose proof (y_lt_bot j0 Hj0). lia. }
  simpl in Emin.
  assert (Hij : (i0 <= j0)%nat).
  { destruct (Nat.lt_ge_cases j0 i0) as [Hl | Hg]; [| exact Hg].
    pose proof (Hbefore j0 ltac:(lia)). pose proof (y_lt_bot j0 Hj0). lia. }
  assert (Hy0 : y (inf i0) = s).
  { pose proof (row_mono i0 j0 Hij Hj0) as Hr.
    destruct (Z.eq_dec (row (inf i0)) (row (inf j0))) as [E | E].
    - destruct (wf_entry i0 ltac:(lia)) as (_ & Hy1 & _).
      destruct (wf_entry j0 Hj0) as (_ & Hy2 & _).
      rewrite E, Hy2 in Hy1. injection Hy1 as <-. reflexivity.
    - pose proof (bot_le_y i0 j0 ltac:(lia) Hj0 ltac:(lia)). unfold s in Hs. lia. }
  assert (Hc0 : column (inf i0) = 0).
  { destruct i0 as [| i']; [apply wf_first; lia |].
    destruct (wf_step i' ltac:(lia)) as (_ & Hr).
    destruct (Z.eqb_spec (column (inf (S i'))) 0) as [E | E]; [exact E |].
    exfalso. pose proof (Hbefore i' ltac:(lia)) as Hb.
    replace (bot i') with (bot (S i')) in Hb; [lia |].
    unfold row_bottom. rewrite Hr. f_equal. f_equal. lia. }
  assert (Hmax : exists hi, (i0 <= hi <= n)%nat /\
            (vis_max_loop rhs (s + V) (skipn i0 infos) (Z.of_nat i0)
               = Some (Some (Z.of_nat hi)) \/
             vis_max_loop rhs (s + V) (skipn i0 infos) (Z.of_nat i0)
               = Some None /\ hi = n) /\
            forall i, (i0 <= i < hi)%nat -> y (inf i) < s + V).
  { destruct (vis_max_loop_spec (s + V) (n - i0) i0 ltac:(lia))
      as [(E & Hall) | (i1 & Hi1 & E & Hall)].
    - exists n. split; [lia |]. split; [right; split; [exact E | reflexivity] |].
      exact Hall.
    - exists i1. split; [lia |]. split; [left; exact E | exact Hall]. }
  destruct Hmax as (hi & Hhi & Emax & Hin).
  exists i0, hi. split; [lia |]. split; [exact Emin |]. split; [exact Emax |].
  destruct (Z.le_gt_cases (P hi - P i0) 52) as [Hle | Hgt]; [exact Hle |].
  exfalso.
  destruct (P_reaches i0 hi 52 ltac:(lia) ltac:(lia)) as (b' & Hb' & HP).
  assert (Hb'' : (b' < hi)%nat).
  { destruct (Nat.eq_dec b' hi) as [-> | Hne]; lia. }
  pose proof (HPost i0 b' Hc0 ltac:(lia) HP).
  pose proof (Hin b' ltac:(lia)). lia.
Qed.

(** *** Entries that lie entirely inside the viewport *)

Lemma row_start i :
  (i < n)%nat ->
  exists a0, (a0 <= i)%nat /\ column (inf a0) = 0 /\ y (inf a0) = y (inf i).
Proof.
  induction i as [| i IH]; intros Hi.
  - exists 0%nat. split; [lia |]. split; [apply wf_first; lia | reflexivity].
  - destruct (Z.eqb_spec (column (inf (S i))) 0) as [E | E].
    + exists (S i). split; [lia |]. split; [exact E | reflexivity].
    + destruct (IH ltac:(lia)) as (a0 & Ha & Hc & Hy).
      exists a0. split; [lia |]. split; [exact Hc |].
      destruct (wf_step i Hi) as (_ & Hr).
      destruct (Z.eqb_spec (column (inf (S i))) 0); [contradiction |].
      destruct (wf_entry i ltac:(lia)) as (_ & Hy1 & _).
      destruct (wf_entry (S i) Hi) as (_ & Hy2 & _).
      rewrite Hr, Z.add_0_r, Hy1 in Hy2. injection Hy2 as <-. exact Hy.
Qed.

Lemma strict_page_cap (V s : Z) (i j : nat) :
  Post V -> (i <= j < n)%nat ->
  s <= y (inf i) -> bot j <= s + V ->
  P (S j) - P i <= 52.
Proof.
  intros [HPost _] Hij Hi Hj.
  destruct (Z.le_gt_cases (P (S j) - P i) 52) as [Hle | Hgt]; [exact Hle |].
  exfalso.
  destruct (row_start i ltac:(lia)) as (a0 & Ha0 & Hc0 & Hy0).
  pose proof (P_mono a0 i Ha0) as HPa.
  destruct (P_reaches a0 (S j) 52 ltac:(lia) ltac:(lia)) as (b' & Hb' & HP).
  assert (Hb'' : (b' <= j)%nat).
  { destruct (Nat.eq_dec b' (S j)) as [-> | Hne]; lia. }
  pose proof (HPost a0 b' Hc0 ltac:(lia) HP) as HV.
  pose proof (y_mono b' j Hb'' ltac:(lia)) as Hyb.
  pose proof (y_lt_bot j ltac:(lia)) as Hlt.
  lia.
Qed.

Lemma get_item_region_wf (m : Menu) (i : nat) :
  item_info (m_ui_menu m) = infos -> row_heights (m_ui_menu m) = rhs ->
  List.length (items m) = n -> (i < n)%nat ->
  get_item_region m (Z.of_nat i) = Some (y (inf i), bot i).
Proof.
  intros Hinfo Hrhs Hlen Hi. unfold get_item_region.
  rewrite Hinfo, Hrhs. unfold size at 1. rewrite Hlen.
  destruct (Z.ltb_spec (Z.of_nat i) 0); [lia |].
  destruct (Z.leb_spec (Z.of_nat n) (Z.of_nat i)); [lia |]. simpl.
  unfold at_ at 1. destruct (Z.ltb_spec (Z.of_nat i) 0); [lia |].
  rewrite Nat2Z.id, (nth_inf i Hi).
  destruct (wf_entry i Hi) as (Hr0 & Hy & Hb & _).
  destruct (Z.ltb_spec (row (inf i) + 1) 0); [lia |].
  destruct (Z.leb_spec (size rhs) (row (inf i) + 1)); [lia |]. simpl.
  rewrite Hy, (at_bot i Hi). reflexivity.
Qed.

End MaxViewport.

Section MaxViewportExact.

Variable C : Z.
Variable infos : list MenuItemInfo.
Variable rhs : list Z.
Hypothesis C_range : 0 < C <= 52.
Hypothesis wf : layout_wf C infos rhs.

(** The result is [INT_MAX] or the span of one of the windows. *)
Lemma max_viewport_loop_attained :
  forall fuel a b num mvh V,
  window_inv infos a b num mvh -> window_attained infos mvh ->
  max_viewport_loop infos rhs fuel a b num mvh = Some V ->
  window_attained infos V.
Proof.
  induction fuel as [| fuel IH]; intros a b num mvh V HI Hatt Hloop;
    [discriminate |].
  destruct HI as ((Hab & Hbn) & Hnum & H52 & Hcol & Hmin & Hold & Hmax).
  cbn [max_viewport_loop] in Hloop.
  destruct (Nat.ltb_spec b (List.length infos)) as [Hb | Hb].
  - destruct (Z.ltb_spec num 52) as [Hlt | Hge].
    + rewrite (nth_inf infos b Hb) in Hloop.
      refine (IH _ _ _ _ _ _ Hatt Hloop).
      pose proof (P_S infos b Hb) as HPS.
      assert (Hnh : 0 <= not_heading (entry_at infos b) <= 1)
        by (unfold not_heading; destruct (heading (entry_at infos b)); lia).
      repeat split; try lia; try assumption.
      intros b' Hb'. destruct (Nat.eq_dec b' b) as [-> | Hne]; [lia |].
      apply Hmin. lia.
    + assert (Hn52 : num = 52) by lia.
      destruct (Z.eqb_spec num 52) as [_ | Hne]; [| lia].
      pose proof (P_diff infos a b Hab) as HPd.
      assert (Hb1 : (1 <= b)%nat) by lia.
      rewrite (nth_inf infos b Hb), (nth_inf infos a ltac:(lia)) in Hloop.
      replace (at_ infos (Z.of_nat b - 1))
        with (Some (entry_at infos (b - 1))) in Hloop.
      2:{ unfold at_. destruct (Z.ltb_spec (Z.of_nat b - 1) 0); [lia |].
          replace (Z.to_nat (Z.of_nat b - 1)) with (b - 1)%nat by lia.
          symmetry. apply nth_inf. lia. }
      destruct (wf_entry C infos rhs C_range wf b Hb) as (_ & Hyb & _).
      destruct (wf_entry C infos rhs C_range wf (b - 1) ltac:(lia))
        as (_ & Hyb1 & _).
      rewrite Hyb, Hyb1 in Hloop.
      destruct (drop_row_spec C infos rhs C_range wf a b Hb ltac:(lia)
                  (List.length infos) a num ltac:(lia))
        as (a' & Hd & Ha' & Hc0 & Hnz).
      { rewrite Nat.sub_diag. apply Hcol. lia. }
      { lia. }
      { lia. }
      rewrite Hd in Hloop.
      refine (IH _ _ _ _ _ _ _ Hloop).
      * pose proof (P_mono infos a a' ltac:(lia)) as HPa.
        repeat split; try lia.
        -- intros b' Hb'. specialize (Hmin b' ltac:(lia)). lia.
        -- intros a0 b0 Ha0 Hc Hb0 HP0.
           destruct (Nat.lt_ge_cases a0 a) as [Hlt0 | Hge0].
           ++ specialize (Hold a0 b0 Hlt0 Hc Hb0 HP0). lia.
           ++ assert (a0 = a).
              { destruct (Nat.eq_dec a0 a) as [E | E]; [exact E |].
                exfalso. apply (Hnz a0); [lia | exact Hc]. }
              subst a0.
              assert (Hbb : (b <= b0)%nat).
              { destruct (Nat.lt_ge_cases b0 b) as [Hl | Hg]; [| exact Hg].
                specialize (Hmin b0 ltac:(lia)). lia. }
              pose proof (y_mono C infos rhs C_range wf b b0 Hbb ltac:(lia)). lia.
        -- intros Hsmall. exfalso.
           pose proof (P_mono infos b (List.length infos - 1) ltac:(lia)).
           pose proof (P_mono infos 0 a ltac:(lia)).
           rewrite (P_0 infos) in *. lia.
      * destruct Hatt as (Hle & Hatt). split; [lia |].
        destruct (Z.min_spec mvh
                    (y (entry_at infos b) - y (entry_at infos (b - 1))
                     + y (entry_at infos (b - 1)) - y (entry_at infos a)))
          as [(_ & ->) | (_ & ->)]; [exact Hatt |].
        right. exists a, b. split; [apply Hcol; lia |].
        split; [lia |]. split; [lia | lia].
  - injection Hloop as <-. exact Hatt.
Qed.

End MaxViewportExact.

(** C3 (as stated) fails.  With 53 one-line entries of 20 pixels in one
    column the function returns 1040 (52 rows); at scroll offset 1 the
    visible range computed by [is_visible_item_range] for that viewport
    height holds all 53 entries.  With 52 entries followed by a heading no
    window ever holds more than 52 entries, and the result is 1040, not
    [INT_MAX]. *)
Lemma max_viewport_height_not_a_cap :
  (exists u,
     do_layout example_env 53 false 800 1
       (example_ui (repeat (example_info " a - x" false) 53)) = Some u /\
     get_max_viewport_height u = Some 1040 /\
     is_visible_item_range 53 (mkScroller 1 1040) u = Some (0, 53) /\
     items_in_range (item_info u) 0 53 = 53) /\
  (exists u,
     do_layout example_env 53 false 800 1
       (example_ui (repeat (example_info " a - x" false) 52
                    ++ [example_info "End" true])) = Some u /\
     count_items (item_info u) = 52 /\
     get_max_viewport_height u = Some 1040 /\ 1040 <> INT_MAX).
Proof.
  split.
  - eexists. split; [vm_compute; reflexivity |].
    repeat split; vm_compute; reflexivity.
  - eexists. split; [vm_compute; reflexivity |].
    repeat split; try (vm_compute; reflexivity). discriminate.
Qed.

(** C3 (amended): on the layout computed by [do_layout] for 1 to 52
    columns and a font of positive character height,
    [get_max_viewport_height] returns the height [V] that is the least of
    [INT_MAX] and the pixel spans of the windows of the layout: a window
    starts at an entry [a] in column 0 and ends before an entry [b] with
    exactly 52 non-heading entries from [a] up to [b], and its span is the
    distance from the row of [a] to the row of [b].  [V] is one of these
    values and below all of them.  Hence, at every scroll offset that is the
    upper boundary of an entry's row, the visible range of a viewport of
    height [V] holds at most 52 non-heading entries; at every scroll offset
    whatsoever, two entries that lie entirely inside such a viewport
    ([in_page], strict) have at most 52 non-heading entries from the first
    to the second; and [V] is [INT_MAX] when fewer than 52 non-heading
    entries precede the last entry. *)
Theorem max_viewport_height_cap (env : Env) (n : nat) (no_wrap_rows : bool)
    (mw C : Z) (u : UIMenu) :
  0 < C <= 52 -> 0 < char_height env -> n = List.length (item_info u) ->
  exists u' V,
    do_layout env n no_wrap_rows mw C u = Some u' /\
    get_max_viewport_height u' = Some V /\
    V <= INT_MAX /\
    (V = INT_MAX \/
     exists a b ea eb,
       nth_error (item_info u') a = Some ea /\
       nth_error (item_info u') b = Some eb /\
       column ea = 0 /\ (a <= b)%nat /\
       items_in_range (item_info u') (Z.of_nat a) (Z.of_nat b) = 52 /\
       V = y eb - y ea) /\
    (forall a b ea eb,
       nth_error (item_info u') a = Some ea ->
       nth_error (item_info u') b = Some eb ->
       column ea = 0 -> (a <= b)%nat ->
       items_in_range (item_info u') (Z.of_nat a) (Z.of_nat b) = 52 ->
       V <= y eb - y ea) /\
    (count_items (removelast (item_info u')) < 52 -> V = INT_MAX) /\
    (forall j e, nth_error (item_info u') j = Some e ->
      exists lo hi,
        is_visible_item_range (Z.of_nat n) (mkScroller (y e) V) u'
          = Some (lo, hi) /\
        items_in_range (item_info u') lo hi <= 52) /\
    (forall (m : Menu) (scroll : Z) (i j : nat),
      m_ui_menu m = u' -> List.length (items m) = n ->
      m_ui_scroller m = mkScroller scroll V -> (i <= j < n)%nat ->
      in_page m (Z.of_nat i) true = Some true ->
      in_page m (Z.of_nat j) true = Some true ->
      items_in_range (item_info u') (Z.of_nat i) (Z.of_nat (S j)) <= 52).
Proof.
  intros HC Hth Hn.
  destruct (do_layout_wf env C ltac:(lia) ltac:(lia) n no_wrap_rows mw u ltac:(lia))
    as (u' & Hdo & Hwf & _ & Hstrict & Hmh & _).
  specialize (Hstrict Hth).
  assert (Hlen : List.length (item_info u') = n).
  { rewrite <- (length_map heading), Hmh, length_map. lia. }
  rewrite <- Hlen in Hwf at 1. rewrite firstn_all in Hwf.
  destruct (get_max_viewport_height_post C (item_info u') (row_heights u') HC Hwf)
    as (V & HV & HPost).
  assert (Hatt : window_attained (item_info u') V).
  { apply (max_viewport_loop_attained C (item_info u') (row_heights u') HC Hwf
             _ _ _ _ _ V) with (3 := HV).
    - repeat split; try lia.
      apply (wf_first C (item_info u') (row_heights u') HC Hwf); assumption.
    - split; [lia | left; reflexivity]. }
  exists u', V. split; [exact Hdo |]. split; [exact HV |].
  split; [exact (proj1 Hatt) |].
  split; [| split; [| split; [| split]]].
  - destruct Hatt as (_ & [E | (a & b & Hc & Hab & HP & E)]); [left; exact E |].
    right. exists a, b, (entry_at (item_info u') a), (entry_at (item_info u') b).
    split; [apply nth_inf; lia |]. split; [apply nth_inf; lia |].
    split; [exact Hc |]. split; [lia |].
    split; [| exact E].
    rewrite (items_in_range_P (item_info u') a b) by lia. exact HP.
  - intros a b ea eb Ha Hb Hc Hab HP.
    assert (Hbn : (b < List.length (item_info u'))%nat)
      by (apply nth_error_Some; congruence).
    assert (Ea : ea = entry_at (item_info u') a)
      by (symmetry; apply nth_error_nth with (1 := Ha)).
    assert (Eb : eb = entry_at (item_info u') b)
      by (symmetry; apply nth_error_nth with (1 := Hb)).
    rewrite (items_in_range_P (item_info u') a b) in HP by lia.
    subst ea eb. apply (proj1 HPost a b Hc); [lia | exact HP].
  - intros Hcnt. apply (proj2 HPost).
    rewrite removelast_firstn_len in Hcnt.
    replace (List.length (item_info u') - 1)%nat
      with (pred (List.length (item_info u'))) by lia.
    exact Hcnt.
  - intros j e He.
    assert (Hj : (j < List.length (item_info u'))%nat)
      by (apply nth_error_Some; congruence).
    assert (Ee : e = entry_at (item_info u') j)
      by (symmetry; apply nth_error_nth with (1 := He)).
    destruct (visible_range_cap C (item_info u') (row_heights u') HC Hwf Hstrict
                V j HPost Hj) as (lo & hi & Hlh & Emin & Emax & Hcap).
    rewrite <- Ee in Emin, Emax.
    unfold is_visible_item_range. simpl m_scroll. simpl region_height.
    rewrite Emin, Nat2Z.id.
    exists (Z.of_nat lo), (Z.of_nat hi).
    split.
    + destruct Emax as [E | [E ->]]; rewrite E; f_equal; f_equal;
        unfold size; lia.
    + rewrite (items_in_range_P (item_info u') lo hi) by lia. exact Hcap.
  - intros m scroll i j Hu Hitems Hsc Hij Hi Hj.
    rewrite (items_in_range_P (item_info u') i (S j)) by lia.
    assert (Hreg : forall k, (k < List.length (item_info u'))%nat ->
              get_item_region m (Z.of_nat k)
              = Some (y (entry_at (item_info u') k),
                      row_bottom (item_info u') (row_heights u') k)).
    { intros k Hk.
      apply (get_item_region_wf C (item_info u') (row_heights u') HC Hwf m k);
        [rewrite Hu; reflexivity | rewrite Hu; reflexivity | lia | exact Hk]. }
    unfold in_page, viewport_height, get_scroll in Hi, Hj.
    rewrite Hreg, Hsc in Hi by lia. rewrite Hreg, Hsc in Hj by lia.
    simpl in Hi, Hj. injection Hi as Hi. injection Hj as Hj.
    apply andb_true_iff in Hi, Hj.
    destruct Hi as [_ Hi]. destruct Hj as [Hj _].
    apply andb_true_iff in Hi, Hj.
    destruct Hi as [Hi _]. destruct Hj as [_ Hj].
    apply Z.leb_le in Hi, Hj.
    apply (strict_page_cap C (item_info u') (row_heights u') HC Hwf Hstrict
             V scroll i j HPost ltac:(lia) Hi Hj).
Qed.

Lemma max_viewport_height_cap_witness :
  (exists u',
     do_layout example_env 53 false 800 1
       (example_ui (repeat (example_info " a - x" false) 53)) = Some u' /\
     get_max_viewport_height u' = Some 1040) /\
  (exists u',
     do_layout example_env 3 false 800 2
       (example_ui [example_info "Fruits" true; example_info " a - apple" false;
                    example_info " p - pear" false]) = Some u' /\
     get_max_viewport_height u' = Some INT_MAX).
Proof.
  split.
  - destruct (max_viewport_height_cap example_env 53 false 800 1
                (example_ui (repeat (example_info " a - x" false) 53)))
      as (u' & V & Hdo & HV & _ & _ & Hlow & _).
    + lia.
    + simpl. lia.
    + reflexivity.
    + exists u'. split; [exact Hdo |]. rewrite HV. f_equal.
      vm_compute in Hdo. injection Hdo as <-.
      vm_compute in HV. injection HV as <-. reflexivity.
  - destruct (max_viewport_height_cap example_env 3 false 800 2
                (example_ui [example_info "Fruits" true;
                             example_info " a - apple" false;
                             example_info " p - pear" false]))
      as (u' & V & Hdo & HV & _ & _ & _ & Hmax & _).
    + lia.
    + simpl. lia.
    + reflexivity.
    + exists u'. split; [exact Hdo |]. rewrite HV. f_equal.
      apply Hmax. vm_compute in Hdo. injection Hdo as <-. vm_compute. reflexivity.
Defined.



(** ** Regions and header blocks *)

Section RegionFacts.

Variable env : Env.

Lemma at_in_range {A} (l : list A) i :
  0 <= i < size l -> exists v, at_ l i = Some v.
Proof. apply at_Some. Qed.

Lemma at_Forall {A} (Q : A -> Prop) (l : list A) i v :
  Forall Q l -> at_ l i = Some v -> Q v.
Proof.
  intros HF H. unfold at_ in H. destruct (i <? 0); [discriminate |].
  rewrite Forall_forall in HF. apply HF. eapply nth_error_In. exact H.
Qed.

Lemma get_item_region_ok m i :
  ui_ready m -> 0 <= i < size (items m) ->
  exists r, get_item_region m i = Some r.
Proof.
  intros [Hlen Hrows] Hi. unfold get_item_region.
  destruct (Z.ltb_spec i 0); [lia |].
  destruct (Z.leb_spec (size (items m)) i); [lia |]. simpl.
  destruct (at_in_range (item_info (m_ui_menu m)) i) as [info Hinfo].
  { unfold size in *. lia. }
  rewrite Hinfo.
  pose proof (at_Forall _ _ _ _ Hrows Hinfo) as Hrow. simpl in Hrow.
  destruct ((row info + 1 <? 0) || (size (row_heights (m_ui_menu m)) <=? row info + 1))
    eqn:E; [eauto |].
  apply orb_false_iff in E. destruct E as [E1 E2].
  apply Z.ltb_ge in E1. apply Z.leb_gt in E2.
  destruct (at_in_range (row_heights (m_ui_menu m)) (row info)) as [y1 H1]; [lia |].
  destruct (at_in_range (row_heights (m_ui_menu m)) (row info + 1)) as [y2 H2]; [lia |].
  rewrite H1, H2. eauto.
Qed.

Lemma header_block_first_ok m fuel :
  forall first, 0 <= first <= size (items m) ->
  exists f, header_block_first m fuel first = Some f /\ 0 <= f <= first.
Proof.
  induction fuel as [| fuel IH]; intros first Hf; simpl.
  - exists first. split; [reflexivity | lia].
  - destruct (Z.leb_spec 1 first) as [H1 | H1].
    + destruct (at_in_range (items m) (first - 1)) as [e He]; [lia |].
      rewrite He. destruct (negb (level_eqb (level e) MEL_ITEM)).
      * destruct (IH (first - 1)) as (f & Hfi & Hr); [lia |].
        exists f. split; [exact Hfi | lia].
      * exists first. split; [reflexivity | lia].
    + exists first. split; [reflexivity | lia].
Qed.

Lemma header_block_last_ok m fuel :
  forall last, 0 <= last -> exists l, header_block_last m fuel last = Some l.
Proof.
  induction fuel as [| fuel IH]; intros last Hl; simpl; [eauto |].
  destruct (Z.ltb_spec (last + 1) (size (items m))) as [H1 | H1]; [| eauto].
  destruct (at_in_range (items m) last) as [e He]; [lia |].
  rewrite He. destruct (negb (level_eqb (level e) MEL_ITEM)); [| eauto].
  apply IH. lia.
Qed.

Lemma region_with_headers_ok m i :
  ui_ready m -> 0 <= i < size (items m) ->
  exists r, region_with_headers m i = Some r.
Proof.
  intros Hr Hi. unfold region_with_headers, get_header_block.
  destruct (get_item_region_ok m i Hr Hi) as [[y1 y2] E]. rewrite E.
  destruct (header_block_first_ok m (Z.to_nat i) i ltac:(lia)) as (f & Ef & Hf).
  rewrite Ef.
  destruct (header_block_last_ok m (Z.to_nat (size (items m) - i)) i ltac:(lia))
    as (l & El).
  rewrite El. destruct (negb (f =? i)); [| eauto].
  destruct (get_item_region_ok m f Hr ltac:(lia)) as [[y1' y2'] E']. rewrite E'.
  eauto.
Qed.

(** The region of an entry depends only on the entries and the layout. *)
Lemma get_item_region_ext m1 m2 i :
  items m1 = items m2 ->
  item_info (m_ui_menu m1) = item_info (m_ui_menu m2) ->
  row_heights (m_ui_menu m1) = row_heights (m_ui_menu m2) ->
  get_item_region m1 i = get_item_region m2 i.
Proof.
  intros H1 H2 H3. unfold get_item_region. rewrite H1, H2, H3. reflexivity.
Qed.

Lemma header_block_first_ext m1 m2 fuel :
  items m1 = items m2 ->
  forall f, header_block_first m1 fuel f = header_block_first m2 fuel f.
Proof.
  intros H. induction fuel as [| fuel IH]; intros f; simpl; [reflexivity |].
  rewrite H. destruct (1 <=? f); [| reflexivity].
  destruct (at_ (items m2) (f - 1)) as [e |]; [| reflexivity].
  destruct (negb (level_eqb (level e) MEL_ITEM)); [apply IH | reflexivity].
Qed.

Lemma header_block_last_ext m1 m2 fuel :
  items m1 = items m2 ->
  forall l, header_block_last m1 fuel l = header_block_last m2 fuel l.
Proof.
  intros H. induction fuel as [| fuel IH]; intros l; simpl; [reflexivity |].
  rewrite H. destruct (l + 1 <? size (items m2)); [| reflexivity].
  destruct (at_ (items m2) l) as [e |]; [| reflexivity].
  destruct (negb (level_eqb (level e) MEL_ITEM)); [apply IH | reflexivity].
Qed.

Lemma region_with_headers_ext m1 m2 i :
  items m1 = items m2 ->
  item_info (m_ui_menu m1) = item_info (m_ui_menu m2) ->
  row_heights (m_ui_menu m1) = row_heights (m_ui_menu m2) ->
  region_with_headers m1 i = region_with_headers m2 i.
Proof.
  intros H1 H2 H3. unfold region_with_headers, get_header_block.
  rewrite (get_item_region_ext m1 m2 i H1 H2 H3).
  rewrite (header_block_first_ext m1 m2 _ H1), (header_block_last_ext m1 m2 _ H1).
  rewrite H1.
  destruct (get_item_region m2 i) as [[y1 y2] |]; [| reflexivity].
  destruct (header_block_first m2 (Z.to_nat i) i) as [f |]; [| reflexivity].
  destruct (header_block_last m2 (Z.to_nat (size (items m2) - i)) i);
    [| reflexivity].
  destruct (negb (f =? i)); [| reflexivity].
  rewrite (get_item_region_ext m1 m2 f H1 H2 H3). reflexivity.
Qed.

(** The scroller is the only part of the menu that a snap can change. *)
Lemma region_with_headers_scroll m i s :
  region_with_headers (scroller_set_scroll m s) i = region_with_headers m i.
Proof. apply region_with_headers_ext; reflexivity. Qed.

Lemma wrap_int_small z : INT_MIN <= z <= INT_MAX -> wrap_int z = z.
Proof.
  unfold INT_MIN, INT_MAX, wrap_int. intros H.
  rewrite Z.mod_small by lia. lia.
Qed.

Lemma wrap_int_over z :
  INT_MAX < z <= INT_MAX + 2 ^ 32 -> wrap_int z = z - 2 ^ 32.
Proof.
  unfold INT_MAX, wrap_int. intros H.
  replace (z + 2 ^ 31) with (z - 2 ^ 32 + 2 ^ 31 + 1 * 2 ^ 32) by lia.
  rewrite Z.mod_add by lia. rewrite Z.mod_small by lia. lia.
Qed.

Lemma snap_in_page_effect m i b m' :
  snap_in_page env m i = Some (b, m') ->
  exists s, m' = scroller_set_scroll m s /\ (b = false -> m' = m).
Proof.
  unfold snap_in_page. intros H.
  assert (Hid : m = scroller_set_scroll m (get_scroll m))
    by (destruct m as [? ? ? ? ? ? ? ? ? ? ? ? [? ?]]; reflexivity).
  destruct (viewport_height m =? 0).
  { injection H as <- <-. exists (get_scroll m). split; [exact Hid | reflexivity]. }
  destruct ((i <? 0) || (size (items m) <=? i)).
  { injection H as <- <-. exists (get_scroll m). split; [exact Hid | reflexivity]. }
  destruct (region_with_headers m i) as [[y1 y2] |]; [| discriminate].
  destruct (wrap_int (get_scroll m + viewport_height m) <=? y2).
  { injection H as <- <-. eexists. split; [reflexivity | discriminate]. }
  destruct (y1 <? get_scroll m).
  { injection H as <- <-. eexists. split; [reflexivity | discriminate]. }
  injection H as <- <-. exists (get_scroll m). split; [exact Hid | reflexivity].
Qed.

Lemma snap_in_page_ok m i :
  ui_ready m -> exists b m', snap_in_page env m i = Some (b, m').
Proof.
  intros Hr. unfold snap_in_page.
  destruct (viewport_height m =? 0); [eauto |].
  destruct ((i <? 0) || (size (items m) <=? i)) eqn:E; [eauto |].
  apply orb_false_iff in E. destruct E as [E1 E2].
  apply Z.ltb_ge in E1. apply Z.leb_gt in E2.
  destruct (region_with_headers_ok m i Hr ltac:(lia)) as [[y1 y2] E]. rewrite E.
  destruct (wrap_int (get_scroll m + viewport_height m) <=? y2); [eauto |].
  destruct (y1 <? get_scroll m); eauto.
Qed.

End RegionFacts.

(** ** Snapping *)

(** C5 (as stated) fails: an item preceded by two text lines forms a region
    of 60 pixels; in a viewport of 50 pixels the first snap scrolls to 16
    (the end of the region), and the second snap scrolls again, to -6 (its
    start), and reports a change. *)
Lemma snap_in_page_twice_scrolls :
  let m := example_menu MF_MULTISELECT example_text_then_item
             (example_laid_out example_text_then_item 1) 0 50 in
  exists m1 m2,
    snap_in_page example_env m 2 = Some (true, m1) /\ get_scroll m1 = 16 /\
    snap_in_page example_env m1 2 = Some (true, m2) /\ get_scroll m2 = -6.
Proof.
  cbv zeta. eexists. eexists.
  split; [vm_compute; reflexivity |].
  split; [reflexivity |].
  split; [vm_compute; reflexivity |]. reflexivity.
Qed.

(** C5 (amended): a second [snap_in_page] right after the first leaves
    the menu as it is and returns [false] in each of these cases: the
    viewport height is zero, or the index is out of range (the first call
    already does nothing); or the scroller shade offset
    ([UI_SCROLLER_SHADE_SIZE / 2]) is positive and the region of the entry
    (its row together with the header block right before it) starts at or
    below 0, ends within [INT_MAX] minus the viewport height, and is
    shorter than the viewport height minus the shade offset.  The last case
    holds at every scroll offset, also where the [int] sum of the first call
    overflows. *)
Theorem snap_in_page_idempotent (env : Env) (m : Menu) (index : Z) :
  ui_ready m ->
  viewport_height m = 0 \/ index < 0 \/ size (items m) <= index \/
  (0 < Z.quot (UI_SCROLLER_SHADE_SIZE env) 2 /\
   forall y1 y2, region_with_headers m index = Some (y1, y2) ->
     0 <= y1 <= y2 /\ y2 + viewport_height m <= INT_MAX /\
     y2 - y1 < viewport_height m - Z.quot (UI_SCROLLER_SHADE_SIZE env) 2) ->
  exists b1 m1,
    snap_in_page env m index = Some (b1, m1) /\
    snap_in_page env m1 index = Some (false, m1) /\
    (viewport_height m = 0 \/ index < 0 \/ size (items m) <= index ->
     b1 = false /\ m1 = m).
Proof.
  intros Hr Hcases. unfold snap_in_page at 1.
  destruct (viewport_height m =? 0) eqn:Evph.
  { exists false, m. split; [reflexivity |]. split; [| intros _; split; reflexivity].
    unfold snap_in_page. rewrite Evph. reflexivity. }
  destruct ((index <? 0) || (size (items m) <=? index)) eqn:Eidx.
  { exists false, m. split; [reflexivity |]. split; [| intros _; split; reflexivity].
    unfold snap_in_page. rewrite Evph, Eidx. reflexivity. }
  pose proof Evph as Evphn. apply Z.eqb_neq in Evphn.
  pose proof Eidx as Eidx'.
  apply orb_false_iff in Eidx'. destruct Eidx' as [E1 E2].
  apply Z.ltb_ge in E1. apply Z.leb_gt in E2.
  assert (Hno : ~ (viewport_height m = 0 \/ index < 0 \/ size (items m) <= index))
    by lia.
  destruct Hcases as [H | [H | [H | (Hshade & Hfit)]]]; try lia.
  destruct (region_with_headers_ok m index Hr ltac:(lia)) as [[y1 y2] Ereg].
  rewrite Ereg.
  destruct (Hfit y1 y2 Ereg) as (Hy & Hmax & Hshort).
  set (d := Z.quot (UI_SCROLLER_SHADE_SIZE env) 2) in *.
  assert (Hsecond : forall s,
            (wrap_int (s + viewport_height m) <=? y2) = false -> s <= y1 ->
            snap_in_page env (scroller_set_scroll m s) index
              = Some (false, scroller_set_scroll m s)).
  { intros s H1 H2. unfold snap_in_page.
    change (viewport_height (scroller_set_scroll m s)) with (viewport_height m).
    change (items (scroller_set_scroll m s)) with (items m).
    rewrite Evph, Eidx, region_with_headers_scroll, Ereg.
    change (get_scroll (scroller_set_scroll m s)) with s.
    rewrite H1. destruct (Z.ltb_spec y1 s); [lia |]. reflexivity. }
  assert (Hsmall : forall s, y2 - viewport_height m < s <= y1 ->
            (wrap_int (s + viewport_height m) <=? y2) = false).
  { intros s Hs. rewrite wrap_int_small by (unfold INT_MIN; lia).
    apply Z.leb_gt. lia. }
  destruct (wrap_int (get_scroll m + viewport_height m) <=? y2) eqn:Hlow.
  { eexists. eexists. split; [reflexivity |]. split; [| intros H; contradiction].
    apply Hsecond; [apply Hsmall |]; lia. }
  destruct (Z.ltb_spec y1 (get_scroll m)) as [Hup | Hup].
  { eexists. eexists. split; [reflexivity |]. split; [| intros H; contradiction].
    apply Hsecond; [apply Hsmall |]; lia. }
  exists false, m. split; [reflexivity |]. split; [| intros H; contradiction].
  unfold snap_in_page. rewrite Evph, Eidx, Ereg, Hlow.
  destruct (Z.ltb_spec y1 (get_scroll m)); [lia |]. reflexivity.
Qed.

Lemma snap_in_page_idempotent_witness :
  (exists m1,
     snap_in_page example_env
       (example_menu MF_MULTISELECT example_text_then_item
          (example_laid_out example_text_then_item 1) INT_MAX 100) 2
     = Some (true, m1) /\ get_scroll m1 = -34 /\
     snap_in_page example_env m1 2 = Some (false, m1)) /\
  snap_in_page example_env
    (example_menu MF_MULTISELECT example_text_then_item
       (example_laid_out example_text_then_item 1) 30 0) 2
  = Some (false,
          example_menu MF_MULTISELECT example_text_then_item
            (example_laid_out example_text_then_item 1) 30 0).
Proof.
  split.
  - destruct (snap_in_page_idempotent example_env
                (example_menu MF_MULTISELECT example_text_then_item
                   (example_laid_out example_text_then_item 1) INT_MAX 100) 2)
      as (b1 & m1 & E1 & E2 & _).
    + split; [reflexivity |]. vm_compute. repeat constructor; discriminate.
    + right. right. right. split; [vm_compute; reflexivity |].
      intros y1 y2 H. vm_compute in H. injection H as <- <-.
      vm_compute. repeat split; discriminate.
    + assert (E : snap_in_page example_env
                    (example_menu MF_MULTISELECT example_text_then_item
                       (example_laid_out example_text_then_item 1) INT_MAX 100) 2
                  = Some (true,
                          scroller_set_scroll
                            (example_menu MF_MULTISELECT example_text_then_item
                               (example_laid_out example_text_then_item 1)
                               INT_MAX 100) (-34)))
        by (vm_compute; reflexivity).
      exists (scroller_set_scroll
                (example_menu MF_MULTISELECT example_text_then_item
                   (example_laid_out example_text_then_item 1) INT_MAX 100)
                (-34)).
      split; [exact E |]. split; [reflexivity |].
      rewrite E in E1. injection E1 as _ <-. exact E2.
  - destruct (snap_in_page_idempotent example_env
                (example_menu MF_MULTISELECT example_text_then_item
                   (example_laid_out example_text_then_item 1) 30 0) 2)
      as (b1 & m1 & E1 & _ & Hsame).
    + split; [reflexivity |]. vm_compute. repeat constructor; discriminate.
    + left. reflexivity.
    + destruct Hsame as (-> & ->); [left; reflexivity |]. exact E1.
Defined.

(** ** Hover cycling *)

Section HoverFacts.

Variable env : Env.

Lemma set_hovered_arrows m h :
  ui_ready m -> is_set m MF_ARROWS_SELECT = true ->
  0 <= h < size (items m) ->
  exists m', set_hovered env m h false = Some m' /\
    items m' = items m /\ last_hovered m' = h /\ flags m' = flags m /\
    num m' = num m.
Proof.
  intros Hr Harrows Hh. unfold set_hovered. rewrite Harrows. simpl.
  replace (Z.min h (size (items m) - 1)) with h by lia.
  destruct (size (item_info (m_ui_menu m)) =? 0).
  - eexists. split; [reflexivity |]. repeat split; reflexivity.
  - destruct (Z.leb_spec 0 h); [| lia].
    destruct (snap_in_page_ok env
                (set_hovered_entry (set_last_hovered m h) h) h Hr)
      as (b & m' & E).
    rewrite E. exists m'. split; [reflexivity |].
    destruct (snap_in_page_effect env _ _ _ _ E) as (s & -> & _).
    repeat split; reflexivity.
Qed.

(** A landing found by the scan is an entry of level [MEL_ITEM]. *)
Lemma cycle_hover_loop_item m reverse k :
  forall nh h, cycle_hover_loop m reverse k nh = Some (Some h) ->
  exists e, at_ (items m) h = Some e /\ level e = MEL_ITEM.
Proof.
  induction k as [| k IH]; intros nh h H; simpl in H; [discriminate |].
  match type of H with
  | match at_ _ ?i with _ => _ end = _ => set (new := i) in *
  end.
  destruct (at_ (items m) new) as [e |] eqn:E; [| discriminate].
  destruct (level_eqb (level e) MEL_ITEM) eqn:El.
  - injection H as <-. exists e. split; [exact E |].
    apply level_eqb_eq. exact El.
  - exact (IH _ _ H).
Qed.

Lemma cycle_hover_loop_total m reverse k :
  0 < size (items m) ->
  forall nh, exists r, cycle_hover_loop m reverse k nh = Some r.
Proof.
  intros Hsz. induction k as [| k IH]; intros nh; simpl; [eauto |].
  match goal with
  | |- context [at_ (items m) ?i] => set (new := i)
  end.
  destruct (at_in_range (items m) new) as [e E]; [unfold new; lia |].
  rewrite E. destruct (level_eqb (level e) MEL_ITEM); [eauto |]. apply IH.
Qed.

(** Without wraparound a forward scan only visits entries after its
    start, and the last entry. *)
Lemma cycle_hover_loop_forward m k :
  is_set m MF_WRAP = false ->
  forall nh h, nh <= size (items m) - 1 ->
  cycle_hover_loop m false k nh = Some (Some h) ->
  nh < h \/ h = size (items m) - 1.
Proof.
  intros Hw. induction k as [| k IH]; intros nh h Hnh H; simpl in H;
    [discriminate |].
  rewrite Hw in H. simpl in H.
  set (new := Z.max 0 (Z.min (nh + 1) (size (items m) - 1))) in *.
  destruct (at_ (items m) new) as [e |] eqn:E; [| discriminate].
  pose proof (at_lt_size _ _ _ E) as Hnew.
  destruct (level_eqb (level e) MEL_ITEM).
  - injection H as <-. unfold new in *. lia.
  - destruct (IH new h ltac:(lia) H) as [Hlt | Heq]; [| right; exact Heq].
    unfold new in *. lia.
Qed.

(** Without wraparound a backward scan of at most [nh] steps only visits
    entries before its start. *)
Lemma cycle_hover_loop_backward m k :
  is_set m MF_WRAP = false ->
  forall nh h, Z.of_nat k <= nh <= size (items m) ->
  cycle_hover_loop m true k nh = Some (Some h) -> h < nh.
Proof.
  intros Hw. induction k as [| k IH]; intros nh h Hnh H; simpl in H;
    [discriminate |].
  rewrite Hw in H. simpl in H.
  set (new := Z.max 0 (Z.min (nh + -1) (size (items m) - 1))) in *.
  destruct (at_ (items m) new) as [e |] eqn:E; [| discriminate].
  destruct (level_eqb (level e) MEL_ITEM).
  - injection H as <-. unfold new. lia.
  - assert (Hlt : h < new) by (apply IH; [unfold new; lia | exact H]).
    unfold new in Hlt. lia.
Qed.

End HoverFacts.

(** C6: [cycle_hover] returns, leaves the entries alone, and either keeps
    the hover index or moves it to an entry of level [MEL_ITEM]; with
    wraparound disabled and no [MEL_ITEM] entry in the scan direction
    (after the hover when scanning forward, before it when scanning
    backward) the hover index is unchanged. *)
Theorem cycle_hover_lands_on_item (env : Env) (m : Menu) (reverse : bool) :
  ui_ready m -> -1 <= last_hovered m < size (items m) ->
  exists m', cycle_hover env m reverse = Some m' /\
    items m' = items m /\
    (last_hovered m' = last_hovered m \/
     exists e, at_ (items m') (last_hovered m') = Some e /\ level e = MEL_ITEM) /\
    (is_set m MF_WRAP = false ->
     (forall i e, (if reverse then i < last_hovered m else last_hovered m < i) ->
        at_ (items m) i = Some e -> level e <> MEL_ITEM) ->
     last_hovered m' = last_hovered m).
Proof.
  intros Hr Hh. unfold cycle_hover.
  destruct (is_set m MF_ARROWS_SELECT) eqn:Harrows; simpl.
  2:{ exists m. repeat split; auto. }
  set (max_items := if is_set m MF_WRAP then size (items m)
                    else if reverse then last_hovered m
                    else size (items m) - Z.max (last_hovered m) 0).
  set (nh := if reverse && (last_hovered m <? 0) then 0 else last_hovered m).
  assert (Htotal : exists r,
            cycle_hover_loop m reverse (Z.to_nat max_items) nh = Some r).
  { destruct (Z.eq_dec (size (items m)) 0) as [E0 | E0].
    - assert (Z.to_nat max_items = O) as ->.
      { unfold max_items. destruct (is_set m MF_WRAP); [lia |].
        destruct reverse; lia. }
      simpl. eauto.
    - apply cycle_hover_loop_total. pose proof (size_nonneg (items m)). lia. }
  destruct Htotal as [[h |] Eloop]; rewrite Eloop.
  2:{ exists m. repeat split; auto. }
  destruct (cycle_hover_loop_item m reverse _ _ _ Eloop) as (e & He & Hl).
  pose proof (at_lt_size _ _ _ He) as Hhr.
  destruct (set_hovered_arrows env m h Hr Harrows Hhr)
    as (m' & Eset & Hitems & Hlast & _).
  exists m'. split; [exact Eset |]. split; [exact Hitems |].
  split.
  - right. exists e. rewrite Hitems, Hlast. split; assumption.
  - intros Hw Hnone. rewrite Hlast. unfold max_items in Eloop. rewrite Hw in Eloop.
    destruct reverse.
    + exfalso. unfold nh in Eloop. simpl in Eloop.
      destruct (Z.ltb_spec (last_hovered m) 0) as [Hneg | Hpos].
      * replace (Z.to_nat (last_hovered m)) with O in Eloop by lia.
        discriminate Eloop.
      * assert (Hlt : h < last_hovered m).
        { apply (cycle_hover_loop_backward m (Z.to_nat (last_hovered m)) Hw
                   (last_hovered m) h); [lia | exact Eloop]. }
        exact (Hnone h e Hlt He Hl).
    + unfold nh in Eloop. simpl in Eloop.
      destruct (cycle_hover_loop_forward m _ Hw (last_hovered m) h
                  ltac:(lia) Eloop) as [Hgt | Hend].
      * exfalso. exact (Hnone h e Hgt He Hl).
      * destruct (Z.eq_dec h (last_hovered m)) as [E | E]; [exact E |].
        exfalso. apply (Hnone h e ltac:(lia) He Hl).
Qed.

Lemma cycle_hover_lands_on_item_witness :
  let m := mkMenu (Z.lor MF_MULTISELECT MF_ARROWS_SELECT)
             example_text_then_item [] (-1) 0 (-1) [] None None CYCLE_NONE
             ACT_EXAMINE (example_laid_out example_text_then_item 1)
             (mkScroller 0 100) in
  exists m', cycle_hover example_env m false = Some m' /\ last_hovered m' = 2.
Proof.
  cbv zeta.
  destruct (cycle_hover_lands_on_item example_env
              (mkMenu (Z.lor MF_MULTISELECT MF_ARROWS_SELECT)
                 example_text_then_item [] (-1) 0 (-1) [] None None CYCLE_NONE
                 ACT_EXAMINE (example_laid_out example_text_then_item 1)
                 (mkScroller 0 100)) false)
    as (m' & E & _).
  - split; [reflexivity |]. vm_compute. repeat constructor; discriminate.
  - unfold size. simpl. lia.
  - exists m'. split; [exact E |].
    vm_compute in E. injection E as <-. reflexivity.
Defined.

(** ** Selection *)

Lemma first_visible_loop_ok (m : Menu) (skip : bool) (k : nat) :
  ui_ready m ->
  forall i, 0 <= i -> i + Z.of_nat k <= size (items m) ->
  exists v, first_visible_loop m skip k i = Some v /\ 0 <= v <= size (items m).
Proof.
  intros Hr. induction k as [| k IH]; intros i Hi Hk; simpl.
  - exists (size (items m)). split; [reflexivity |].
    pose proof (size_nonneg (items m)). lia.
  - destruct (get_item_region_ok m i Hr ltac:(lia)) as [[y1 y2] E]. rewrite E.
    destruct (at_in_range (items m) i ltac:(lia)) as [e He]. rewrite He.
    destruct (get_scroll m <=? y1).
    + destruct (skip && is_heading_level (level e)).
      * apply IH; lia.
      * exists i. split; [reflexivity | lia].
    + apply IH; lia.
Qed.

Lemma get_first_visible_ok (m : Menu) (skip : bool) :
  ui_ready m ->
  exists v, get_first_visible m skip = Some v /\ 0 <= v <= size (items m).
Proof.
  intros Hr. unfold get_first_visible.
  apply first_visible_loop_ok; [exact Hr | lia | unfold size; lia].
Qed.

(** C10: for every flag configuration and every [qty], [select_index] on
    an index that points at an entry of level [MEL_TITLE] or [MEL_NONE]
    returns and leaves the whole menu, hence every [selected_qty],
    unchanged. *)
Theorem select_index_title_none (env : Env) (m : Menu) (index qty : Z)
    (e : MenuEntry) :
  ui_ready m -> at_ (items m) index = Some e ->
  level e = MEL_TITLE \/ level e = MEL_NONE ->
  select_index env m index qty = Some m.
Proof.
  intros Hr He Hl. unfold select_index.
  destruct (get_first_visible_ok m false Hr) as (v & -> & _).
  pose proof (at_lt_size _ _ _ He) as Hi.
  destruct (Z.eqb_spec index (-1)) as [E | _]; [lia |].
  rewrite He.
  destruct Hl as [-> | ->]; reflexivity.
Qed.

Lemma select_index_title_none_witness :
  let m := example_menu MF_MULTISELECT example_text_then_item
             (example_laid_out example_text_then_item 1) 0 100 in
  select_index example_env m 0 (-1) = Some m.
Proof.
  cbv zeta.
  apply (select_index_title_none example_env _ 0 (-1)
           (example_entry "About this list" MEL_NONE [] 0)).
  - split; [reflexivity |]. vm_compute. repeat constructor; discriminate.
  - reflexivity.
  - right. reflexivity.
Defined.

(** ** Requests made before the viewport height is known *)

(** C8 (as stated) fails for snap requests: [snap_in_page] with a zero
    viewport height leaves the menu exactly as it was, so nothing is
    remembered; after the viewport height becomes 50 and the widget is
    allocated, the scroll offset is still 0 and the requested entry (the
    tenth, 180 pixels down) is not visible. *)
Lemma snap_request_is_not_replayed :
  let m := example_menu MF_MULTISELECT example_ten_items
             (example_laid_out example_ten_items 1) 0 0 in
  snap_in_page example_env m 9 = Some (false, m) /\
  exists m', _allocate_region example_env (set_viewport_height m 50) = Some m' /\
    get_scroll m' = 0 /\ item_visible m' 9 = Some false /\
    exists m'', snap_in_page example_env m' 9 = Some (true, m'') /\
                get_scroll m'' = 156.
Proof.
  cbv zeta. split; [reflexivity |].
  eexists. split; [vm_compute; reflexivity |].
  split; [reflexivity |]. split; [vm_compute; reflexivity |].
  eexists. split; [vm_compute; reflexivity | reflexivity].
Qed.

Section AllocationFacts.

Variable env : Env.

(** Without [force] the search for the entry under the mouse changes the
    hover index of the widget at most. *)
Lemma hovered_entry_loop_effect mx my k :
  forall i m r, hovered_entry_loop env false mx my k i m = Some (Some r) ->
  r = m \/ exists h, r = set_ui_menu m (set_hover_idx (m_ui_menu m) h).
Proof.
  induction k as [| k IH]; intros i m r H; simpl in H; [discriminate |].
  destruct (at_ (item_info (m_ui_menu m)) i) as [entry |]; [| discriminate].
  destruct (heading entry); [exact (IH _ _ _ H) |].
  destruct (at_ (items m) i) as [me |]; [| discriminate].
  match type of H with
  | (if ?c then _ else _) = _ => destruct c
  end; [exact (IH _ _ _ H) |].
  destruct (m_num_columns (m_ui_menu m) =? 0); [discriminate |].
  destruct (at_ (row_heights (m_ui_menu m)) (row entry + 1)); [| discriminate].
  destruct (at_ (row_heights (m_ui_menu m)) (row entry)); [| discriminate].
  match type of H with
  | (if ?c then _ else _) = _ => destruct c
  end; [| exact (IH _ _ _ H)].
  simpl in H.
  destruct (negb (hotkeys_count me =? 0)); injection H as <-;
    [right; eexists; reflexivity | left; reflexivity].
Qed.

Lemma update_hovered_entry_effect m m' :
  update_hovered_entry env m false = Some m' ->
  m_ui_scroller m' = m_ui_scroller m /\
  m_force_scroll (m_ui_menu m') = m_force_scroll (m_ui_menu m).
Proof.
  unfold update_hovered_entry. intros H.
  destruct (is_visible_item_range _ _ _) as [[lo hi] |]; [| discriminate].
  destruct (hovered_entry_loop env false _ _ _ lo m) as [[r |] |] eqn:E;
    [| | discriminate].
  - injection H as <-.
    destruct (hovered_entry_loop_effect _ _ _ _ _ _ E) as [-> | [h ->]];
      split; reflexivity.
  - destruct (negb (has_flag m MF_ARROWS_SELECT)); injection H as <-;
      split; reflexivity.
Qed.

(** After its first two statements [_allocate_region] changes neither the
    scroller nor the stored scroll request. *)
Lemma allocate_region_effect m m' :
  _allocate_region env m = Some m' ->
  exists m1 m2,
    replay_initial_scroll env m = Some m1 /\
    initial_hover_snap env m1 = Some m2 /\
    m_ui_scroller m' = m_ui_scroller m2 /\
    m_force_scroll (m_ui_menu m') = m_force_scroll (m_ui_menu m2).
Proof.
  unfold _allocate_region. intros H.
  destruct (replay_initial_scroll env m) as [m1 |]; [| discriminate].
  destruct (initial_hover_snap env m1) as [m2 |] eqn:E2; [| discriminate].
  exists m1, m2. split; [reflexivity |]. split; [exact E2 |].
  destruct (do_layout env _ _ _ _ (m_ui_menu m2)) as [u |] eqn:Eu;
    [| discriminate].
  assert (Hf : m_force_scroll u = m_force_scroll (m_ui_menu m2)).
  { unfold do_layout in Eu.
    destruct (m_num_columns (m_ui_menu m2) =? 0); [discriminate |].
    destruct (_ <? _)%nat; [discriminate |].
    destruct (layout_loop _ _ _ _ _ _ _ _) as [infos a].
    injection Eu as <-. reflexivity. }
  destruct (negb (has_flag (set_ui_menu m2 u) MF_ARROWS_SELECT)
            || (last_hovered (set_ui_menu m2 u) <? 0)).
  - destruct (update_hovered_entry_effect _ _ H) as (Hs & Hfs).
    split; [exact Hs | rewrite Hfs; exact Hf].
  - injection H as <-. split; [reflexivity | exact Hf].
Qed.

Lemma initial_hover_snap_effect m m2 :
  initial_hover_snap env m = Some m2 ->
  m_force_scroll (m_ui_menu m2) = m_force_scroll (m_ui_menu m) /\
  (if m_initial_hover_snap (m_ui_menu m) || (last_hovered m <? 0)
   then get_scroll m2 = get_scroll m
   else exists b ms, snap_in_page env m (last_hovered m) = Some (b, ms) /\
                     get_scroll m2 = get_scroll ms).
Proof.
  unfold initial_hover_snap. intros H.
  destruct (m_initial_hover_snap (m_ui_menu m)); simpl in *.
  { injection H as <-. split; reflexivity. }
  destruct (Z.leb_spec 0 (last_hovered m)) as [Hh | Hh].
  - destruct (Z.ltb_spec (last_hovered m) 0); [lia |].
    destruct (snap_in_page env m (last_hovered m)) as [[b ms] |] eqn:E;
      [| discriminate].
    injection H as <-.
    destruct (snap_in_page_effect env _ _ _ _ E) as (s & -> & _).
    split; [reflexivity |]. exists b, (scroller_set_scroll m s).
    split; reflexivity.
  - destruct (Z.ltb_spec (last_hovered m) 0); [| lia].
    injection H as <-. split; reflexivity.
Qed.

End AllocationFacts.

(** C8 (amended): while the viewport height is zero, [set_scroll],
    [item_visible] and [snap_in_page] return [false] and leave the scroll
    offset alone.  [set_scroll] stores the requested index in
    [m_force_scroll] and changes nothing else; [snap_in_page] stores
    nothing and leaves the menu unchanged.  When the widget is allocated
    later, with a viewport height and one layout record per entry, a stored
    request for a valid index is carried out first: the scroll offset
    becomes the start of the entry's region minus the shade offset, the
    request is cleared, and this is the offset after the allocation unless
    the first allocation then snaps the hover.  Without a stored request
    the allocation leaves the scroll offset alone, except that the first
    allocation snaps the current hover index into view, if there is one. *)
Theorem zero_viewport_not_ready (env : Env) (m : Menu) (index : Z) :
  viewport_height m = 0 ->
  set_scroll env m index
  = Some (false, set_ui_menu m (set_force_scroll (m_ui_menu m) index)) /\
  item_visible m index = Some false /\
  snap_in_page env m index = Some (false, m) /\
  (forall ma, ui_ready ma -> viewport_height ma <> 0 ->
     0 <= index < size (items ma) ->
     m_force_scroll (m_ui_menu ma) = index ->
     exists y1 y2 m1,
       region_with_headers ma index = Some (y1, y2) /\
       replay_initial_scroll env ma = Some m1 /\
       get_scroll m1 = y1 - Z.quot (UI_SCROLLER_SHADE_SIZE env) 2 /\
       m_force_scroll (m_ui_menu m1) = -1 /\
       last_hovered m1 = last_hovered ma /\
       m_initial_hover_snap (m_ui_menu m1) = m_initial_hover_snap (m_ui_menu ma) /\
       forall m', _allocate_region env ma = Some m' ->
         m_force_scroll (m_ui_menu m') = -1 /\
         (if m_initial_hover_snap (m_ui_menu ma) || (last_hovered ma <? 0)
          then get_scroll m' = y1 - Z.quot (UI_SCROLLER_SHADE_SIZE env) 2
          else exists b ms,
                 snap_in_page env m1 (last_hovered ma) = Some (b, ms) /\
                 get_scroll m' = get_scroll ms)) /\
  (forall ma m', m_force_scroll (m_ui_menu ma) < 0 ->
     _allocate_region env ma = Some m' ->
     m_force_scroll (m_ui_menu m') = m_force_scroll (m_ui_menu ma) /\
     (if m_initial_hover_snap (m_ui_menu ma) || (last_hovered ma <? 0)
      then get_scroll m' = get_scroll ma
      else exists b ms,
             snap_in_page env ma (last_hovered ma) = Some (b, ms) /\
             get_scroll m' = get_scroll ms)).
Proof.
  intros Hv. split; [| split; [| split; [| split]]].
  - unfold set_scroll. rewrite Hv. reflexivity.
  - unfold item_visible. rewrite Hv. reflexivity.
  - unfold snap_in_page. rewrite Hv. reflexivity.
  - intros ma Hr Hh Hi Hf.
    destruct (region_with_headers_ok ma index Hr Hi) as [[y1 y2] Hreg].
    exists y1, y2.
    assert (Hrep : replay_initial_scroll env ma
                   = Some (set_ui_menu
                             (scroller_set_scroll ma
                                (y1 - Z.quot (UI_SCROLLER_SHADE_SIZE env) 2))
                             (set_force_scroll (m_ui_menu ma) (-1)))).
    { unfold replay_initial_scroll. rewrite Hf.
      destruct (Z.leb_spec 0 index); [| lia].
      unfold set_scroll.
      destruct (Z.eqb_spec (viewport_height ma) 0); [contradiction |].
      destruct (Z.ltb_spec index 0); [lia |].
      destruct (Z.leb_spec (size (items ma)) index); [lia |]. simpl orb. cbv iota.
      rewrite Hreg. reflexivity. }
    eexists. split; [exact Hreg |]. split; [exact Hrep |].
    split; [reflexivity |]. split; [reflexivity |]. split; [reflexivity |].
    split; [reflexivity |].
    intros m' Halloc.
    destruct (allocate_region_effect env ma m' Halloc)
      as (m1 & m2 & E1 & E2 & Hs & Hfs).
    rewrite Hrep in E1. injection E1 as <-.
    destruct (initial_hover_snap_effect env _ _ E2) as (Hf2 & Hsnap).
    split; [rewrite Hfs, Hf2; reflexivity |].
    replace (get_scroll m') with (get_scroll m2)
      by (unfold get_scroll; rewrite Hs; reflexivity).
    exact Hsnap.
  - intros ma m' Hf Halloc.
    destruct (allocate_region_effect env ma m' Halloc)
      as (m1 & m2 & E1 & E2 & Hs & Hfs).
    unfold replay_initial_scroll in E1.
    destruct (Z.leb_spec 0 (m_force_scroll (m_ui_menu ma))); [lia |].
    injection E1 as <-.
    destruct (initial_hover_snap_effect env _ _ E2) as (Hf2 & Hsnap).
    split; [rewrite Hfs, Hf2; reflexivity |].
    replace (get_scroll m') with (get_scroll m2)
      by (unfold get_scroll; rewrite Hs; reflexivity).
    exact Hsnap.
Qed.

Lemma zero_viewport_not_ready_witness :
  set_scroll example_env
    (example_menu MF_MULTISELECT example_ten_items
       (example_ui (example_infos example_ten_items)) 0 0) 9
  = Some (false,
          example_menu MF_MULTISELECT example_ten_items
            (set_force_scroll (example_ui (example_infos example_ten_items)) 9)
            0 0) /\
  (exists m',
     _allocate_region example_env
       (example_menu MF_MULTISELECT example_ten_items
          (set_force_scroll (example_laid_out example_ten_items 1) 9) 0 50)
     = Some m' /\
     get_scroll m' = 174 /\ m_force_scroll (m_ui_menu m') = -1) /\
  (exists m',
     _allocate_region example_env
       (set_last_hovered
          (example_menu MF_MULTISELECT example_ten_items
             (example_laid_out example_ten_items 1) 0 50) 9)
     = Some m' /\ get_scroll m' = 156).
Proof.
  destruct (zero_viewport_not_ready example_env
              (example_menu MF_MULTISELECT example_ten_items
                 (example_ui (example_infos example_ten_items)) 0 0) 9)
    as (Hset & _ & _ & Hreplay & Hhover); [reflexivity |].
  split; [exact Hset |]. split.
  2:{ assert (E : exists m',
                _allocate_region example_env
                  (set_last_hovered
                     (example_menu MF_MULTISELECT example_ten_items
                        (example_laid_out example_ten_items 1) 0 50) 9)
                = Some m')
        by (vm_compute; eexists; reflexivity).
      destruct E as (m' & E). exists m'. split; [exact E |].
      destruct (Hhover (set_last_hovered
                          (example_menu MF_MULTISELECT example_ten_items
                             (example_laid_out example_ten_items 1) 0 50) 9)
                       m') as (_ & Hscroll);
        [vm_compute; reflexivity | exact E |].
      assert (Hc : m_initial_hover_snap
                     (m_ui_menu
                        (set_last_hovered
                           (example_menu MF_MULTISELECT example_ten_items
                              (example_laid_out example_ten_items 1) 0 50) 9))
                   || (last_hovered
                         (set_last_hovered
                            (example_menu MF_MULTISELECT example_ten_items
                               (example_laid_out example_ten_items 1) 0 50) 9)
                       <? 0) = false)
        by (vm_compute; reflexivity).
      rewrite Hc in Hscroll. destruct Hscroll as (b & ms & Hsnap & ->).
      assert (Hsnap' : snap_in_page example_env
                (set_last_hovered
                   (example_menu MF_MULTISELECT example_ten_items
                      (example_laid_out example_ten_items 1) 0 50) 9) 9
              = Some (true,
                      scroller_set_scroll
                        (set_last_hovered
                           (example_menu MF_MULTISELECT example_ten_items
                              (example_laid_out example_ten_items 1) 0 50) 9)
                        156))
        by (vm_compute; reflexivity).
      change (last_hovered
                (set_last_hovered
                   (example_menu MF_MULTISELECT example_ten_items
                      (example_laid_out example_ten_items 1) 0 50) 9))
        with 9 in Hsnap.
      rewrite Hsnap' in Hsnap. injection Hsnap as _ <-. reflexivity. }
  destruct (Hreplay (example_menu MF_MULTISELECT example_ten_items
                       (set_force_scroll (example_laid_out example_ten_items 1) 9)
                       0 50))
    as (y1 & y2 & m1 & Hreg & _ & _ & _ & _ & _ & Halloc).
  - split; [reflexivity |]. vm_compute. repeat constructor; discriminate.
  - vm_compute. discriminate.
  - vm_compute. split; [discriminate | reflexivity].
  - reflexivity.
  - assert (E : exists m',
              _allocate_region example_env
                (example_menu MF_MULTISELECT example_ten_items
                   (set_force_scroll (example_laid_out example_ten_items 1) 9)
                   0 50) = Some m')
      by (vm_compute; eexists; reflexivity).
    destruct E as (m' & E). exists m'. split; [exact E |].
    destruct (Halloc m' E) as (Hf & Hscroll).
    split; [| exact Hf].
    vm_compute in Hreg. injection Hreg as <- _.
    assert (Hc : m_initial_hover_snap
                   (m_ui_menu
                      (example_menu MF_MULTISELECT example_ten_items
                         (set_force_scroll
                            (example_laid_out example_ten_items 1) 9) 0 50))
                 || (last_hovered
                       (example_menu MF_MULTISELECT example_ten_items
                          (set_force_scroll
                             (example_laid_out example_ten_items 1) 9) 0 50)
                     <? 0) = true)
      by (vm_compute; reflexivity).
    rewrite Hc in Hscroll. rewrite Hscroll. vm_compute. reflexivity.
Defined.

(** ** Frames of the selection and navigation operations *)

Section FrameFacts.

Variable env : Env.

Lemma frame_refl m : frame m m.
Proof. unfold frame. repeat split; reflexivity. Qed.

Lemma frame_trans m1 m2 m3 : frame m1 m2 -> frame m2 m3 -> frame m1 m3.
Proof.
  unfold frame. intros (A1 & A2 & A3 & A4 & A5 & A6 & A7 & A8)
                       (B1 & B2 & B3 & B4 & B5 & B6 & B7 & B8).
  repeat split; congruence.
Qed.

Lemma same_frame_refl m : same_frame m m.
Proof. split; [apply frame_refl | reflexivity]. Qed.

Lemma same_frame_trans m1 m2 m3 :
  same_frame m1 m2 -> same_frame m2 m3 -> same_frame m1 m3.
Proof.
  intros [F1 S1] [F2 S2]. split; [eapply frame_trans; eassumption | congruence].
Qed.

Lemma frame_ui_ready m m' : frame m m' -> ui_ready m -> ui_ready m'.
Proof.
  intros (_ & _ & _ & _ & _ & Hrow & Hhk & _) [Hlen Hrows]. split.
  - rewrite <- (length_map row), Hrow, length_map, Hlen.
    rewrite <- (length_map hotkeys (items m)), <- Hhk, length_map. reflexivity.
  - apply Forall_forall. intros e He.
    assert (Hin : In (row e) (map row (item_info (m_ui_menu m'))))
      by (apply in_map; exact He).
    rewrite Hrow in Hin. apply in_map_iff in Hin. destruct Hin as (e0 & <- & Hin0).
    rewrite Forall_forall in Hrows. exact (Hrows e0 Hin0).
Qed.

Lemma frame_size m m' : frame m m' -> size (items m') = size (items m).
Proof.
  intros (_ & _ & _ & _ & _ & _ & Hhk & _). unfold size.
  rewrite <- (length_map hotkeys (items m')), Hhk, length_map. reflexivity.
Qed.

Lemma at_map {A B} (f : A -> B) (l : list A) i :
  at_ (map f l) i = option_map f (at_ l i).
Proof.
  unfold at_. destruct (i <? 0); [reflexivity |]. apply nth_error_map.
Qed.

Lemma at_map_eq {A B} (f : A -> B) (l l' : list A) i :
  map f l' = map f l -> option_map f (at_ l' i) = option_map f (at_ l i).
Proof. intros H. rewrite <- !at_map, H. reflexivity. Qed.

Lemma map_set_nth {A B} (f : A -> B) (l : list A) :
  forall i e e', nth_error l i = Some e -> f e' = f e ->
  map f (set_nth l i e') = map f l.
Proof.
  induction l as [| h t IH]; intros i e e' Hn Hf.
  - destruct i; discriminate Hn.
  - destruct i as [| i]; simpl in *.
    + injection Hn as ->. rewrite Hf. reflexivity.
    + f_equal. eapply IH; eassumption.
Qed.

Lemma resize_info_same l : resize_info l (List.length l) = l.
Proof.
  unfold resize_info. rewrite firstn_all, Nat.sub_diag. apply app_nil_r.
Qed.

Lemma update_item_spec m i :
  ui_ready m -> 0 <= i < size (items m) ->
  exists m', update_item env m i = Some m' /\ same_frame m m' /\
             items m' = items m /\ last_hovered m' = last_hovered m /\
             lastch m' = lastch m.
Proof.
  intros [Hlen Hrows] Hi. unfold update_item.
  destruct (Z.leb_spec (size (items m)) i); [lia |].
  destruct (at_in_range (items m) i Hi) as [me Hme]. rewrite Hme.
  rewrite <- Hlen, resize_info_same.
  destruct (at_in_range (item_info (m_ui_menu m)) i) as [entry He].
  { unfold size in *. lia. }
  rewrite He. eexists. split; [reflexivity |].
  split; [| repeat split; reflexivity].
  split; [| reflexivity].
  unfold frame. simpl. repeat split; try reflexivity.
  unfold at_ in He. destruct (i <? 0); [discriminate |].
  eapply map_set_nth; [exact He | reflexivity].
Qed.

Lemma select_item_index_spec m idx qty :
  ui_ready m -> 0 <= idx < size (items m) ->
  exists m', select_item_index env m idx qty = Some m' /\ same_frame m m' /\
             last_hovered m' = last_hovered m /\ lastch m' = lastch m.
Proof.
  intros Hr Hi. unfold select_item_index.
  destruct (at_in_range (items m) idx Hi) as [e He]. rewrite He.
  set (m1 := set_items m (set_nth (items m) (Z.to_nat idx) (select e qty))).
  assert (Hn : nth_error (items m) (Z.to_nat idx) = Some e).
  { unfold at_ in He. destruct (idx <? 0); [discriminate | exact He]. }
  assert (F1 : same_frame m m1).
  { split; [| reflexivity]. unfold frame, m1. simpl.
    repeat split; try reflexivity.
    - eapply map_set_nth; [exact Hn | apply select_frame].
    - eapply map_set_nth; [exact Hn | apply select_frame]. }
  pose proof (frame_ui_ready _ _ (proj1 F1) Hr) as Hr1.
  destruct (update_item_spec m1 idx Hr1) as (m' & E & F2 & _ & Hh & Hl).
  { rewrite (frame_size _ _ (proj1 F1)). exact Hi. }
  exists m'. split; [exact E |].
  split; [eapply same_frame_trans; eassumption |].
  split; [rewrite Hh | rewrite Hl]; reflexivity.
Qed.

Lemma get_item_region_frame m m' i :
  frame m m' -> get_item_region m' i = get_item_region m i.
Proof.
  intros F. pose proof (frame_size _ _ F) as Hsz.
  destruct F as (_ & _ & _ & _ & Hrh & Hrow & _ & _).
  unfold get_item_region. rewrite Hsz, Hrh.
  destruct ((i <? 0) || (size (items m) <=? i)); [reflexivity |].
  pose proof (at_map_eq row _ _ i Hrow) as Hat.
  destruct (at_ (item_info (m_ui_menu m')) i) as [e' |],
           (at_ (item_info (m_ui_menu m)) i) as [e |];
    simpl in Hat; try discriminate; [| reflexivity].
  injection Hat as ->. reflexivity.
Qed.

Lemma in_page_frame m m' i strict :
  same_frame m m' -> in_page m' i strict = in_page m i strict.
Proof.
  intros [F Hs]. unfold in_page, viewport_height, get_scroll.
  rewrite (get_item_region_frame m m' i F), Hs. reflexivity.
Qed.

Lemma key_among_hotkeys_frame m m' i key :
  frame m m' -> key_among_hotkeys m' i key = key_among_hotkeys m i key.
Proof.
  intros (_ & _ & _ & _ & _ & _ & Hhk & _). unfold key_among_hotkeys.
  pose proof (at_map_eq hotkeys _ _ i Hhk) as Hat.
  destruct (at_ (items m') i) as [e' |], (at_ (items m) i) as [e |];
    simpl in Hat; try discriminate; [| reflexivity].
  injection Hat as Hh. unfold entry_is_hotkey. rewrite Hh. reflexivity.
Qed.

Lemma is_set_frame m m' fl : frame m m' -> is_set m' fl = is_set m fl.
Proof. intros (Hf & _). unfold is_set. rewrite Hf. reflexivity. Qed.


Lemma key_on_page_frame m m' i key :
  same_frame m m' ->
  key_among_hotkeys_on_page m' i key = key_among_hotkeys_on_page m i key.
Proof.
  intros SF. unfold key_among_hotkeys_on_page.
  rewrite (key_among_hotkeys_frame _ _ _ _ (proj1 SF)),
          (is_set_frame _ _ _ (proj1 SF)), (in_page_frame _ _ _ _ SF).
  reflexivity.
Qed.

Lemma minus_normal key : (if _key_is_minus key then 45 else key) = key.
Proof. unfold _key_is_minus. destruct (Z.eqb_spec key 45); congruence. Qed.

Lemma in_page_ok m i strict :
  ui_ready m -> 0 <= i < size (items m) ->
  exists b, in_page m i strict = Some b.
Proof.
  intros Hr Hi. unfold in_page.
  destruct (get_item_region_ok m i Hr Hi) as [[y1 y2] E]. rewrite E. eauto.
Qed.

Lemma is_hotkey_spec m i key :
  ui_ready m -> 0 <= i < size (items m) ->
  is_hotkey m i key = Some (key_among_hotkeys_on_page m i key).
Proof.
  intros Hr Hi. unfold is_hotkey, key_among_hotkeys_on_page, key_among_hotkeys.
  rewrite minus_normal.
  destruct (at_in_range (items m) i Hi) as [e He]. rewrite He.
  destruct (entry_is_hotkey e key); [| reflexivity].
  destruct (is_set m MF_SELECT_BY_PAGE); simpl; [| reflexivity].
  destruct (in_page_ok m i false Hr Hi) as [b ->]. reflexivity.
Qed.

Lemma is_selectable_ok m i :
  0 <= i < size (items m) -> exists b, is_selectable env m i = Some b.
Proof.
  intros Hi. unfold is_selectable. destruct (select_filter m); [eauto |].
  destruct (at_in_range (items m) i Hi) as [e He]. rewrite He. eauto.
Qed.

Lemma select_index_loop_spec filtered qty k :
  forall i m, ui_ready m -> 0 <= i -> i + Z.of_nat k <= size (items m) ->
  exists m', select_index_loop env filtered qty k i m = Some m' /\
    same_frame m m' /\ last_hovered m' = last_hovered m /\ lastch m' = lastch m.
Proof.
  induction k as [| k IH]; intros i m Hr Hi Hk.
  - exists m. split; [reflexivity |]. split; [apply same_frame_refl |].
    split; reflexivity.
  - cbn [select_index_loop].
    assert (Hnext : forall m1, same_frame m m1 ->
              last_hovered m1 = last_hovered m -> lastch m1 = lastch m ->
              exists m', select_index_loop env filtered qty k (i + 1) m1 = Some m' /\
                same_frame m m' /\ last_hovered m' = last_hovered m /\
                lastch m' = lastch m).
    { intros m1 SF Hh Hl.
      destruct (IH (i + 1) m1) as (m' & E & SF' & Hh' & Hl').
      - exact (frame_ui_ready _ _ (proj1 SF) Hr).
      - lia.
      - rewrite (frame_size _ _ (proj1 SF)). lia.
      - exists m'. split; [exact E |].
        split; [eapply same_frame_trans; eassumption |]. split; congruence. }
    destruct (at_in_range (items m) i ltac:(lia)) as [e He]. rewrite He.
    destruct (hotkeys e) as [| h0 hs].
    { apply Hnext; [apply same_frame_refl | reflexivity | reflexivity]. }
    destruct (negb (level_eqb (level e) MEL_ITEM)).
    { apply Hnext; [apply same_frame_refl | reflexivity | reflexivity]. }
    rewrite (is_hotkey_spec m i h0 Hr ltac:(lia)).
    destruct (key_among_hotkeys_on_page m i h0).
    + destruct filtered.
      * destruct (is_selectable_ok m i ltac:(lia)) as [b ->].
        destruct b.
        -- destruct (select_item_index_spec m i qty Hr ltac:(lia))
             as (m1 & -> & SF & Hh & Hl).
           apply Hnext; assumption.
        -- apply Hnext; [apply same_frame_refl | reflexivity | reflexivity].
      * destruct (select_item_index_spec m i qty Hr ltac:(lia))
          as (m1 & -> & SF & Hh & Hl).
        apply Hnext; assumption.
    + apply Hnext; [apply same_frame_refl | reflexivity | reflexivity].
Qed.

Lemma select_index_spec m index qty :
  ui_ready m -> index = -1 \/ 0 <= index < size (items m) ->
  exists m', select_index env m index qty = Some m' /\ same_frame m m' /\
    last_hovered m' = last_hovered m /\ lastch m' = lastch m.
Proof.
  intros Hr Hi. unfold select_index.
  destruct (get_first_visible_ok m false Hr) as (v & -> & Hv).
  assert (Hsame : exists m', Some m = Some m' /\ same_frame m m' /\
            last_hovered m' = last_hovered m /\ lastch m' = lastch m).
  { exists m. split; [reflexivity |]. split; [apply same_frame_refl |].
    split; reflexivity. }
  destruct (Z.eqb_spec index (-1)) as [E | E].
  - destruct (has_flag m MF_MULTISELECT); [| exact Hsame].
    apply select_index_loop_spec; [exact Hr | lia | unfold size; lia].
  - destruct Hi as [Hi | Hi]; [contradiction |].
    destruct (at_in_range (items m) index Hi) as [e He]. rewrite He.
    destruct (level_eqb (level e) MEL_SUBTITLE && has_flag m MF_MULTISELECT).
    + apply select_index_loop_spec; [exact Hr | lia | lia].
    + destruct (level_eqb (level e) MEL_ITEM
                && has_flag m (Z.lor MF_SINGLESELECT MF_MULTISELECT));
        [| exact Hsame].
      apply select_item_index_spec; assumption.
Qed.

Lemma snap_in_page_frame m i b m' :
  snap_in_page env m i = Some (b, m') ->
  frame m m' /\ items m' = items m /\ lastch m' = lastch m /\
  last_hovered m' = last_hovered m /\
  item_info (m_ui_menu m') = item_info (m_ui_menu m).
Proof.
  intros H. destruct (snap_in_page_effect env _ _ _ _ H) as (s0 & -> & _).
  unfold frame. repeat split; reflexivity.
Qed.

Lemma set_hovered_spec m idx force :
  ui_ready m ->
  exists m', set_hovered env m idx force = Some m' /\
    frame m m' /\ items m' = items m /\ lastch m' = lastch m.
Proof.
  intros Hr. unfold set_hovered.
  destruct (negb force && negb (is_set m MF_ARROWS_SELECT)).
  - destruct (snap_in_page_ok env m idx Hr) as (b & m' & E). rewrite E.
    exists m'. split; [reflexivity |].
    destruct (snap_in_page_frame _ _ _ _ E) as (F & Hi & Hl & _).
    split; [exact F |]. split; assumption.
  - set (m1 := set_last_hovered m (Z.min idx (size (items m) - 1))).
    change (item_info (m_ui_menu m1)) with (item_info (m_ui_menu m)).
    destruct (size (item_info (m_ui_menu m)) =? 0).
    + exists m1. split; [reflexivity |].
      unfold frame. repeat split; reflexivity.
    + set (m2 := set_hovered_entry m1 (last_hovered m1)).
      change (last_hovered m2) with (last_hovered m1).
      destruct (0 <=? last_hovered m1).
      * destruct (snap_in_page_ok env m2 (last_hovered m1) Hr) as (b & m' & E).
        rewrite E. exists m'. split; [reflexivity |].
        destruct (snap_in_page_effect env _ _ _ _ E) as (s0 & -> & _).
        unfold frame. repeat split; reflexivity.
      * exists m2. split; [reflexivity |].
        unfold frame. repeat split; reflexivity.
Qed.

Lemma primary_or_single_eq m idx key e :
  at_ (items m) idx = Some e ->
  (match hotkeys e with h0 :: _ => h0 =? key | [] => false end
   || is_set m MF_SINGLESELECT) = primary_or_single m idx key.
Proof. intros He. unfold primary_or_single. rewrite He. reflexivity. Qed.

Lemma scan_index_range i fv n :
  0 <= i -> 0 <= fv -> 0 < n -> 0 <= Z.rem (i + fv) n < n.
Proof. intros. apply Z.rem_bound_pos; lia. Qed.

(** The first loop of [select_items] is a [find] along the scan order. *)
Lemma primary_hotkey_loop_spec m key fv :
  ui_ready m -> 0 <= fv -> 0 < size (items m) ->
  forall k i0,
  primary_hotkey_loop m key fv (size (items m)) k (Z.of_nat i0)
  = Some (find (fun idx => key_among_hotkeys_on_page m idx key
                           && primary_or_single m idx key)
               (map (fun j => Z.rem (Z.of_nat j + fv) (size (items m)))
                    (seq i0 k))).
Proof.
  intros Hr Hfv Hn. induction k as [| k IH]; intros i0; [reflexivity |].
  cbn [primary_hotkey_loop seq map find].
  pose proof (scan_index_range (Z.of_nat i0) fv (size (items m))
                ltac:(lia) Hfv Hn) as Hidx.
  set (idx := Z.rem (Z.of_nat i0 + fv) (size (items m))) in *.
  rewrite (is_hotkey_spec m idx key Hr Hidx).
  destruct (at_in_range (items m) idx Hidx) as [e He]. rewrite He.
  rewrite (primary_or_single_eq m idx key e He).
  destruct (key_among_hotkeys_on_page m idx key && primary_or_single m idx key);
    [reflexivity |].
  replace (Z.of_nat i0 + 1) with (Z.of_nat (S i0)) by lia. apply IH.
Qed.

Lemma last_cons_indep {A} (l : list A) (a d d' : A) :
  last (a :: l) d = last (a :: l) d'.
Proof.
  revert a. induction l as [| b t IH]; intros a; [reflexivity |].
  change (last (a :: b :: t) d) with (last (b :: t) d).
  change (last (a :: b :: t) d') with (last (b :: t) d'). apply IH.
Qed.

(** The second loop passes to [select_index], in list order, the entries
    that have the key. *)
Lemma secondary_hotkey_loop_spec m key qty :
  ui_ready m ->
  forall k i0 fs ls m',
  same_frame m m' -> (i0 + k <= List.length (items m))%nat ->
  let hits := filter (fun i => key_among_hotkeys_on_page m i key)
                     (map Z.of_nat (seq i0 k)) in
  exists m1,
    fold_left (fun acc i => do a <- acc; select_index env a i qty) hits (Some m')
      = Some m1 /\
    secondary_hotkey_loop env key qty k (Z.of_nat i0) fs ls m'
      = Some (if fs <? 0 then match hits with [] => fs | h :: _ => h end else fs,
              last hits ls, m1) /\
    same_frame m m1 /\ lastch m1 = lastch m' /\ last_hovered m1 = last_hovered m'.
Proof.
  intros Hr. induction k as [| k IH]; intros i0 fs ls m' SF Hk; cbv zeta.
  - simpl. exists m'. split; [reflexivity |].
    split; [destruct (fs <? 0); reflexivity |].
    split; [exact SF |]. split; reflexivity.
  - pose proof (frame_ui_ready _ _ (proj1 SF) Hr) as Hr'.
    pose proof (frame_size _ _ (proj1 SF)) as Hsz.
    assert (Hi : 0 <= Z.of_nat i0 < size (items m')) by (rewrite Hsz; unfold size; lia).
    cbn [secondary_hotkey_loop seq map filter].
    rewrite (is_hotkey_spec m' (Z.of_nat i0) key Hr' Hi).
    rewrite (key_on_page_frame m m' _ _ SF).
    replace (Z.of_nat i0 + 1) with (Z.of_nat (S i0)) by lia.
    destruct (key_among_hotkeys_on_page m (Z.of_nat i0) key).
    + destruct (select_index_spec m' (Z.of_nat i0) qty Hr' ltac:(right; exact Hi))
        as (m2 & E2 & SF2 & Hh2 & Hl2).
      rewrite E2.
      destruct (IH (S i0) (if fs <? 0 then Z.of_nat i0 else fs) (Z.of_nat i0) m2
                   (same_frame_trans _ _ _ SF SF2) ltac:(lia))
        as (m1 & Ef & El & SF1 & Hl1 & Hh1).
      cbv zeta in El. exists m1.
      split; [cbn [fold_left]; rewrite E2; exact Ef |].
      split.
      * rewrite El.
        assert (Hfs : (if (if fs <? 0 then Z.of_nat i0 else fs) <? 0
                       then match filter (fun i => key_among_hotkeys_on_page m i key)
                                         (map Z.of_nat (seq (S i0) k)) with
                            | [] => if fs <? 0 then Z.of_nat i0 else fs
                            | h :: _ => h
                            end
                       else if fs <? 0 then Z.of_nat i0 else fs)
                      = if fs <? 0 then Z.of_nat i0 else fs).
        { destruct (Z.ltb_spec fs 0) as [Hneg | Hpos].
          - destruct (Z.ltb_spec (Z.of_nat i0) 0); [lia | reflexivity].
          - destruct (Z.ltb_spec fs 0); [lia | reflexivity]. }
        assert (Hls : last (filter (fun i => key_among_hotkeys_on_page m i key)
                                   (map Z.of_nat (seq (S i0) k))) (Z.of_nat i0)
                      = last (Z.of_nat i0
                              :: filter (fun i => key_among_hotkeys_on_page m i key)
                                        (map Z.of_nat (seq (S i0) k))) ls).
        { destruct (filter (fun i => key_among_hotkeys_on_page m i key)
                           (map Z.of_nat (seq (S i0) k))) as [| r rs];
            [reflexivity |].
          change (last (Z.of_nat i0 :: r :: rs) ls) with (last (r :: rs) ls).
          apply last_cons_indep. }
        rewrite Hfs, Hls. reflexivity.
      * split; [exact SF1 |]. split; congruence.
    + destruct (IH (S i0) fs ls m' SF ltac:(lia)) as (m1 & Ef & El & SF1 & Hl1 & Hh1).
      exists m1. split; [exact Ef |]. split; [exact El |].
      split; [exact SF1 |]. split; assumption.
Qed.

Lemma scan_order_range m fv idx :
  0 <= fv -> In idx (scan_order fv (size (items m))) ->
  0 <= idx < size (items m).
Proof.
  intros Hfv Hin. unfold scan_order in Hin. apply in_map_iff in Hin.
  destruct Hin as (j & <- & Hj). apply in_seq in Hj.
  apply scan_index_range; unfold size in *; lia.
Qed.

(** [select_items] on a literal key: it returns, it agrees with the
    specification's wording (with the page restriction), and it is a
    frame-preserving operation. *)
Lemma select_items_literal m key qty :
  ui_ready m -> literal_key m key = true ->
  exists m', select_items env m key qty = Some m' /\
    select_items_as_specified env key_among_hotkeys_on_page m key qty = Some m' /\
    frame m m' /\ lastch m' = lastch m.
Proof.
  intros Hr Hlit. unfold select_items, select_items_as_specified.
  unfold literal_key in Hlit. apply negb_true_iff in Hlit.
  assert (H1 : (key =? 44) && has_flag m MF_MULTISELECT = false)
    by (destruct (key =? 44), (has_flag m MF_MULTISELECT); simpl in *;
        congruence).
  assert (H2 : (key =? 42) && has_flag m MF_MULTISELECT = false)
    by (destruct (key =? 44), (key =? 42), (has_flag m MF_MULTISELECT);
        simpl in *; congruence).
  assert (H3 : _key_is_minus key && has_flag m MF_MULTISELECT = false)
    by (destruct (key =? 44), (key =? 42), (_key_is_minus key),
          (has_flag m MF_MULTISELECT); simpl in *; congruence).
  rewrite H1, H2, H3.
  destruct (get_first_visible_ok m false Hr) as (fv & -> & Hfv).
  assert (Hloop : primary_hotkey_loop m key fv (size (items m))
                    (List.length (items m)) 0
                  = Some (find (fun idx => key_among_hotkeys_on_page m idx key
                                           && primary_or_single m idx key)
                               (scan_order fv (size (items m))))).
  { unfold scan_order, size at 3. rewrite Nat2Z.id.
    destruct (items m) as [| e0 t] eqn:Ei; [reflexivity |].
    rewrite <- Ei.
    apply (primary_hotkey_loop_spec m key fv Hr ltac:(lia)
             ltac:(rewrite Ei; unfold size; simpl; lia)
             (List.length (items m)) 0%nat). }
  rewrite Hloop.
  destruct (find (fun idx => key_among_hotkeys_on_page m idx key
                             && primary_or_single m idx key)
                 (scan_order fv (size (items m)))) as [idx |] eqn:Efind.
  - apply find_some in Efind. destruct Efind as [Hin _].
    pose proof (scan_order_range m fv idx ltac:(lia) Hin) as Hidx.
    destruct (select_index_spec m idx qty Hr ltac:(right; exact Hidx))
      as (m1 & -> & SF1 & _ & Hl1).
    destruct (set_hovered_spec m1 idx false (frame_ui_ready _ _ (proj1 SF1) Hr))
      as (m2 & E2 & F2 & _ & Hl2).
    exists m2. split; [exact E2 |]. split; [exact E2 |].
    split; [eapply frame_trans; [exact (proj1 SF1) | exact F2] | congruence].
  - destruct (is_set m MF_MULTISELECT).
    2:{ exists m. split; [reflexivity |]. split; [reflexivity |].
        split; [apply frame_refl | reflexivity]. }
    destruct (secondary_hotkey_loop_spec m key qty Hr (List.length (items m))
                0%nat (-1) (-1) m (same_frame_refl m) ltac:(lia))
      as (m1 & Ef & El & SF1 & Hl1 & _).
    cbv zeta in El. change (Z.of_nat 0) with 0 in El. rewrite El.
    fold (all_indices m) in *. rewrite Ef.
    destruct (filter (fun i => key_among_hotkeys_on_page m i key) (all_indices m))
      as [| h t] eqn:Ehits.
    + simpl. exists m1. split; [reflexivity |]. split; [reflexivity |].
      split; [exact (proj1 SF1) | exact Hl1].
    + assert (Hh : 0 <= h).
      { assert (Hin : In h (filter (fun i => key_among_hotkeys_on_page m i key)
                                   (all_indices m)))
          by (rewrite Ehits; left; reflexivity).
        apply filter_In in Hin. destruct Hin as [Hin _].
        unfold all_indices in Hin. apply in_map_iff in Hin.
        destruct Hin as (j & <- & _). lia. }
      change (-1 <? 0) with true. cbv iota.
      destruct (Z.leb_spec 0 h); [| lia].
      rewrite (last_cons_indep t h (-1) h).
      pose proof (frame_ui_ready _ _ (proj1 SF1) Hr) as Hr1.
      destruct (snap_in_page_ok env m1 (last (h :: t) h) Hr1) as (b & m2 & E2).
      rewrite E2.
      destruct (snap_in_page_frame _ _ _ _ E2) as (F2 & _ & Hl2 & _).
      destruct (set_hovered_spec m2 h false (frame_ui_ready _ _ F2 Hr1))
        as (m3 & E3 & F3 & _ & Hl3).
      exists m3. split; [exact E3 |]. split; [exact E3 |].
      split; [| congruence].
      eapply frame_trans; [exact (proj1 SF1) |].
      eapply frame_trans; eassumption.
Qed.








End FrameFacts.

(** ** Hotkey resolution *)

(** C4 (as stated) fails when [MF_SELECT_BY_PAGE] is set: in a viewport of
    50 pixels the tenth entry (hotkey j, 180 pixels down) is not on the
    page, so the key j chooses nothing and the menu is unchanged; by the
    claim the entry, whose primary hotkey is j, is chosen. *)
Lemma select_items_ignores_entries_off_page :
  let m := example_menu (Z.lor MF_MULTISELECT MF_SELECT_BY_PAGE)
             example_ten_items (example_laid_out example_ten_items 1) 0 50 in
  select_items example_env m 106 (-1) = Some m /\
  exists m', select_items_as_specified example_env key_among_hotkeys m 106 (-1)
             = Some m' /\
    map selected_qty (items m') = [0; 0; 0; 0; 0; 0; 0; 0; 0; 1] /\
    map selected_qty (items m) = [0; 0; 0; 0; 0; 0; 0; 0; 0; 0].
Proof.
  cbv zeta. split; [vm_compute; reflexivity |].
  eexists. split; [vm_compute; reflexivity |].
  split; reflexivity.
Qed.

(** C4 (amended): for a literal hotkey, [select_items] returns what the
    specification describes once "key is one of its hotkeys" is read as
    [Menu::is_hotkey] does, that is, restricted to entries on the current
    page when [MF_SELECT_BY_PAGE] is set: the entries are scanned from the
    first visible index, wrapping around the list; the first entry that
    has the key, as its primary hotkey or in a SingleSelect menu, is passed
    to [select_index] and hovered, and the scan stops; if there is none,
    then under MultiSelect every entry that has the key is passed to
    [select_index], in list order, the last of them is snapped into the
    page and the first is hovered. *)
Theorem select_items_resolution (env : Env) (m : Menu) (key qty : Z) :
  ui_ready m -> literal_key m key = true ->
  exists m', select_items env m key qty = Some m' /\
    select_items_as_specified env key_among_hotkeys_on_page m key qty = Some m'.
Proof.
  intros Hr Hlit.
  destruct (select_items_literal env m key qty Hr Hlit) as (m' & E1 & E2 & _).
  exists m'. split; assumption.
Qed.

Lemma select_items_resolution_witness :
  let m := example_menu MF_MULTISELECT example_ten_items
             (example_laid_out example_ten_items 1) 0 50 in
  exists m', select_items example_env m 106 (-1) = Some m' /\
    map selected_qty (items m') = [0; 0; 0; 0; 0; 0; 0; 0; 0; 1].
Proof.
  cbv zeta.
  destruct (select_items_resolution example_env
              (example_menu MF_MULTISELECT example_ten_items
                 (example_laid_out example_ten_items 1) 0 50) 106 (-1))
    as (m' & E & _).
  - split; [reflexivity |]. vm_compute. repeat constructor; discriminate.
  - reflexivity.
  - exists m'. split; [exact E |].
    vm_compute in E. injection E as <-. reflexivity.
Defined.

(** ** The quantity accumulator *)

Section HandledFacts.

Variable env : Env.

Lemma has_flag_single_or_multi m :
  has_flag m MF_SINGLESELECT = true ->
  has_flag m (Z.lor MF_SINGLESELECT MF_MULTISELECT) = true.
Proof.
  unfold has_flag. intros H. apply negb_true_iff in H. apply Z.eqb_neq in H.
  apply negb_true_iff. apply Z.eqb_neq. intros E. apply H.
  replace MF_SINGLESELECT
    with (Z.land (Z.lor MF_SINGLESELECT MF_MULTISELECT) MF_SINGLESELECT)
    by reflexivity.
  rewrite Z.land_assoc, E. reflexivity.
Qed.



End HandledFacts.





(* ================================================================== *)
(** * Further properties of the code *)

(** ** Refreshing the widget from the entries *)

Lemma nth_error_set_nth {A} (l : list A) :
  forall i j a,
  nth_error (set_nth l i a) j
  = if Nat.eqb i j then option_map (fun _ => a) (nth_error l j)
    else nth_error l j.
Proof.
  induction l as [| h t IH]; intros i j a.
  - destruct i, j; simpl; try reflexivity; destruct (Nat.eqb _ _); reflexivity.
  - destruct i, j; simpl; try reflexivity. apply IH.
Qed.
Lemma length_set_nth {A} (l : list A) :
  forall i a, List.length (set_nth l i a) = List.length l.
Proof.
  induction l as [| h t IH]; intros [| i] a; simpl; try reflexivity.
  rewrite IH. reflexivity.
Qed.

Section UpdateFacts.

Variable env : Env.

Lemma length_resize_info l n : List.length (resize_info l n) = n.
Proof.
  unfold resize_info. rewrite length_app, length_firstn, repeat_length. lia.
Qed.

Lemma nth_resize_info l n j :
  (j < n)%nat -> nth j (resize_info l n) default_info = nth j l default_info.
Proof.
  intros Hj. unfold resize_info.
  destruct (Nat.lt_ge_cases j (List.length l)) as [H | H].
  - rewrite app_nth1 by (rewrite length_firstn; lia).
    rewrite <- (firstn_skipn n l) at 2.
    rewrite app_nth1 by (rewrite length_firstn; lia). reflexivity.
  - rewrite app_nth2 by (rewrite length_firstn; lia).
    rewrite (nth_overflow l) by lia.
    destruct (Nat.lt_ge_cases (j - List.length (firstn n l))
                              (n - List.length l)) as [H' | H'].
    + apply nth_repeat_lt. exact H'.
    + apply nth_overflow. rewrite repeat_length. exact H'.
Qed.

(** What [update_item] writes into the layout record of an entry. *)
Lemma update_items_loop_spec k :
  forall i m,
  List.length (item_info (m_ui_menu m)) = List.length (items m) ->
  (i + k = List.length (items m))%nat ->
  exists infos',
    update_items_loop env k (Z.of_nat i) m
      = Some (set_ui_menu m (set_item_info (m_ui_menu m) infos')) /\
    List.length infos' = List.length (items m) /\
    forall j e, nth_error (items m) j = Some e ->
      nth_error infos' j
      = Some (let old := nth j (item_info (m_ui_menu m)) default_info in
              if (i <=? j)%nat
              then mkInfo (x old) (y old) (row old) (column old)
                          (get_text env e) (get_tiles env e)
                          (is_heading_level (level e))
              else old).
Proof.
  induction k as [| k IH]; intros i m Hlen Hik.
  - exists (item_info (m_ui_menu m)). split; [| split].
    + simpl. destruct m as [fl its sl nm lc lh sf kf oss ac ma u scr]. destruct u. reflexivity.
    + exact Hlen.
    + intros j e Hj.
      assert (j < List.length (items m))%nat
        by (apply nth_error_Some; congruence).
      destruct (Nat.leb_spec i j); [lia |].
      apply nth_error_nth'. lia.
  - cbn [update_items_loop]. unfold update_item.
    destruct (Z.leb_spec (size (items m)) (Z.of_nat i)) as [H | _];
      [unfold size in H; lia |].
    unfold at_. destruct (Z.ltb_spec (Z.of_nat i) 0); [lia |].
    rewrite Nat2Z.id.
    destruct (nth_error (items m) i) as [me |] eqn:Eme.
    2:{ apply nth_error_None in Eme. lia. }
    assert (Hres : resize_info (item_info (m_ui_menu m))
                               (List.length (items m))
                   = item_info (m_ui_menu m))
      by (rewrite <- Hlen; apply resize_info_same).
    rewrite Hres.
    destruct (nth_error (item_info (m_ui_menu m)) i) as [entry |] eqn:Een.
    2:{ apply nth_error_None in Een. lia. }
    set (entry' := mkInfo _ _ _ _ _ _ _).
    set (m1 := set_ui_menu m _).
    destruct (IH (S i) m1) as (infos' & E & Hl & Hn).
    { unfold m1. simpl. rewrite length_set_nth. exact Hlen. }
    { unfold m1. simpl. lia. }
    replace (Z.of_nat i + 1) with (Z.of_nat (S i)) by lia.
    rewrite E. exists infos'. split; [| split].
    + unfold m1. destruct m as [fl its sl nm lc lh sf kf oss ac ma u scr]. destruct u.
      reflexivity.
    + exact Hl.
    + intros j e Hj. rewrite (Hn j e Hj). f_equal. cbv zeta.
      unfold m1. simpl item_info.
      assert (Hnth : nth j (set_nth (item_info (m_ui_menu m)) i entry')
                         default_info
                     = if Nat.eqb i j then entry'
                       else nth j (item_info (m_ui_menu m)) default_info).
      { assert (Hjl : (j < List.length (item_info (m_ui_menu m)))%nat).
        { rewrite Hlen. apply nth_error_Some. simpl in Hj. congruence. }
        apply nth_error_nth. rewrite nth_error_set_nth.
        destruct (Nat.eqb i j).
        - destruct (nth_error (item_info (m_ui_menu m)) j) eqn:E'; [reflexivity |].
          apply nth_error_None in E'. lia.
        - apply nth_error_nth'. exact Hjl. }
      rewrite Hnth.
      destruct (Nat.eqb_spec i j) as [-> | Hne].
      * destruct (Nat.leb_spec (S j) j); [lia |].
        destruct (Nat.leb_spec j j); [| lia].
        simpl in Hj. rewrite Eme in Hj. injection Hj as <-.
        rewrite (nth_error_nth _ _ default_info Een). reflexivity.
      * destruct (Nat.leb_spec (S i) j), (Nat.leb_spec i j); try lia; reflexivity.
Qed.



Lemma update_items_spec m :
  exists infos',
    update_items env m
      = Some (set_ui_menu m
                (set_draw_tiles
                   (set_item_info (m_ui_menu m) infos')
                   (draw_tiles_loop env infos'))) /\
    List.length infos' = List.length (items m) /\
    forall j e, nth_error (items m) j = Some e ->
      nth_error infos' j
      = Some (let old := nth j (item_info (m_ui_menu m)) default_info in
              mkInfo (x old) (y old) (row old) (column old)
                     (get_text env e) (get_tiles env e)
                     (is_heading_level (level e))).
Proof.
  unfold update_items.
  set (m0 := set_ui_menu m _).
  destruct (update_items_loop_spec (List.length (items m)) 0%nat m0)
    as (infos' & E & Hl & Hn).
  { unfold m0. simpl. apply length_resize_info. }
  { unfold m0. simpl. reflexivity. }
  change (Z.of_nat 0) with 0 in E. rewrite E.
  exists infos'. split; [| split].
  - unfold m0. destruct m as [fl its sl nm lc lh sf kf oss ac ma u scr]. destruct u.
    reflexivity.
  - exact Hl.
  - intros j e Hj. rewrite (Hn j e Hj). cbv zeta.
    destruct (Nat.leb_spec 0 j); [| lia].
    unfold m0. simpl item_info.
    rewrite nth_resize_info; [reflexivity |].
    apply nth_error_Some. simpl in Hj. congruence.
Qed.

End UpdateFacts.


Lemma update_items_ready (env : Env) (m : Menu) :
  Forall (fun e => 0 <= row e) (item_info (m_ui_menu m)) ->
  exists m1, update_items env m = Some m1 /\
    m1 = set_ui_menu m (m_ui_menu m1) /\ ui_ready m1.
Proof.
  intros Hrows.
  destruct (update_items_spec env m) as (infos' & E & Hl & Hn).
  eexists. split; [exact E |]. split.
  - destruct m as [fl its sl nm lc lh sf kf oss ac ma u scr]. reflexivity.
  - split.
    + destruct m as [fl its sl nm lc lh sf kf oss ac ma u scr]. simpl in *. exact Hl.
    + destruct m as [fl its sl nm lc lh sf kf oss ac ma u scr]. simpl in *.
      apply Forall_forall. intros a Ha.
      apply In_nth_error in Ha. destruct Ha as [j Hj].
      assert (Hjl : (j < List.length its)%nat).
      { rewrite <- Hl. apply nth_error_Some. congruence. }
      destruct (nth_error its j) as [e |] eqn:Ee.
      2:{ apply nth_error_None in Ee. lia. }
      rewrite (Hn j e Ee) in Hj. injection Hj as <-. cbv zeta. simpl.
      destruct (Nat.lt_ge_cases j (List.length (item_info u))) as [H | H].
      * rewrite Forall_forall in Hrows. apply Hrows. apply nth_In. exact H.
      * rewrite nth_overflow by exact H. simpl. lia.
Qed.

(** X2: [update_menu] always succeeds on a widget whose rows are not
    negative, and leaves one layout record per entry.  In a menu with
    [MF_ARROWS_SELECT] a hover beyond the last entry is moved back to the
    last entry; without that flag the hover is left as it is. *)
Theorem update_menu_sanitises_hover (env : Env) (m : Menu) :
  Forall (fun e => 0 <= row e) (item_info (m_ui_menu m)) ->
  exists m', update_menu env m = Some m' /\
    ui_ready m' /\ items m' = items m /\ flags m' = flags m /\
    last_hovered m'
    = (if is_set m MF_ARROWS_SELECT && (0 <=? last_hovered m)
       then Z.min (last_hovered m) (size (items m) - 1)
       else last_hovered m).
Proof.
  intros Hrows. unfold update_menu.
  destruct (update_items_ready env m Hrows) as (m1 & -> & Em1 & Hr1).
  assert (Hi : items m1 = items m) by (rewrite Em1; reflexivity).
  assert (Hf : flags m1 = flags m) by (rewrite Em1; reflexivity).
  assert (Hh : last_hovered m1 = last_hovered m) by (rewrite Em1; reflexivity).
  assert (Hs : forall fl, is_set m1 fl = is_set m fl)
    by (intros fl; unfold is_set; rewrite Hf; reflexivity).
  rewrite Hh.
  destruct (Z.leb_spec 0 (last_hovered m)) as [H0 | H0].
  2:{ exists m1. rewrite andb_false_r. repeat split; try assumption.
      apply Hr1. apply Hr1. }
  rewrite andb_true_r. unfold set_hovered. rewrite Hs.
  destruct (is_set m MF_ARROWS_SELECT); simpl negb; cbv iota.
  - simpl andb. cbv iota.
    set (m2 := set_last_hovered m1 _).
    assert (Hr2 : ui_ready m2) by exact Hr1.
    destruct (size (item_info (m_ui_menu m2)) =? 0) eqn:Esz.
    + exists m2. split; [reflexivity |]. split; [exact Hr2 |].
      split; [exact Hi |]. split; [exact Hf |].
      unfold m2. simpl. rewrite Hi. reflexivity.
    + set (m3 := set_hovered_entry m2 (last_hovered m2)).
      assert (Hr3 : ui_ready m3) by exact Hr1.
      assert (Hl3 : last_hovered m3 = Z.min (last_hovered m)
                                            (size (items m) - 1))
        by (unfold m3, m2; simpl; rewrite Hi; reflexivity).
      change (last_hovered m2) with (last_hovered m3).
      destruct (Z.leb_spec 0 (last_hovered m3)).
      * destruct (snap_in_page_ok env m3 (last_hovered m3) Hr3)
          as (b & m4 & E4).
        rewrite E4. exists m4. split; [reflexivity |].
        destruct (snap_in_page_effect env _ _ _ _ E4) as (s & -> & _).
        split; [exact Hr3 |]. split; [exact Hi |]. split; [exact Hf |].
        exact Hl3.
      * exists m3. split; [reflexivity |]. split; [exact Hr3 |].
        split; [exact Hi |]. split; [exact Hf |]. exact Hl3.
  - simpl andb. cbv iota.
    destruct (snap_in_page_ok env m1 (last_hovered m) Hr1) as (b & m4 & E4).
    rewrite E4. exists m4. split; [reflexivity |].
    destruct (snap_in_page_effect env _ _ _ _ E4) as (s & -> & _).
    split; [exact Hr1 |]. split; [exact Hi |]. split; [exact Hf |]. exact Hh.
Qed.

(** ** The layout engine run again *)

Section LayoutAgain.

Variable env : Env.
Variables (mw C : Z) (nw dt : bool).

(** One iteration never lowers [m_scroll_context], and it keeps the text,
    the tiles and the heading flag of the entry. *)
Lemma layout_entry_keeps i e a e' a' :
  layout_entry env mw C nw dt i e a = (e', a') ->
  l_scroll_context a <= l_scroll_context a' /\
  heading e' = heading e /\ itext e' = itext e /\ itiles e' = itiles e.
Proof.
  unfold layout_entry. intros H.
  destruct (heading e); simpl in H.
  - injection H as <- <-. simpl. repeat split; lia.
  - destruct (Z.rem (l_column a + 1) C =? 0);
      destruct (negb nw && _); try destruct (wrap_item _ _ _ _ _);
      injection H as <- <-; simpl; repeat split; lia.
Qed.

Lemma layout_loop_keeps infos :
  forall i a es a',
  layout_loop env mw C nw dt i infos a = (es, a') ->
  l_scroll_context a <= l_scroll_context a' /\
  List.length es = List.length infos.
Proof.
  induction infos as [| e rest IH]; intros i a es a' H; simpl in H.
  - injection H as <- <-. split; [lia | reflexivity].
  - destruct (layout_entry env mw C nw dt i e a) as [e1 a1] eqn:E1.
    destruct (layout_loop env mw C nw dt (S i) rest a1) as [rest' a2] eqn:E2.
    injection H as <- <-.
    destruct (layout_entry_keeps _ _ _ _ _ E1) as (H1 & _).
    destruct (IH _ _ _ _ E2) as (H2 & Hl).
    split; [lia | simpl; congruence].
Qed.

Lemma wrap_item_text mcw ti ih e e2 :
  itext e2 = itext e -> wrap_item env mcw ti ih e2 = wrap_item env mcw ti ih e.
Proof. intros H. unfold wrap_item. rewrite H. reflexivity. Qed.

(** One iteration run again on its own output, from a scroll context [S]
    that the first run never exceeded. *)
Lemma layout_entry_again i e a e' a' Sc e2 :
  layout_entry env mw C nw dt i e a = (e', a') ->
  l_scroll_context a' <= Sc ->
  heading e2 = heading e -> itext e2 = itext e -> itiles e2 = itiles e ->
  layout_entry env mw C nw dt i e2
    (mkAcc (l_column a) (l_column_width a) (l_row_height a) (l_height a)
           (l_row_heights a) Sc)
  = (e', mkAcc (l_column a') (l_column_width a') (l_row_height a')
               (l_height a') (l_row_heights a') Sc).
Proof.
  unfold layout_entry. intros H HS Hh Ht Hi.
  rewrite (wrap_item_text _ _ _ e e2 Ht). rewrite Hh, Ht, Hi.
  cbn [l_column l_column_width l_row_height l_height l_row_heights
       l_scroll_context].
  destruct (heading e).
  - simpl in H. simpl. injection H as <- <-. simpl in *.
    rewrite (Z.max_l Sc) by lia. reflexivity.
  - destruct (Z.rem (l_column a + 1) C =? 0); simpl in H; simpl;
      destruct (negb nw && _); try destruct (wrap_item _ _ _ _ _);
      injection H as <- <-; simpl in *;
      try rewrite (Z.max_l Sc) by lia; reflexivity.
Qed.

Lemma layout_loop_again infos :
  forall i a es a' Sc infos2,
  layout_loop env mw C nw dt i infos a = (es, a') ->
  l_scroll_context a' <= Sc ->
  map heading infos2 = map heading infos ->
  map itext infos2 = map itext infos ->
  map itiles infos2 = map itiles infos ->
  layout_loop env mw C nw dt i infos2
    (mkAcc (l_column a) (l_column_width a) (l_row_height a) (l_height a)
           (l_row_heights a) Sc)
  = (es, mkAcc (l_column a') (l_column_width a') (l_row_height a')
               (l_height a') (l_row_heights a') Sc).
Proof.
  induction infos as [| e rest IH]; intros i a es a' Sc infos2 H HS Hh Ht Hi.
  - destruct infos2; [| discriminate]. simpl in *. injection H as <- <-.
    reflexivity.
  - destruct infos2 as [| e2 rest2]; [discriminate |].
    simpl in Hh, Ht, Hi. injection Hh as Hh Hhr. injection Ht as Ht Htr.
    injection Hi as Hi Hir.
    cbn [layout_loop] in *.
    destruct (layout_entry env mw C nw dt i e a) as [e1 a1] eqn:E1.
    destruct (layout_loop env mw C nw dt (S i) rest a1) as [rest' a2] eqn:E2.
    injection H as <- <-.
    destruct (layout_loop_keeps _ _ _ _ _ E2) as (Hmono & _).
    rewrite (layout_entry_again i e a e1 a1 Sc e2 E1 ltac:(lia) Hh Ht Hi).
    rewrite (IH (S i) a1 rest' a2 Sc rest2 E2 HS Hhr Htr Hir).
    reflexivity.
Qed.

Lemma layout_loop_maps infos :
  forall i a es a',
  layout_loop env mw C nw dt i infos a = (es, a') ->
  map heading es = map heading infos /\ map itext es = map itext infos /\
  map itiles es = map itiles infos.
Proof.
  induction infos as [| e rest IH]; intros i a es a' H; simpl in H.
  - injection H as <- <-. repeat split.
  - destruct (layout_entry env mw C nw dt i e a) as [e1 a1] eqn:E1.
    destruct (layout_loop env mw C nw dt (S i) rest a1) as [rest' a2] eqn:E2.
    injection H as <- <-.
    destruct (layout_entry_keeps _ _ _ _ _ E1) as (_ & H1 & H2 & H3).
    destruct (IH _ _ _ _ E2) as (G1 & G2 & G3).
    simpl. repeat split; congruence.
Qed.

End LayoutAgain.

(** X3: [do_layout] is idempotent: run again with the same arguments on
    the widget it has returned, it returns that widget unchanged. *)
Theorem do_layout_idempotent (env : Env) (n : nat) (no_wrap_rows : bool)
    (mw num_columns : Z) (u u' : UIMenu) :
  do_layout env n no_wrap_rows mw num_columns u = Some u' ->
  do_layout env n no_wrap_rows mw num_columns u' = Some u'.
Proof.
  intros H. pose proof H as H0. unfold do_layout in H0.
  destruct (num_columns =? 0) eqn:Ec; [discriminate |].
  destruct (Nat.ltb_spec (List.length (item_info u)) n) as [Hn | Hn];
    [discriminate |].
  destruct (layout_loop env mw num_columns no_wrap_rows (m_draw_tiles u) 0
              (firstn n (item_info u))
              (mkAcc (-1) 0 0 0 [] (m_scroll_context u))) as [infos a] eqn:E.
  assert (Hu : u' =
    mkUI (l_height (layout_finish a)) (m_hover_idx u) (m_min_col_width u)
         (m_force_scroll u) (m_initial_hover_snap u)
         (l_scroll_context (layout_finish a))
         (Z.max (if 0 <? m_min_col_width u then m_min_col_width u else 400)
                (Z.min (l_column_width (layout_finish a))
                       (Z.quot mw num_columns)))
         (m_num_columns u) (infos ++ skipn n (item_info u))
         (l_row_heights (layout_finish a))
         (m_mouse_x u) (m_mouse_y u) (m_draw_tiles u)
         (m_region_x u) (m_region_y u) (m_region_width u)
         (m_region_height u))
    by (injection H0 as <-; reflexivity).
  clear H0 H. subst u'.
  destruct (layout_loop_keeps _ _ _ _ _ _ _ _ _ _ E) as (_ & Hlen).
  rewrite length_firstn, Nat.min_l in Hlen by lia.
  destruct (layout_loop_maps _ _ _ _ _ _ _ _ _ _ E) as (G1 & G2 & G3).
  assert (HS : l_scroll_context a <= l_scroll_context (layout_finish a))
    by (unfold layout_finish; simpl; lia).
  pose proof (layout_loop_again env mw num_columns no_wrap_rows (m_draw_tiles u)
                (firstn n (item_info u)) 0%nat _ infos a _ infos E HS G1 G2 G3)
    as E2.
  cbn [l_column l_column_width l_row_height l_height l_row_heights] in E2.
  unfold do_layout. rewrite Ec.
  cbn [item_info m_min_col_width m_draw_tiles m_scroll_context
    m_hover_idx m_force_scroll m_initial_hover_snap m_num_columns m_mouse_x
    m_mouse_y m_region_x m_region_y m_region_width m_region_height].
  destruct (Nat.ltb_spec (List.length (infos ++ skipn n (item_info u))) n)
    as [Hn' | _]; [rewrite length_app in Hn'; lia |].
  rewrite firstn_app, firstn_all2 by lia.
  replace (n - List.length infos)%nat with 0%nat by lia.
  rewrite firstn_O, app_nil_r.
  rewrite skipn_app, skipn_all2 by lia.
  replace (n - List.length infos)%nat with 0%nat by lia.
  cbn [skipn app].
  rewrite E2.
  f_equal. unfold layout_finish.
  cbn [l_column l_column_width l_row_height l_height l_row_heights
       l_scroll_context].
  f_equal. lia.
Qed.

Section ScrollContext.

Variable env : Env.
Variable C : Z.
Hypothesis C_pos : 0 < C.
Hypothesis text_height_nonneg : 0 <= char_height env.

Lemma row_gaps_weaken rhs b1 b2 :
  b1 <= b2 -> row_gaps_within rhs b1 -> row_gaps_within rhs b2.
Proof.
  intros Hb H i a b Ha Hb'. specialize (H i a b Ha Hb'). lia.
Qed.

Lemma row_gaps_snoc rhs h d sc :
  last rhs 0 = h \/ rhs = [] ->
  row_gaps_within rhs sc -> row_gaps_within (rhs ++ [h + d]) (Z.max sc d).
Proof.
  intros Hlast H i a b Ha Hb.
  destruct (Nat.lt_ge_cases (S i) (List.length rhs)) as [Hi | Hi].
  - rewrite nth_error_app1 in Ha, Hb by lia.
    specialize (H i a b Ha Hb). lia.
  - assert (Hlen : S i = List.length rhs).
    { assert (S i < List.length (rhs ++ [(h + d)%Z]))%nat
        by (apply nth_error_Some; congruence).
      rewrite length_app in *. simpl in *. lia. }
    rewrite nth_error_app2 in Hb by lia.
    replace (S i - List.length rhs)%nat with 0%nat in Hb by lia.
    simpl in Hb. injection Hb as <-.
    rewrite nth_error_app1 in Ha by lia.
    destruct Hlast as [Hlast | ->]; [| simpl in Hlen; lia].
    assert (a = h).
    { rewrite <- Hlast.
      destruct (exists_last (l := rhs)) as (l' & z & ->).
      { intros ->. simpl in Hlen. lia. }
      rewrite last_last.
      rewrite length_app in Hlen. simpl in Hlen.
      rewrite nth_error_app2 in Ha by lia.
      replace (i - List.length l')%nat with 0%nat in Ha by lia.
      simpl in Ha. congruence. }
    lia.
Qed.

Lemma layout_entry_gaps mw nw dt i e a e' a' :
  acc_ok env C a ->
  row_gaps_within (l_row_heights a) (l_scroll_context a) ->
  layout_entry env mw C nw dt i e a = (e', a') ->
  row_gaps_within (l_row_heights a') (l_scroll_context a').
Proof.
  intros Hok Hg H.
  destruct Hok as (_ & _ & _ & _ & _ & _ & Hlast & _).
  pose proof (row_gaps_snoc (l_row_heights a) (l_height a)
                (l_row_height a + (if l_row_height a =? 0 then 0 else 2 * item_pad))
                (l_scroll_context a) (or_introl Hlast) Hg) as Hpush.
  unfold layout_entry in H.
  destruct (heading e).
  - simpl in H. injection H as <- <-. simpl. exact Hpush.
  - destruct (Z.rem (l_column a + 1) C =? 0); simpl in H;
      destruct (negb nw && _); try destruct (wrap_item _ _ _ _ _);
      injection H as <- <-; simpl; assumption.
Qed.

Lemma layout_loop_gaps mw nw dt infos :
  forall i a es a',
  acc_ok env C a ->
  row_gaps_within (l_row_heights a) (l_scroll_context a) ->
  layout_loop env mw C nw dt i infos a = (es, a') ->
  acc_ok env C a' /\
  row_gaps_within (l_row_heights a') (l_scroll_context a').
Proof.
  induction infos as [| e rest IH]; intros i a es a' Hok Hg H; simpl in H.
  - injection H as <- <-. split; assumption.
  - destruct (layout_entry env mw C nw dt i e a) as [e1 a1] eqn:E1.
    destruct (layout_loop env mw C nw dt (S i) rest a1) as [rest' a2] eqn:E2.
    injection H as <- <-.
    destruct (layout_entry_spec env C C_pos text_height_nonneg
                _ _ _ _ _ _ _ _ Hok E1) as (Hok1 & _).
    apply (IH _ _ _ _ Hok1 (layout_entry_gaps _ _ _ _ _ _ _ _ Hok Hg E1) E2).
Qed.

End ScrollContext.

(** X4: after [do_layout] no row is taller than [m_scroll_context], and
    [do_layout] never lowers [m_scroll_context]. *)
Theorem scroll_context_covers_rows (env : Env) (n : nat) (no_wrap_rows : bool)
    (mw C : Z) (u : UIMenu) :
  0 < C -> 0 <= char_height env ->
  (n <= List.length (item_info u))%nat ->
  exists u', do_layout env n no_wrap_rows mw C u = Some u' /\
    m_scroll_context u <= m_scroll_context u' /\
    row_gaps_within (row_heights u') (m_scroll_context u').
Proof.
  intros HC Hch Hn. unfold do_layout.
  destruct (Z.eqb_spec C 0) as [E | _]; [lia |].
  destruct (Nat.ltb_spec (List.length (item_info u)) n) as [E | _]; [lia |].
  destruct (layout_loop env mw C no_wrap_rows (m_draw_tiles u) 0
              (firstn n (item_info u))
              (mkAcc (-1) 0 0 0 [] (m_scroll_context u))) as [es a] eqn:Hloop.
  eexists. split; [reflexivity |].
  cbn [m_scroll_context row_heights].
  destruct (layout_loop_gaps env C HC Hch _ _ _ _ _ _ _ _
              (acc_ok_init env C HC _) ltac:(intros [| i] ? ? ?; discriminate)
              Hloop) as (Hok & Hg).
  split.
  - destruct (layout_loop_keeps _ _ _ _ _ _ _ _ _ _ Hloop) as (Hm & _).
    unfold layout_finish. simpl in *. lia.
  - unfold layout_finish. cbn [l_row_heights l_scroll_context].
    apply row_gaps_snoc; [| exact Hg].
    destruct Hok as (_ & _ & _ & _ & _ & _ & Hlast & _). left. exact Hlast.
Qed.

(** ** Rows in view *)

Section LaidOut.

Variable C : Z.
Variable infos : list MenuItemInfo.
Variable rhs : list Z.
Hypothesis C_pos : 0 < C.
Hypothesis wf : layout_wf C infos rhs.

Local Abbreviation n := (List.length infos).
Local Abbreviation inf := (entry_at infos).
Local Abbreviation bot := (row_bottom infos rhs).

Lemma laid_entry i :
  (i < n)%nat ->
  0 <= row (inf i) /\ at_ rhs (row (inf i)) = Some (y (inf i)) /\
  at_ rhs (row (inf i) + 1) = Some (bot i).
Proof.
  intros Hi. destruct wf as (_ & Hall & _).
  rewrite Forall_forall in Hall.
  destruct (Hall (inf i)) as (H1 & H2 & H3); [apply nth_In; exact Hi |].
  split; [exact H1 |]. split; [exact H2 |].
  unfold at_, row_bottom. destruct (Z.ltb_spec (row (inf i) + 1) 0); [lia |].
  apply nth_error_nth'. unfold size in H3. lia.
Qed.

Lemma laid_row_step i :
  (S i < n)%nat -> row (inf i) <= row (inf (S i)).
Proof.
  intros Hi. destruct wf as (Hch & _).
  destruct (chain_index C C_pos _ _ _ Hch ltac:(lia)) as (_ & Hs & _).
  destruct (Hs i (inf i) (inf (S i)) (nth_inf infos i ltac:(lia))
              (nth_inf infos (S i) Hi)) as (_ & _ & H3).
  rewrite H3. destruct (column (inf (S i)) =? 0); lia.
Qed.

Lemma laid_row_mono i j :
  (i <= j)%nat -> (j < n)%nat -> row (inf i) <= row (inf j).
Proof.
  induction 1 as [| j Hle IH]; intros Hj; [lia |].
  pose proof (laid_row_step j Hj). specialize (IH ltac:(lia)). lia.
Qed.

Lemma laid_rhs_le r1 r2 v1 v2 :
  r1 <= r2 -> at_ rhs r1 = Some v1 -> at_ rhs r2 = Some v2 -> v1 <= v2.
Proof.
  intros Hr H1 H2. destruct wf as (_ & _ & Hm).
  destruct (Z.eq_dec r1 r2) as [-> | Hne]; [rewrite H1 in H2; injection H2; lia |].
  pose proof (at_lt_size _ _ _ H1). pose proof (at_lt_size _ _ _ H2).
  unfold at_ in H1, H2.
  destruct (r1 <? 0); [discriminate |]. destruct (r2 <? 0); [discriminate |].
  exact (Hm (Z.to_nat r1) (Z.to_nat r2) v1 v2 ltac:(lia) H1 H2).
Qed.

Lemma laid_y_mono i j :
  (i <= j)%nat -> (j < n)%nat -> y (inf i) <= y (inf j).
Proof.
  intros Hij Hj.
  destruct (laid_entry i ltac:(lia)) as (_ & Hi' & _).
  destruct (laid_entry j Hj) as (_ & Hj' & _).
  exact (laid_rhs_le _ _ _ _ (laid_row_mono i j Hij Hj) Hi' Hj').
Qed.

Lemma laid_bot_mono i j :
  (i <= j)%nat -> (j < n)%nat -> bot i <= bot j.
Proof.
  intros Hij Hj.
  destruct (laid_entry i ltac:(lia)) as (_ & _ & Hi').
  destruct (laid_entry j Hj) as (_ & _ & Hj').
  pose proof (laid_row_mono i j Hij Hj).
  apply (laid_rhs_le (row (inf i) + 1) (row (inf j) + 1) _ _);
    [lia | exact Hi' | exact Hj'].
Qed.

Lemma laid_y_le_bot i : (i < n)%nat -> y (inf i) <= bot i.
Proof.
  intros Hi. destruct (laid_entry i Hi) as (_ & H1 & H2).
  apply (laid_rhs_le (row (inf i)) (row (inf i) + 1) _ _); [lia | exact H1 | exact H2].
Qed.

Lemma range_min_spec s :
  forall m k, (k + m = n)%nat ->
  (vis_min_loop rhs s (skipn k infos) (Z.of_nat k) = Some None /\
   forall i, (k <= i < n)%nat -> bot i <= s) \/
  (exists i0, (k <= i0 < n)%nat /\
     vis_min_loop rhs s (skipn k infos) (Z.of_nat k) = Some (Some (Z.of_nat i0)) /\
     s < bot i0 /\ forall i, (k <= i < i0)%nat -> bot i <= s).
Proof.
  induction m as [| m IH]; intros k Hk.
  - left. rewrite skipn_all2 by lia. split; [reflexivity |].
    intros i Hi. lia.
  - rewrite (skipn_cons infos k default_info) by lia. fold (inf k).
    cbn [vis_min_loop].
    destruct (laid_entry k ltac:(lia)) as (_ & _ & Hb). rewrite Hb.
    destruct (Z.ltb_spec s (bot k)) as [Hlt | Hge].
    + right. exists k. repeat split; try lia.
    + replace (Z.of_nat k + 1) with (Z.of_nat (S k)) by lia.
      destruct (IH (S k) ltac:(lia)) as [(E & Hall) | (i0 & Hi0 & E & Hs & Hall)].
      * left. split; [exact E |]. intros i Hi.
        destruct (Nat.eq_dec i k) as [-> | Hne]; [exact Hge | apply Hall; lia].
      * right. exists i0. split; [lia |]. split; [exact E |]. split; [exact Hs |].
        intros i Hi.
        destruct (Nat.eq_dec i k) as [-> | Hne]; [exact Hge | apply Hall; lia].
Qed.

Lemma range_max_spec t :
  forall m k, (k + m = n)%nat ->
  (vis_max_loop rhs t (skipn k infos) (Z.of_nat k) = Some None /\
   forall i, (k <= i < n)%nat -> y (inf i) < t) \/
  (exists i1, (k <= i1 < n)%nat /\
     vis_max_loop rhs t (skipn k infos) (Z.of_nat k) = Some (Some (Z.of_nat i1)) /\
     t <= y (inf i1) /\ forall i, (k <= i < i1)%nat -> y (inf i) < t).
Proof.
  induction m as [| m IH]; intros k Hk.
  - left. rewrite skipn_all2 by lia. split; [reflexivity |].
    intros i Hi. lia.
  - rewrite (skipn_cons infos k default_info) by lia. fold (inf k).
    cbn [vis_max_loop].
    destruct (laid_entry k ltac:(lia)) as (_ & Hy & _). rewrite Hy.
    destruct (Z.leb_spec t (y (inf k))) as [Hle | Hgt].
    + right. exists k. repeat split; try lia.
    + replace (Z.of_nat k + 1) with (Z.of_nat (S k)) by lia.
      destruct (IH (S k) ltac:(lia)) as [(E & Hall) | (i1 & Hi1 & E & Ht & Hall)].
      * left. split; [exact E |]. intros i Hi.
        destruct (Nat.eq_dec i k) as [-> | Hne]; [exact Hgt | apply Hall; lia].
      * right. exists i1. split; [lia |]. split; [exact E |]. split; [exact Ht |].
        intros i Hi.
        destruct (Nat.eq_dec i k) as [-> | Hne]; [exact Hgt | apply Hall; lia].
Qed.

End LaidOut.

(** X5: on a layout made by [do_layout], [is_visible_item_range] returns
    bounds [lo <= hi] within the list.  If some row ends below the scroll
    offset, the range holds exactly the entries whose row ends below the
    scroll offset and starts above the lower edge of the viewport; if no
    row does (the view is scrolled past the last row), the range is the
    whole list. *)
Theorem visible_range_is_rows_in_view (C : Z) (u : UIMenu) (sc : Scroller) :
  0 < C -> layout_wf C (item_info u) (row_heights u) ->
  exists lo hi : nat,
    is_visible_item_range (size (item_info u)) sc u
      = Some (Z.of_nat lo, Z.of_nat hi) /\
    (lo <= hi <= List.length (item_info u))%nat /\
    ((exists i, (i < List.length (item_info u))%nat /\
                m_scroll sc < row_bottom (item_info u) (row_heights u) i) ->
     forall i, (i < List.length (item_info u))%nat ->
       ((lo <= i < hi)%nat <->
        m_scroll sc < row_bottom (item_info u) (row_heights u) i /\
        y (entry_at (item_info u) i) < m_scroll sc + region_height sc)) /\
    ((forall i, (i < List.length (item_info u))%nat ->
                row_bottom (item_info u) (row_heights u) i <= m_scroll sc) ->
     lo = 0%nat /\ hi = List.length (item_info u)).
Proof.
  intros HC Hwf. unfold is_visible_item_range.
  set (infos := item_info u) in *. set (rhs := row_heights u) in *.
  set (s := m_scroll sc). set (vph := region_height sc).
  destruct (range_min_spec C infos rhs Hwf s (List.length infos) 0%nat
              ltac:(lia)) as [(E & Hall) | (lo & Hlo & E & Hs & Hbefore)];
    simpl skipn in E; change (Z.of_nat 0) with 0 in E; rewrite E.
  - exists 0%nat, (List.length infos). split.
    + unfold size. rewrite Z.min_id. reflexivity.
    + split; [lia |]. split.
      * intros (i & Hi & Hlt). specialize (Hall i ltac:(lia)). lia.
      * intros _. split; reflexivity.
  - rewrite Nat2Z.id.
    destruct (range_max_spec C infos rhs Hwf (s + vph)
                (List.length infos - lo) lo ltac:(lia))
      as [(E2 & Hall2) | (hi & Hhi & E2 & Ht & Hbefore2)]; rewrite E2.
    + exists lo, (List.length infos). split.
      * unfold size. rewrite Z.min_id. reflexivity.
      * split; [lia |]. split.
        -- intros _ i Hi. split.
           ++ intros Hr. split; [| apply Hall2; lia].
              pose proof (laid_bot_mono C infos rhs HC Hwf lo i ltac:(lia) Hi).
              lia.
           ++ intros (Hb & _).
              destruct (Nat.lt_ge_cases i lo) as [Hlt | Hge]; [| lia].
              specialize (Hbefore i ltac:(lia)). lia.
        -- intros Hno. specialize (Hno lo ltac:(lia)). lia.
    + exists lo, hi. split.
      * unfold size. rewrite Z.min_l by lia. reflexivity.
      * split; [lia |]. split.
        -- intros _ i Hi. split.
           ++ intros Hr. split; [| apply Hbefore2; lia].
              pose proof (laid_bot_mono C infos rhs HC Hwf lo i ltac:(lia) Hi).
              lia.
           ++ intros (Hb & Hy).
              destruct (Nat.lt_ge_cases i lo) as [Hlt | Hge].
              { specialize (Hbefore i ltac:(lia)). lia. }
              destruct (Nat.lt_ge_cases i hi) as [Hlt2 | Hge2]; [lia |].
              pose proof (laid_y_mono C infos rhs HC Hwf hi i Hge2 Hi). lia.
        -- intros Hno. specialize (Hno lo ltac:(lia)). lia.
Qed.

(** ** Scrolling by lines *)

Section LaidOutMenu.

Variable m : Menu.
Hypothesis lo : laid_out m.

Local Abbreviation infos := (item_info (m_ui_menu m)).
Local Abbreviation rhs := (row_heights (m_ui_menu m)).

Lemma laid_out_ready : ui_ready m.
Proof.
  destruct lo as (C & HC & Hwf & Hlen). split; [exact Hlen |].
  destruct Hwf as (_ & Hall & _).
  eapply Forall_impl; [| exact Hall]. simpl. intros e (H & _). exact H.
Qed.

Lemma laid_out_region i :
  (i < List.length (items m))%nat ->
  get_item_region m (Z.of_nat i)
  = Some (y (entry_at infos i), row_bottom infos rhs i).
Proof.
  intros Hi. destruct lo as (C & HC & Hwf & Hlen).
  unfold get_item_region. unfold size at 1.
  destruct (Z.ltb_spec (Z.of_nat i) 0); [lia |].
  destruct (Z.leb_spec (Z.of_nat (List.length (items m))) (Z.of_nat i)); [lia |].
  simpl. unfold at_ at 1. destruct (Z.ltb_spec (Z.of_nat i) 0); [lia |].
  rewrite Nat2Z.id, (nth_inf infos i) by lia.
  destruct (laid_entry C infos rhs Hwf i ltac:(lia)) as (Hrow0 & Hy & Hb).
  pose proof (at_lt_size _ _ _ Hb) as Hlt.
  destruct (Z.ltb_spec (row (entry_at infos i) + 1) 0); [lia |].
  destruct (Z.leb_spec (size rhs) (row (entry_at infos i) + 1)); [lia |].
  simpl. rewrite Hy, Hb. reflexivity.
Qed.

Lemma laid_out_top_mono i j :
  (i <= j)%nat -> (j < List.length (items m))%nat -> y (entry_at infos i) <= y (entry_at infos j).
Proof.
  destruct lo as (C & HC & Hwf & Hlen). intros Hij Hj.
  apply (laid_y_mono C infos rhs HC Hwf); lia.
Qed.

Lemma first_visible_loop_laid skip k :
  forall i, (i + k = List.length (items m))%nat ->
  exists r, first_visible_loop m skip k (Z.of_nat i) = Some (Z.of_nat r) /\
    (i <= r <= List.length (items m))%nat /\
    (forall j e, (i <= j < r)%nat -> nth_error (items m) j = Some e ->
       y (entry_at infos j) < get_scroll m \/
       (skip = true /\ is_heading_level (level e) = true)) /\
    (forall e, nth_error (items m) r = Some e ->
       get_scroll m <= y (entry_at infos r) /\
       (skip = true -> is_heading_level (level e) = false)).
Proof.
  induction k as [| k IH]; intros i Hik.
  - exists (List.length (items m)). split; [reflexivity |].
    split; [lia |]. split; [intros; lia |].
    intros e He. assert (List.length (items m) < List.length (items m))%nat
      by (apply nth_error_Some; congruence). lia.
  - cbn [first_visible_loop]. rewrite (laid_out_region i) by lia.
    replace (Z.of_nat i + 1) with (Z.of_nat (S i)) by lia.
    unfold at_. destruct (Z.ltb_spec (Z.of_nat i) 0); [lia |].
    rewrite Nat2Z.id.
    destruct (nth_error (items m) i) as [e |] eqn:Ee.
    2:{ apply nth_error_None in Ee. lia. }
    destruct (IH (S i) ltac:(lia)) as (r & Er & Hr & Hbefore & Hat).
    destruct (Z.leb_spec (get_scroll m) (y (entry_at infos i))) as [Hle | Hgt].
    + destruct (skip && is_heading_level (level e)) eqn:Es.
      * apply andb_true_iff in Es. destruct Es as [-> Hh].
        exists r. split; [exact Er |]. split; [lia |]. split; [| exact Hat].
        intros j e' Hj He'.
        destruct (Nat.eq_dec j i) as [-> | Hne].
        -- right. rewrite Ee in He'. injection He' as <-. split; [reflexivity | exact Hh].
        -- apply (Hbefore j e'); [lia | exact He'].
      * exists i. split; [reflexivity |]. split; [lia |].
        split; [intros; lia |].
        intros e' He'. rewrite Ee in He'. injection He' as <-.
        split; [exact Hle |]. intros ->. exact Es.
    + exists r. split; [exact Er |]. split; [lia |]. split; [| exact Hat].
      intros j e' Hj He'.
      destruct (Nat.eq_dec j i) as [-> | Hne]; [left; exact Hgt |].
      apply (Hbefore j e'); [lia | exact He'].
Qed.

End LaidOutMenu.

(** X6: in a laid-out menu [get_first_visible] returns the first entry
    whose row starts at or below the scroll offset (and, with
    [skip_init_headers], that is not a title or subtitle), and the number
    of entries when there is none. *)
Theorem first_visible_is_first_below_scroll (m : Menu) (skip : bool) :
  laid_out m ->
  exists r : nat,
    get_first_visible m skip = Some (Z.of_nat r) /\
    (r <= List.length (items m))%nat /\
    (forall j e, (j < r)%nat -> nth_error (items m) j = Some e ->
       y (entry_at (item_info (m_ui_menu m)) j) < get_scroll m \/
       (skip = true /\ is_heading_level (level e) = true)) /\
    (forall e, nth_error (items m) r = Some e ->
       get_scroll m <= y (entry_at (item_info (m_ui_menu m)) r) /\
       (skip = true -> is_heading_level (level e) = false)).
Proof.
  intros Hlo. unfold get_first_visible.
  destruct (first_visible_loop_laid m Hlo skip (List.length (items m)) 0%nat
              ltac:(lia)) as (r & E & Hr & Hb & Ha).
  exists r. split; [exact E |]. split; [lia |]. split; [| exact Ha].
  intros j e Hj. apply Hb. lia.
Qed.

(** X7: in a laid-out menu, with [r] the first visible index
    ([get_first_visible]): if [r] is not 0, [line_up] reports [true] and
    sets the scroll offset to the row start of entry [r - 1], which lies
    strictly above the old offset; if [r] is 0 it reports [false] and
    changes nothing, and no entry starts above the scroll offset. *)
Theorem line_up_scrolls_up (m : Menu) :
  laid_out m ->
  exists (r : nat) b m',
    get_first_visible m false = Some (Z.of_nat r) /\
    line_up m = Some (b, m') /\
    b = negb (r =? 0)%nat /\
    (b = true ->
       m' = scroller_set_scroll m
              (y (entry_at (item_info (m_ui_menu m)) (r - 1))) /\
       y (entry_at (item_info (m_ui_menu m)) (r - 1)) < get_scroll m) /\
    (b = false ->
       m' = m /\
       forall i, (i < List.length (items m))%nat ->
         get_scroll m <= y (entry_at (item_info (m_ui_menu m)) i)).
Proof.
  intros Hlo. unfold line_up, get_first_visible.
  destruct (first_visible_loop_laid m Hlo false (List.length (items m)) 0%nat
              ltac:(lia)) as (r & E & Hr & Hb & Ha).
  change (Z.of_nat 0) with 0 in E. rewrite E. exists r.
  destruct (Z.ltb_spec 0 (Z.of_nat r)) as [Hpos | H0].
  - replace (Z.of_nat r - 1) with (Z.of_nat (r - 1)) by lia.
    rewrite (laid_out_region m Hlo (r - 1)) by lia.
    eexists _, _. split; [reflexivity |]. split; [reflexivity |].
    split; [destruct r; [lia | reflexivity] |].
    split; [| discriminate].
    intros _. split; [reflexivity |].
    destruct (nth_error (items m) (r - 1)) as [e |] eqn:Ee.
    2:{ apply nth_error_None in Ee. lia. }
    destruct (Hb (r - 1)%nat e ltac:(lia) Ee) as [Hlt | [Hf _]];
      [exact Hlt | discriminate].
  - assert (r = 0%nat) by lia. subst r.
    exists false, m. split; [reflexivity |]. split; [reflexivity |].
    split; [reflexivity |]. split; [discriminate |].
    intros _. split; [reflexivity |]. intros i Hi.
    destruct (nth_error (items m) 0) as [e |] eqn:Ee.
    2:{ apply nth_error_None in Ee. lia. }
    destruct (Ha e eq_refl) as (Hle & _).
    pose proof (laid_out_top_mono m Hlo 0 i ltac:(lia) Hi). lia.
Qed.

(** X8: in a laid-out menu in which some entry starts at or below the
    scroll offset, [line_down] either reports [true] and moves the scroll
    offset strictly down, or reports [false] and changes nothing; when no
    entry starts at or below the scroll offset, the range check of
    [get_item_region] fails. *)
Theorem line_down_scrolls_down (m : Menu) :
  laid_out m ->
  ((exists i, (i < List.length (items m))%nat /\
              get_scroll m <= y (entry_at (item_info (m_ui_menu m)) i)) ->
   exists b m', line_down m = Some (b, m') /\
     (b = true ->
        exists s, m' = scroller_set_scroll m s /\ get_scroll m < s) /\
     (b = false -> m' = m)) /\
  ((forall i, (i < List.length (items m))%nat ->
              y (entry_at (item_info (m_ui_menu m)) i) < get_scroll m) ->
   line_down m = None).
Proof.
  intros Hlo. unfold line_down, get_first_visible.
  destruct (first_visible_loop_laid m Hlo false (List.length (items m)) 0%nat
              ltac:(lia)) as (r & E & Hr & Hb & Ha).
  change (Z.of_nat 0) with 0 in E. rewrite E.
  split.
  - intros (i & Hi & Hle).
    assert (Hrn : (r < List.length (items m))%nat).
    { destruct (Nat.lt_ge_cases r (List.length (items m))) as [H | H]; [exact H |].
      destruct (nth_error (items m) i) as [e |] eqn:Ee.
      2:{ apply nth_error_None in Ee. lia. }
      destruct (Hb i e ltac:(lia) Ee) as [Hlt | [Hf _]]; [lia | discriminate]. }
    rewrite (laid_out_region m Hlo r Hrn).
    destruct (nth_error (items m) r) as [e |] eqn:Ee.
    2:{ apply nth_error_None in Ee. lia. }
    destruct (Ha e eq_refl) as (Hsr & _).
    assert (Hloop : forall k j, (j + k = List.length (items m))%nat ->
              (r < j)%nat ->
              exists b m',
                line_down_loop m (y (entry_at (item_info (m_ui_menu m)) r)) k
                               (Z.of_nat j) = Some (b, m') /\
                (b = true ->
                   exists s, m' = scroller_set_scroll m s /\ get_scroll m < s) /\
                (b = false -> m' = m)).
    { induction k as [| k IH]; intros j Hjk Hj.
      - exists false, m. split; [reflexivity |]. split; [discriminate | reflexivity].
      - cbn [line_down_loop]. rewrite (laid_out_region m Hlo j) by lia.
        destruct (Z.eqb_spec (y (entry_at (item_info (m_ui_menu m)) j))
                             (y (entry_at (item_info (m_ui_menu m)) r)))
          as [Heq | Hne].
        + replace (Z.of_nat j + 1) with (Z.of_nat (S j)) by lia.
          apply IH; lia.
        + eexists _, _. split; [reflexivity |]. split; [| discriminate].
          intros _. eexists. split; [reflexivity |].
          pose proof (laid_out_top_mono m Hlo r j ltac:(lia) ltac:(lia)). lia. }
    replace (Z.of_nat r + 1) with (Z.of_nat (S r)) by lia.
    replace (Z.to_nat (size (items m) - Z.of_nat (S r)))
      with (List.length (items m) - S r)%nat by (unfold size; lia).
    apply Hloop; lia.
  - intros Hall.
    assert (r = List.length (items m)).
    { destruct (Nat.lt_ge_cases r (List.length (items m))) as [H | H]; [| lia].
      destruct (nth_error (items m) r) as [e |] eqn:Ee.
      2:{ apply nth_error_None in Ee. lia. }
      destruct (Ha e eq_refl) as (Hsr & _). specialize (Hall r H). lia. }
    subst r. unfold get_item_region.
    destruct (Z.ltb_spec (Z.of_nat (List.length (items m))) 0); [reflexivity |].
    destruct (Z.leb_spec (size (items m)) (Z.of_nat (List.length (items m))));
      [reflexivity | unfold size in *; lia].
Qed.

(** ** Bringing an entry into view *)

(** X9: in a menu whose viewport height is known, [set_scroll] on a valid
    index puts the scroll offset half a shade above the region of the
    entry (its row and the headers right before it), whatever the offset
    was; the entry is then visible ([item_visible]) provided the region
    fits the viewport under the shade. *)
Theorem set_scroll_makes_visible (env : Env) (m : Menu) (index y1 y2 : Z) :
  viewport_height m <> 0 ->
  0 <= index < size (items m) ->
  region_with_headers m index = Some (y1, y2) ->
  exists m',
    set_scroll env m index = Some (negb (get_scroll m =? y1), m') /\
    m' = scroller_set_scroll m (y1 - Z.quot (UI_SCROLLER_SHADE_SIZE env) 2) /\
    (0 <= Z.quot (UI_SCROLLER_SHADE_SIZE env) 2 ->
     y2 - y1 + Z.quot (UI_SCROLLER_SHADE_SIZE env) 2 < viewport_height m ->
     item_visible m' index = Some true).
Proof.
  intros Hv Hi Hreg. unfold set_scroll.
  destruct (Z.eqb_spec (viewport_height m) 0); [contradiction |].
  destruct (Z.ltb_spec index 0); [lia |].
  destruct (Z.leb_spec (size (items m)) index); [lia |]. simpl orb. cbv iota.
  rewrite Hreg. eexists. split; [reflexivity |]. split; [reflexivity |].
  intros Hs Hfit. unfold item_visible.
  change (viewport_height (scroller_set_scroll m _)) with (viewport_height m).
  change (items (scroller_set_scroll m _)) with (items m).
  destruct (Z.eqb_spec (viewport_height m) 0); [contradiction |].
  destruct (Z.ltb_spec index 0); [lia |].
  destruct (Z.leb_spec (size (items m)) index); [lia |]. simpl orb. cbv iota.
  rewrite region_with_headers_scroll, Hreg.
  change (get_scroll (scroller_set_scroll m ?s)) with s.
  unfold get_scroll, scroller_set_scroll. simpl.
  f_equal. apply andb_true_iff. split; [apply Z.leb_le | apply Z.ltb_lt]; lia.
Qed.

(** X10: [set_scroll] called a second time leaves the menu as the first
    call left it, but still reports a change unless half the shade is
    zero: it compares the old offset with the top of the region, not with
    the offset it sets. *)
Theorem set_scroll_twice (env : Env) (m : Menu) (index y1 y2 : Z) :
  viewport_height m <> 0 ->
  0 <= index < size (items m) ->
  region_with_headers m index = Some (y1, y2) ->
  exists b m',
    set_scroll env m index = Some (b, m') /\
    set_scroll env m' index
    = Some (negb (Z.quot (UI_SCROLLER_SHADE_SIZE env) 2 =? 0), m').
Proof.
  intros Hv Hi Hreg. unfold set_scroll at 1.
  destruct (Z.eqb_spec (viewport_height m) 0); [contradiction |].
  destruct (Z.ltb_spec index 0); [lia |].
  destruct (Z.leb_spec (size (items m)) index); [lia |]. simpl orb. cbv iota.
  rewrite Hreg. eexists _, _. split; [reflexivity |].
  unfold set_scroll.
  change (viewport_height (scroller_set_scroll m _)) with (viewport_height m).
  change (items (scroller_set_scroll m _)) with (items m).
  destruct (Z.eqb_spec (viewport_height m) 0); [contradiction |].
  destruct (Z.ltb_spec index 0); [lia |].
  destruct (Z.leb_spec (size (items m)) index); [lia |]. simpl orb. cbv iota.
  rewrite region_with_headers_scroll, Hreg.
  unfold get_scroll, scroller_set_scroll. simpl.
  f_equal. f_equal.
  set (s := Z.quot (UI_SCROLLER_SHADE_SIZE env) 2).
  destruct (Z.eqb_spec s 0) as [-> | Hne].
  - rewrite Z.sub_0_r, Z.eqb_refl. reflexivity.
  - destruct (Z.eqb_spec (y1 - s) y1); [lia | reflexivity].
Qed.

(** X11: [snap_in_page] on a valid index reports a change exactly when
    the entry was not visible ([item_visible]); afterwards the entry is
    visible, provided half the shade is positive and the region of the
    entry fits the viewport under it.  The scroll offset and the viewport
    height are any [int] values (the sum of the two may overflow, as it
    does at the offset [INT_MAX]); the region lies between 0 and [INT_MAX]
    minus the viewport height. *)
Theorem snap_in_page_makes_visible (env : Env) (m : Menu) (index y1 y2 : Z) :
  0 < viewport_height m <= INT_MAX ->
  INT_MIN <= get_scroll m <= INT_MAX ->
  0 <= index < size (items m) ->
  region_with_headers m index = Some (y1, y2) ->
  0 <= y1 <= y2 -> y2 + viewport_height m <= INT_MAX ->
  exists b m',
    snap_in_page env m index = Some (b, m') /\
    item_visible m index = Some (negb b) /\
    (0 < Z.quot (UI_SCROLLER_SHADE_SIZE env) 2 ->
     y2 - y1 < viewport_height m - Z.quot (UI_SCROLLER_SHADE_SIZE env) 2 ->
     item_visible m' index = Some true).
Proof.
  intros Hv Hs Hi Hreg Hy Hmax. unfold snap_in_page.
  destruct (Z.eqb_spec (viewport_height m) 0); [lia |].
  destruct (Z.ltb_spec index 0); [lia |].
  destruct (Z.leb_spec (size (items m)) index); [lia |]. simpl orb. cbv iota.
  rewrite Hreg.
  assert (Hvis : forall s,
            item_visible (scroller_set_scroll m s) index
            = Some ((s <=? y1) && (y2 <? s + viewport_height m))).
  { intros s. unfold item_visible.
    change (viewport_height (scroller_set_scroll m s)) with (viewport_height m).
    change (items (scroller_set_scroll m s)) with (items m).
    destruct (Z.eqb_spec (viewport_height m) 0); [lia |].
    destruct (Z.ltb_spec index 0); [lia |].
    destruct (Z.leb_spec (size (items m)) index); [lia |]. simpl orb. cbv iota.
    rewrite region_with_headers_scroll, Hreg. reflexivity. }
  assert (Hvis0 : item_visible m index
                  = Some ((get_scroll m <=? y1)
                          && (y2 <? get_scroll m + viewport_height m))).
  { unfold item_visible.
    destruct (Z.eqb_spec (viewport_height m) 0); [lia |].
    destruct (Z.ltb_spec index 0); [lia |].
    destruct (Z.leb_spec (size (items m)) index); [lia |]. simpl orb. cbv iota.
    rewrite Hreg. reflexivity. }
  rewrite Hvis0.
  assert (Hwrap : (wrap_int (get_scroll m + viewport_height m) <=? y2)
                  = ((get_scroll m + viewport_height m <=? y2)
                     || (INT_MAX <? get_scroll m + viewport_height m))).
  { destruct (Z.le_gt_cases (get_scroll m + viewport_height m) INT_MAX) as [Hin | Hov].
    - rewrite wrap_int_small by (unfold INT_MIN in *; lia).
      destruct (Z.leb_spec (get_scroll m + viewport_height m) y2);
        [reflexivity |].
      destruct (Z.ltb_spec INT_MAX (get_scroll m + viewport_height m));
        [lia | reflexivity].
    - rewrite wrap_int_over by (unfold INT_MAX in *; lia).
      destruct (Z.leb_spec (get_scroll m + viewport_height m - 2 ^ 32) y2);
        [| unfold INT_MAX in *; lia].
      symmetry. apply orb_true_iff. right. apply Z.ltb_lt. lia. }
  rewrite Hwrap.
  destruct (Z.leb_spec (get_scroll m + viewport_height m) y2) as [Hup | Hup];
    [| destruct (Z.ltb_spec INT_MAX (get_scroll m + viewport_height m))
         as [Hov | Hov]];
    simpl orb; cbv iota.
  - eexists _, _. split; [reflexivity |]. split.
    + f_equal. simpl. apply andb_false_iff. right. apply Z.ltb_ge. lia.
    + intros Hsh Hfit. rewrite Hvis. f_equal. apply andb_true_iff.
      split; [apply Z.leb_le | apply Z.ltb_lt]; lia.
  - eexists _, _. split; [reflexivity |]. split.
    + f_equal. simpl. apply andb_false_iff. left. apply Z.leb_gt. lia.
    + intros Hsh Hfit. rewrite Hvis. f_equal. apply andb_true_iff.
      split; [apply Z.leb_le | apply Z.ltb_lt]; lia.
  - destruct (Z.ltb_spec y1 (get_scroll m)) as [Hdown | Hdown].
    + eexists _, _. split; [reflexivity |]. split.
      * f_equal. simpl. apply andb_false_iff. left. apply Z.leb_gt. lia.
      * intros Hsh Hfit. rewrite Hvis. f_equal. apply andb_true_iff.
        split; [apply Z.leb_le | apply Z.ltb_lt]; lia.
    + exists false, m. split; [reflexivity |].
      assert (Hv0 : (get_scroll m <=? y1)
                    && (y2 <? get_scroll m + viewport_height m) = true).
      { apply andb_true_iff.
        split; [apply Z.leb_le | apply Z.ltb_lt]; lia. }
      split; [rewrite Hv0; reflexivity |].
      intros _ _. rewrite Hvis0, Hv0. reflexivity.
Qed.

(** ** Header blocks *)

Lemma header_block_first_spec (m : Menu) (fuel : nat) :
  forall first, 0 <= first <= size (items m) -> first <= Z.of_nat fuel ->
  exists f, header_block_first m fuel first = Some f /\ 0 <= f <= first /\
    (forall j e, f <= j < first -> at_ (items m) j = Some e ->
       level e <> MEL_ITEM) /\
    (forall e, at_ (items m) (f - 1) = Some e -> level e = MEL_ITEM).
Proof.
  induction fuel as [| fuel IH]; intros first Hf Hfuel.
  - assert (first = 0) by lia. subst first.
    exists 0. split; [reflexivity |]. split; [lia |].
    split; [intros; lia |]. intros e He. unfold at_ in He. simpl in He.
    discriminate.
  - cbn [header_block_first].
    destruct (Z.leb_spec 1 first) as [H1 | H1].
    + destruct (at_in_range (items m) (first - 1)) as [e He]; [lia |].
      rewrite He. destruct (level_eqb (level e) MEL_ITEM) eqn:El; simpl.
      * exists first. split; [reflexivity |]. split; [lia |].
        split; [intros; lia |]. intros e' He'. rewrite He in He'.
        injection He' as <-. apply level_eqb_eq. exact El.
      * destruct (IH (first - 1)) as (f & Ef & Hr & Hall & Hprev); [lia | lia |].
        exists f. split; [exact Ef |]. split; [lia |]. split; [| exact Hprev].
        intros j e' Hj He'.
        destruct (Z.eq_dec j (first - 1)) as [-> | Hne].
        -- rewrite He in He'. injection He' as <-. intros Hl.
           apply level_eqb_eq in Hl. congruence.
        -- apply (Hall j e'); [lia | exact He'].
    + assert (first = 0) by lia. subst first.
      exists 0. split; [reflexivity |]. split; [lia |].
      split; [intros; lia |]. intros e He. unfold at_ in He. simpl in He.
      discriminate.
Qed.

Lemma header_block_last_spec (m : Menu) (fuel : nat) :
  forall last, 0 <= last < size (items m) ->
  size (items m) - 1 - last <= Z.of_nat fuel ->
  exists l, header_block_last m fuel last = Some l /\
    last <= l < size (items m) /\
    (forall j e, last <= j < l -> at_ (items m) j = Some e ->
       level e <> MEL_ITEM) /\
    (l = size (items m) - 1 \/
     exists e, at_ (items m) l = Some e /\ level e = MEL_ITEM).
Proof.
  induction fuel as [| fuel IH]; intros last Hl Hfuel.
  - exists last. split; [reflexivity |]. split; [lia |].
    split; [intros; lia |]. left. lia.
  - cbn [header_block_last].
    destruct (Z.ltb_spec (last + 1) (size (items m))) as [H1 | H1].
    + destruct (at_in_range (items m) last) as [e He]; [lia |].
      rewrite He. destruct (level_eqb (level e) MEL_ITEM) eqn:El; simpl.
      * exists last. split; [reflexivity |]. split; [lia |].
        split; [intros; lia |]. right. exists e. split; [exact He |].
        apply level_eqb_eq. exact El.
      * destruct (IH (last + 1)) as (l & E & Hr & Hall & Hend); [lia | lia |].
        exists l. split; [exact E |]. split; [lia |]. split; [| exact Hend].
        intros j e' Hj He'.
        destruct (Z.eq_dec j last) as [-> | Hne].
        -- rewrite He in He'. injection He' as <-. intros Hl'.
           apply level_eqb_eq in Hl'. congruence.
        -- apply (Hall j e'); [lia | exact He'].
    + exists last. split; [reflexivity |]. split; [lia |].
      split; [intros; lia |]. left. lia.
Qed.

(** X12: for a valid index [get_header_block] returns a range
    [[first, last]] of valid indices around the index: [first] is the start
    of the run of entries other than [MEL_ITEM] that ends right before the
    index, and [last] is the first [MEL_ITEM] entry from the index on, or
    the last entry when there is none. *)
Theorem header_block_bounds (m : Menu) (index : Z) :
  0 <= index < size (items m) ->
  exists first last,
    get_header_block m index = Some (first, last) /\
    0 <= first <= index /\ index <= last < size (items m) /\
    (forall j e, first <= j < index \/ index <= j < last ->
       at_ (items m) j = Some e -> level e <> MEL_ITEM) /\
    (forall e, at_ (items m) (first - 1) = Some e -> level e = MEL_ITEM) /\
    (last = size (items m) - 1 \/
     exists e, at_ (items m) last = Some e /\ level e = MEL_ITEM).
Proof.
  intros Hi. unfold get_header_block.
  destruct (header_block_first_spec m (Z.to_nat index) index ltac:(lia)
              ltac:(lia)) as (f & Ef & Hf & Hfa & Hfp).
  destruct (header_block_last_spec m (Z.to_nat (size (items m) - index)) index
              Hi ltac:(lia)) as (l & El & Hl & Hla & Hle).
  rewrite Ef, El. exists f, l. split; [reflexivity |].
  split; [exact Hf |]. split; [exact Hl |]. split; [| split; assumption].
  intros j e [Hj | Hj] He; [apply (Hfa j e Hj He) | apply (Hla j e Hj He)].
Qed.

(** ** Mode cycling *)

(** X13: cycling the mode there and back restores it.  With
    [CYCLE_CYCLE] and a mode in range, one step gives another mode in
    range and the opposite step undoes it; with [CYCLE_TOGGLE] and a mode
    that is [ACT_EXECUTE] or [ACT_EXAMINE], two steps restore the mode.
    Every step clears [sel] and reports [true]. *)
Theorem cycle_mode_round_trip (m : Menu) (forward : bool) :
  (action_cycle m = CYCLE_CYCLE /\ 0 <= menu_action m < ACT_NUM) \/
  (action_cycle m = CYCLE_TOGGLE /\
   (menu_action m = ACT_EXECUTE \/ menu_action m = ACT_EXAMINE)) ->
  exists m1 m2,
    cycle_mode m forward = Some (true, m1) /\
    cycle_mode m1 (negb forward) = Some (true, m2) /\
    0 <= menu_action m1 < ACT_NUM /\ menu_action m1 <> menu_action m /\
    sel m1 = [] /\ items m1 = items m /\
    menu_action m2 = menu_action m.
Proof.
  intros H. destruct m as [fl it sl nm lc lh sf kf oss ac ma u scr].
  unfold ACT_NUM, ACT_EXECUTE, ACT_EXAMINE in H. simpl in H.
  destruct H as [(-> & Ha) | (-> & Ha)].
  - assert (Hcases : ma = 0 \/ ma = 1 \/ ma = 2) by lia.
    destruct forward; destruct Hcases as [-> | [-> | ->]];
      eexists _, _; (split; [reflexivity |]); (split; [reflexivity |]);
      vm_compute; repeat split; try discriminate; reflexivity.
  - destruct Ha as [-> | ->];
      eexists _, _; (split; [reflexivity |]); (split; [reflexivity |]);
      vm_compute; repeat split; try discriminate; reflexivity.
Qed.

(** ** Clearing and bulk selection *)

Section SelectionFacts.

Variable env : Env.

(** The widget half of [update_item]: only the layout records change. *)
Lemma update_item_exact m i :
  ui_ready m -> 0 <= i < size (items m) ->
  exists u', update_item env m i = Some (set_ui_menu m u') /\
    ui_ready (set_ui_menu m u').
Proof.
  intros Hr Hi.
  destruct (update_item_spec env m i Hr Hi) as (m' & E & (F & _) & Hit & _).
  pose proof (frame_ui_ready _ _ F Hr) as Hr'.
  unfold update_item in *.
  destruct (size (items m) <=? i); [discriminate |].
  destruct (at_ (items m) i); [| discriminate].
  destruct (at_ (resize_info _ _) i); [| discriminate].
  injection E as <-. eexists. split; [reflexivity | exact Hr'].
Qed.

Lemma select_item_index_exact m idx qty e :
  ui_ready m -> at_ (items m) idx = Some e ->
  exists u',
    select_item_index env m idx qty
    = Some (set_ui_menu
              (set_items m (set_nth (items m) (Z.to_nat idx) (select e qty)))
              u') /\
    ui_ready (set_ui_menu
                (set_items m (set_nth (items m) (Z.to_nat idx) (select e qty)))
                u').
Proof.
  intros Hr He. unfold select_item_index. rewrite He.
  pose proof (at_lt_size _ _ _ He) as Hi.
  apply update_item_exact.
  - destruct Hr as [Hlen Hrows]. split; [| exact Hrows].
    simpl. rewrite length_set_nth. exact Hlen.
  - simpl. unfold size. rewrite length_set_nth. exact Hi.
Qed.

Lemma deselect_loop_exact uv k :
  forall i m, ui_ready m -> (i + k = List.length (items m))%nat ->
  exists m', deselect_loop env uv k (Z.of_nat i) m = Some m' /\
    ui_ready m' /\ List.length (items m') = List.length (items m) /\
    m' = set_ui_menu (set_items m (items m')) (m_ui_menu m') /\
    forall j e, nth_error (items m) j = Some e ->
      nth_error (items m') j
      = Some (if (i <=? j)%nat && level_eqb (level e) MEL_ITEM && selected e
              then select e 0 else e).
Proof.
  induction k as [| k IH]; intros i m Hr Hik.
  - exists m. split; [reflexivity |]. split; [exact Hr |].
    split; [reflexivity |].
    split; [destruct m as [fl its sl nm lc lh sf kf oss ac ma u scr]; reflexivity |].
    intros j e Hj.
    assert (j < List.length (items m))%nat by (apply nth_error_Some; congruence).
    destruct (Nat.leb_spec i j); [lia |]. exact Hj.
  - cbn [deselect_loop]. unfold at_.
    destruct (Z.ltb_spec (Z.of_nat i) 0); [lia |]. rewrite Nat2Z.id.
    destruct (nth_error (items m) i) as [e |] eqn:Ee.
    2:{ apply nth_error_None in Ee. lia. }
    replace (Z.of_nat i + 1) with (Z.of_nat (S i)) by lia.
    destruct (level_eqb (level e) MEL_ITEM && selected e) eqn:Et.
    + set (m1 := set_items m (set_nth (items m) i (select e 0))).
      assert (Hr1 : ui_ready m1).
      { destruct Hr as [Hlen Hrows]. split; [| exact Hrows].
        unfold m1. simpl. rewrite length_set_nth. exact Hlen. }
      assert (Hm2 : exists m2,
                (if uv then update_item env m1 (Z.of_nat i) else Some m1)
                = Some m2 /\ ui_ready m2 /\ items m2 = items m1 /\
                exists u2, m2 = set_ui_menu m1 u2).
      { destruct uv.
        - destruct (update_item_exact m1 (Z.of_nat i) Hr1) as (u' & E & Hr2).
          { unfold m1, size. simpl. rewrite length_set_nth. lia. }
          eexists. split; [exact E |]. split; [exact Hr2 |].
          split; [reflexivity |]. exists u'. reflexivity.
        - exists m1. split; [reflexivity |]. split; [exact Hr1 |].
          split; [reflexivity |]. exists (m_ui_menu m1).
          unfold m1. destruct m as [fl its sl nm lc lh sf kf oss ac ma u scr]. reflexivity. }
      destruct Hm2 as (m2 & -> & Hr2 & Hi2 & u2 & Hm2).
      destruct (IH (S i) m2 Hr2) as (m' & E & Hr' & Hl' & Hshape & Hn).
      { rewrite Hi2. unfold m1. simpl. rewrite length_set_nth. lia. }
      exists m'. split; [exact E |]. split; [exact Hr' |].
      split; [rewrite Hl', Hi2; unfold m1; simpl; apply length_set_nth |].
      split.
      { rewrite Hshape at 1. rewrite Hm2. unfold m1.
        destruct m as [fl its sl nm lc lh sf kf oss ac ma u scr]. reflexivity. }
      intros j e' Hj.
      destruct (Nat.eq_dec j i) as [-> | Hne].
      * rewrite Ee in Hj. injection Hj as <-.
        rewrite (Hn i (select e 0)).
        2:{ rewrite Hi2. unfold m1. simpl. rewrite nth_error_set_nth, Nat.eqb_refl, Ee.
            reflexivity. }
        destruct (Nat.leb_spec (S i) i); [lia |]. simpl.
        destruct (Nat.leb_spec i i); [| lia]. simpl. rewrite Et. reflexivity.
      * rewrite (Hn j e').
        2:{ rewrite Hi2. unfold m1. simpl. rewrite nth_error_set_nth.
            destruct (Nat.eqb_spec i j); [lia | exact Hj]. }
        destruct (Nat.leb_spec (S i) j), (Nat.leb_spec i j); try lia; reflexivity.
    + destruct (IH (S i) m Hr ltac:(lia)) as (m' & E & Hr' & Hl' & Hshape & Hn).
      exists m'. split; [exact E |]. split; [exact Hr' |].
      split; [exact Hl' |]. split; [exact Hshape |].
      intros j e' Hj. rewrite (Hn j e' Hj).
      destruct (Nat.eq_dec j i) as [-> | Hne].
      * rewrite Ee in Hj. injection Hj as <-.
        destruct (Nat.leb_spec (S i) i); [lia |]. simpl.
        destruct (Nat.leb_spec i i); [| lia]. simpl. rewrite Et. reflexivity.
      * destruct (Nat.leb_spec (S i) j), (Nat.leb_spec i j); try lia; reflexivity.
Qed.

End SelectionFacts.

(** X14: [deselect_all] always succeeds on a menu with one layout record
    per entry.  It empties [sel] and applies [select(0)] to every selected
    [MEL_ITEM] entry, so that afterwards the only [MEL_ITEM] entries that
    still count as selected are those with an action and quantity 0, which
    [select] never turns off. *)
Theorem deselect_all_clears (env : Env) (m : Menu) (update_view : bool) :
  ui_ready m ->
  exists m', deselect_all env m update_view = Some m' /\
    sel m' = [] /\
    (forall j e, nth_error (items m) j = Some e ->
       nth_error (items m') j
       = Some (if level_eqb (level e) MEL_ITEM && selected e
               then select e 0 else e)) /\
    (forall j e', nth_error (items m') j = Some e' ->
       level e' = MEL_ITEM -> selected e' = true ->
       has_action e' = true /\ quantity e' = 0).
Proof.
  intros Hr. unfold deselect_all.
  destruct (deselect_loop_exact env update_view (List.length (items m)) 0%nat m
              Hr ltac:(lia)) as (m' & E & Hr' & Hlen & _ & Hn).
  change (Z.of_nat 0) with 0 in E. rewrite E.
  eexists. split; [reflexivity |]. split; [reflexivity |]. simpl.
  assert (Hn' : forall j e, nth_error (items m) j = Some e ->
            nth_error (items m') j
            = Some (if level_eqb (level e) MEL_ITEM && selected e
                    then select e 0 else e)).
  { intros j e Hj. rewrite (Hn j e Hj).
    destruct (Nat.leb_spec 0 j); [reflexivity | lia]. }
  split; [exact Hn' |].
  intros j e' Hj Hl Hs.
  destruct (nth_error (items m) j) as [e |] eqn:Ee.
  2:{ apply nth_error_None in Ee.
      assert (j < List.length (items m'))%nat by (apply nth_error_Some; congruence).
      lia. }
  rewrite (Hn' j e Ee) in Hj. injection Hj as <-.
  destruct (level_eqb (level e) MEL_ITEM && selected e) eqn:Et.
  - apply andb_true_iff in Et. destruct Et as [_ Hsel].
    unfold select in *. unfold has_action in *.
    destruct (on_select e) eqn:Eo; simpl in *.
    + destruct (Z.eqb_spec (quantity e) 0) as [Hq | Hq]; simpl in *.
      * rewrite Eo. split; [reflexivity | exact Hq].
      * rewrite Hsel in Hs. unfold selected in Hs. simpl in Hs. discriminate.
    + rewrite Hsel in Hs. unfold selected in Hs. simpl in Hs. discriminate.
  - apply level_eqb_eq in Hl. rewrite Hl, Hs in Et. discriminate.
Qed.

Section BulkFacts.

Variable env : Env.

Lemma is_selectable_entry m i e :
  at_ (items m) i = Some e ->
  is_selectable env m i = Some (selectable_entry env m e).
Proof.
  intros He. unfold is_selectable, selectable_entry.
  destruct (select_filter m); [reflexivity |]. rewrite He. reflexivity.
Qed.

Lemma select_index_loop_exact filtered qty k :
  forall i m, ui_ready m -> is_set m MF_SELECT_BY_PAGE = false ->
  (i + k = List.length (items m))%nat ->
  exists m', select_index_loop env filtered qty k (Z.of_nat i) m = Some m' /\
    List.length (items m') = List.length (items m) /\
    forall j e, nth_error (items m) j = Some e ->
      nth_error (items m') j
      = Some (if (i <=? j)%nat && bulk_target env m filtered e
              then select e qty else e).
Proof.
  induction k as [| k IH]; intros i m Hr Hp Hik.
  - exists m. split; [reflexivity |]. split; [reflexivity |]. intros j e Hj.
    assert (j < List.length (items m))%nat by (apply nth_error_Some; congruence).
    destruct (Nat.leb_spec i j); [lia |]. exact Hj.
  - cbn [select_index_loop].
    assert (Hat : forall l : list MenuEntry,
              at_ l (Z.of_nat i) = nth_error l i).
    { intros l. unfold at_. destruct (Z.ltb_spec (Z.of_nat i) 0); [lia |].
      rewrite Nat2Z.id. reflexivity. }
    rewrite Hat.
    destruct (nth_error (items m) i) as [e |] eqn:Ee.
    2:{ apply nth_error_None in Ee. lia. }
    replace (Z.of_nat i + 1) with (Z.of_nat (S i)) by lia.
    assert (Hskip : bulk_target env m filtered e = false ->
              exists m', select_index_loop env filtered qty k (Z.of_nat (S i)) m
                         = Some m' /\
                List.length (items m') = List.length (items m) /\
                forall j e0, nth_error (items m) j = Some e0 ->
                  nth_error (items m') j
                  = Some (if (i <=? j)%nat && bulk_target env m filtered e0
                          then select e0 qty else e0)).
    { intros Hbt.
      destruct (IH (S i) m Hr Hp ltac:(lia)) as (m' & E & Hl & Hn).
      exists m'. split; [exact E |]. split; [exact Hl |].
      intros j e0 Hj. rewrite (Hn j e0 Hj).
      destruct (Nat.eq_dec j i) as [-> | Hne].
      - rewrite Ee in Hj. injection Hj as <-. rewrite Hbt.
        rewrite !andb_false_r. reflexivity.
      - destruct (Nat.leb_spec (S i) j), (Nat.leb_spec i j); try lia;
          reflexivity. }
    destruct (hotkeys e) as [| h0 rest] eqn:Eh.
    { apply Hskip. unfold bulk_target. rewrite Eh.
      rewrite andb_false_r. reflexivity. }
    destruct (level_eqb (level e) MEL_ITEM) eqn:El; simpl negb; cbv iota.
    2:{ apply Hskip. unfold bulk_target. rewrite El. reflexivity. }
    unfold is_hotkey. rewrite Hat, Ee.
    assert (Hk : entry_is_hotkey e (if _key_is_minus h0 then 45 else h0) = true).
    { unfold entry_is_hotkey. rewrite Eh. simpl.
      unfold _key_is_minus. destruct (Z.eqb_spec h0 45) as [-> | _].
      - reflexivity.
      - rewrite Z.eqb_refl. reflexivity. }
    rewrite Hk, Hp. simpl negb. cbv iota.
    rewrite (is_selectable_entry m (Z.of_nat i) e) by (rewrite Hat; exact Ee).
    assert (Hbt : bulk_target env m filtered e
                  = (negb filtered || selectable_entry env m e)).
    { unfold bulk_target. rewrite El, Eh. reflexivity. }
    destruct filtered; simpl in Hbt |- *.
    + destruct (selectable_entry env m e) eqn:Esel.
      * destruct (select_item_index_exact env m (Z.of_nat i) qty e Hr
                    ltac:(rewrite Hat; exact Ee)) as (u' & -> & Hr1).
        rewrite Nat2Z.id in *.
        set (m1 := set_ui_menu _ u') in *.
        destruct (IH (S i) m1 Hr1 Hp) as (m' & E & Hl & Hn).
        { unfold m1. simpl. rewrite length_set_nth. lia. }
        exists m'. split; [exact E |].
        split; [rewrite Hl; unfold m1; simpl; apply length_set_nth |].
        intros j e0 Hj.
        assert (Hbt' : forall x, bulk_target env m1 true x
                                 = bulk_target env m true x) by reflexivity.
        destruct (Nat.eq_dec j i) as [-> | Hne].
        -- rewrite Ee in Hj. injection Hj as <-.
           rewrite (Hn i (select e qty)).
           2:{ unfold m1. simpl. rewrite nth_error_set_nth, Nat.eqb_refl, Ee.
               reflexivity. }
           destruct (Nat.leb_spec (S i) i); [lia |]. simpl.
           destruct (Nat.leb_spec i i); [| lia]. simpl. rewrite Hbt. reflexivity.
        -- rewrite (Hn j e0).
           2:{ unfold m1. simpl. rewrite nth_error_set_nth.
               destruct (Nat.eqb_spec i j); [lia | exact Hj]. }
           rewrite Hbt'.
           destruct (Nat.leb_spec (S i) j), (Nat.leb_spec i j); try lia;
             reflexivity.
      * apply Hskip. exact Hbt.
    + destruct (select_item_index_exact env m (Z.of_nat i) qty e Hr
                  ltac:(rewrite Hat; exact Ee)) as (u' & -> & Hr1).
      rewrite Nat2Z.id in *.
      set (m1 := set_ui_menu _ u') in *.
      destruct (IH (S i) m1 Hr1 Hp) as (m' & E & Hl & Hn).
      { unfold m1. simpl. rewrite length_set_nth. lia. }
      exists m'. split; [exact E |].
      split; [rewrite Hl; unfold m1; simpl; apply length_set_nth |].
      intros j e0 Hj.
      assert (Hbt' : forall x, bulk_target env m1 false x
                               = bulk_target env m false x) by reflexivity.
      destruct (Nat.eq_dec j i) as [-> | Hne].
      -- rewrite Ee in Hj. injection Hj as <-.
         rewrite (Hn i (select e qty)).
         2:{ unfold m1. simpl. rewrite nth_error_set_nth, Nat.eqb_refl, Ee.
             reflexivity. }
         destruct (Nat.leb_spec (S i) i); [lia |]. simpl.
         destruct (Nat.leb_spec i i); [| lia]. simpl. rewrite Hbt. reflexivity.
      -- rewrite (Hn j e0).
         2:{ unfold m1. simpl. rewrite nth_error_set_nth.
             destruct (Nat.eqb_spec i j); [lia | exact Hj]. }
         rewrite Hbt'.
         destruct (Nat.leb_spec (S i) j), (Nat.leb_spec i j); try lia;
           reflexivity.
Qed.

End BulkFacts.

(** X15: in a multiselect menu that does not select by page, the keys
    [','], ['*'] and ['-'] act on every [MEL_ITEM] entry that has a hotkey
    and on no other entry: [','] applies [select(-2)] (select in full) to
    those that pass the selection filter, ['*'] applies [select(-1)]
    (invert) and ['-'] applies [select(0)] (clear). *)
Theorem bulk_selection_keys (env : Env) (m : Menu) (key qty : Z) :
  ui_ready m ->
  has_flag m MF_MULTISELECT = true ->
  is_set m MF_SELECT_BY_PAGE = false ->
  key = 44 \/ key = 42 \/ key = 45 ->
  exists m', select_items env m key qty = Some m' /\
    items m'
    = map (fun e => if bulk_target env m (key =? 44) e
                    then select e (bulk_quantity key) else e) (items m).
Proof.
  intros Hr Hm Hp Hkey. unfold select_items, select_index. rewrite Hm.
  destruct (get_first_visible_ok m false Hr) as (fv & -> & _).
  assert (Hgo : forall filtered q,
            exists m', select_index_loop env filtered q (List.length (items m)) 0 m
                       = Some m' /\
              items m'
              = map (fun e => if bulk_target env m filtered e
                              then select e q else e) (items m)).
  { intros filtered q.
    destruct (select_index_loop_exact env filtered q (List.length (items m))
                0%nat m Hr Hp ltac:(lia)) as (m' & E & Hl & Hn).
    exists m'. split; [exact E |].
    apply nth_error_ext. intros j. rewrite nth_error_map.
    destruct (nth_error (items m) j) as [e |] eqn:Ee.
    - rewrite (Hn j e Ee). destruct (Nat.leb_spec 0 j); [reflexivity | lia].
    - apply nth_error_None. apply nth_error_None in Ee. lia. }
  destruct Hkey as [-> | [-> | ->]]; simpl; apply Hgo.
Qed.

(** X16: in a multiselect menu with a hover on a valid entry, the key
    ['.'] (and the space bar when the arrow keys select) toggles the
    hovered entry with [select(-1)], recomputes [sel], resets the quantity
    accumulator and keeps the menu open, provided the key is bound to no
    command and is none of the special key codes. *)
Theorem dot_toggles_hovered_entry (env : Env) (m : Menu) (keyin : Z)
    (e : MenuEntry) :
  ui_ready m ->
  f_keyfilter m = None ->
  has_flag m MF_MULTISELECT = true ->
  keyin = 46 \/ (keyin = 32 /\ has_flag m MF_ARROWS_SELECT = true) ->
  key_to_command env 46 = CMD_NO_CMD ->
  CK_REDRAW env <> 46 -> CK_MOUSE_B1 env <> 46 -> CK_MOUSE_CLICK env <> 46 ->
  at_ (items m) (last_hovered m) = Some e ->
  exists m',
    process_key env m keyin = Some (true, false, m') /\
    items m' = set_nth (items m) (Z.to_nat (last_hovered m)) (select e (-1)) /\
    sel m' = selected_indices (items m') 0 /\
    num m' = -1 /\ flags m' = flags m /\ last_hovered m' = last_hovered m.
Proof.
  intros Hr Hkf Hm Hkey Hcmd Hrd Hb1 Hcl He.
  pose proof (at_lt_size _ _ _ He) as Hh.
  unfold process_key. rewrite Hkf.
  destruct (items m) as [| e0 t] eqn:Ei; [unfold size in Hh; simpl in Hh; lia |].
  rewrite andb_false_r. cbv iota. rewrite <- Ei in *.
  assert (Hk : (if (keyin =? 32) && has_flag m MF_MULTISELECT
                   && has_flag m MF_ARROWS_SELECT then 46 else keyin) = 46).
  { destruct Hkey as [-> | [-> Ha]]; [reflexivity |].
    rewrite Hm, Ha. reflexivity. }
  rewrite Hk.
  change (isadigit 46) with false. rewrite !andb_false_r. cbv iota.
  unfold get_command, skip_process_command.
  change (_key_is_minus 46) with false. simpl andb. cbv iota.
  change (46 =? -1) with false. cbv iota. rewrite Hcmd. simpl is_no_cmd.
  simpl negb. cbv iota.
  unfold process_key_switch.
  destruct (Z.eqb_spec 46 (CK_REDRAW env)); [congruence |].
  change (46 =? 0) with false. cbv iota.
  destruct (Z.eqb_spec 46 (CK_MOUSE_B1 env)); [congruence |].
  destruct (Z.eqb_spec 46 (CK_MOUSE_CLICK env)); [congruence |].
  simpl orb. simpl andb. cbv iota.
  change (46 =? 46) with true. cbv iota.
  destruct (Z.eqb_spec (last_hovered m) (-1)); [lia |].
  simpl negb. rewrite Hm. simpl andb. cbv iota.
  destruct (select_item_index_exact env m (last_hovered m) (-1) e Hr He)
    as (u' & -> & _).
  eexists. split; [reflexivity |]. simpl. repeat split; reflexivity.
Qed.

(** ** The initial hover *)

Lemma cycle_hover_loop_first (m : Menu) (h : Z) (e : MenuEntry) :
  at_ (items m) h = Some e -> level e = MEL_ITEM ->
  forall k nh, -1 <= nh < h -> h - nh <= Z.of_nat k ->
  (forall j e', nh < j < h -> at_ (items m) j = Some e' ->
     level e' <> MEL_ITEM) ->
  cycle_hover_loop m false k nh = Some (Some h).
Proof.
  intros He Hl. pose proof (at_lt_size _ _ _ He) as Hh.
  induction k as [| k IH]; intros nh Hnh Hk Hbefore; [lia |].
  cbn [cycle_hover_loop].
  set (sz := size (items m)) in *.
  assert (Hnew : Z.max 0 (Z.min
            (if is_set m MF_WRAP && (0 <? sz)
             then Z.rem (nh + 1 + sz) sz else nh + 1) (sz - 1)) = nh + 1).
  { destruct (is_set m MF_WRAP && (0 <? sz)).
    - rewrite Z.rem_mod_nonneg by lia.
      replace (nh + 1 + sz) with (nh + 1 + 1 * sz) by lia.
      rewrite Z.mod_add by lia. rewrite Z.mod_small by lia. lia.
    - lia. }
  rewrite Hnew.
  destruct (Z.eq_dec (nh + 1) h) as [Heq | Hne].
  - rewrite Heq, He.
    assert (level_eqb (level e) MEL_ITEM = true) by (apply level_eqb_eq; exact Hl).
    rewrite H. reflexivity.
  - destruct (at_in_range (items m) (nh + 1)) as [e' He']; [unfold sz in *; lia |].
    rewrite He'.
    destruct (level_eqb (level e') MEL_ITEM) eqn:El.
    + apply level_eqb_eq in El. exfalso.
      exact (Hbefore (nh + 1) e' ltac:(lia) He' El).
    + apply IH; [lia | lia |].
      intros j e'' Hj. apply Hbefore. lia.
Qed.

Section ShowFacts.

Variable env : Env.

(** Without [update_view], [deselect_all] does not look at the widget. *)
Lemma deselect_loop_noview k :
  forall i m, (i + k = List.length (items m))%nat ->
  exists m', deselect_loop env false k (Z.of_nat i) m = Some m' /\
    m' = set_items m (items m') /\
    List.length (items m') = List.length (items m) /\
    forall j e, nth_error (items m) j = Some e ->
      exists e', nth_error (items m') j = Some e' /\ level e' = level e.
Proof.
  induction k as [| k IH]; intros i m Hik.
  - exists m. split; [reflexivity |].
    split; [destruct m as [fl its sl nm lc lh sf kf oss ac ma u scr]; reflexivity |].
    split; [reflexivity |]. intros j e Hj. exists e. split; [exact Hj | reflexivity].
  - cbn [deselect_loop]. unfold at_.
    destruct (Z.ltb_spec (Z.of_nat i) 0); [lia |]. rewrite Nat2Z.id.
    destruct (nth_error (items m) i) as [e |] eqn:Ee.
    2:{ apply nth_error_None in Ee. lia. }
    replace (Z.of_nat i + 1) with (Z.of_nat (S i)) by lia.
    destruct (level_eqb (level e) MEL_ITEM && selected e) eqn:Et.
    + set (m1 := set_items m (set_nth (items m) i (select e 0))).
      destruct (IH (S i) m1) as (m' & E & Hshape & Hl' & Hn).
      { unfold m1. simpl. rewrite length_set_nth. lia. }
      exists m'. split; [exact E |].
      split; [rewrite Hshape at 1; unfold m1;
              destruct m as [fl its sl nm lc lh sf kf oss ac ma u scr];
              reflexivity |].
      split; [rewrite Hl'; unfold m1; simpl; apply length_set_nth |].
      intros j e0 Hj.
      destruct (Nat.eq_dec j i) as [-> | Hne].
      * rewrite Ee in Hj. injection Hj as <-.
        destruct (Hn i (select e 0)) as (e' & He' & Hl).
        { unfold m1. simpl. rewrite nth_error_set_nth, Nat.eqb_refl, Ee.
          reflexivity. }
        exists e'. split; [exact He' |]. rewrite Hl. apply (select_frame e 0).
      * apply Hn. unfold m1. simpl. rewrite nth_error_set_nth.
        destruct (Nat.eqb_spec i j); [lia | exact Hj].
    + destruct (IH (S i) m ltac:(lia)) as (m' & E & Hshape & Hl' & Hn).
      exists m'. split; [exact E |]. split; [exact Hshape |].
      split; [exact Hl' | exact Hn].
Qed.

(** Setting the hover in an arrow-selection menu, also before the widget
    has any entry. *)
Lemma set_hovered_before_display m h :
  size (item_info (m_ui_menu m)) = 0 \/ ui_ready m ->
  is_set m MF_ARROWS_SELECT = true ->
  0 <= h < size (items m) ->
  exists m', set_hovered env m h false = Some m' /\
    items m' = items m /\ last_hovered m' = h /\
    (size (item_info (m_ui_menu m)) = 0 -> m' = set_last_hovered m h).
Proof.
  intros Hui Harrows Hh. unfold set_hovered. rewrite Harrows. simpl.
  replace (Z.min h (size (items m) - 1)) with h by lia.
  destruct (Z.eqb_spec (size (item_info (m_ui_menu m))) 0) as [E0 | E0].
  - eexists. split; [reflexivity |]. repeat split; reflexivity.
  - destruct Hui as [Hui | Hr]; [contradiction |].
    destruct (Z.leb_spec 0 h); [| lia].
    destruct (snap_in_page_ok env
                (set_hovered_entry (set_last_hovered m h) h) h Hr)
      as (b & m' & E).
    rewrite E. exists m'. split; [reflexivity |].
    destruct (snap_in_page_effect env _ _ _ _ E) as (s & -> & _).
    split; [reflexivity |]. split; [reflexivity |]. intros Hz. contradiction.
Qed.

End ShowFacts.

(** X17: [Menu::show] with [MF_INIT_HOVER] in an arrow-selection menu that
    has no hover yet (and does not start at the end) puts the hover on the
    first [MEL_ITEM] entry before the menu is run.  This holds on the first
    show, when the widget has no layout record yet (the hover is then only
    stored in [last_hovered], and the entries are changed by
    [deselect_all] at most), and for a menu that has been displayed
    before. *)
Theorem show_hovers_first_item (env : Env) (m : Menu) (reuse_selections : bool)
    (h : nat) (e : MenuEntry) :
  size (item_info (m_ui_menu m)) = 0 \/ ui_ready m ->
  is_set m MF_INIT_HOVER = true -> is_set m MF_ARROWS_SELECT = true ->
  is_set m MF_START_AT_END = false ->
  last_hovered m = -1 ->
  nth_error (items m) h = Some e -> level e = MEL_ITEM ->
  (forall j e', (j < h)%nat -> nth_error (items m) j = Some e' ->
     level e' <> MEL_ITEM) ->
  exists m', show_prologue env m reuse_selections = Some m' /\
    last_hovered m' = Z.of_nat h /\
    (size (item_info (m_ui_menu m)) = 0 ->
     m_ui_menu m' = m_ui_menu m /\ m_ui_scroller m' = m_ui_scroller m).
Proof.
  intros Hui Hinit Harr Hend Hlh He Hl Hbefore. unfold show_prologue.
  assert (H1 : exists m1,
            (if reuse_selections then Some (get_selected m)
             else deselect_all env m false) = Some m1 /\
            m_ui_menu m1 = m_ui_menu m /\ m_ui_scroller m1 = m_ui_scroller m /\
            flags m1 = flags m /\ last_hovered m1 = -1 /\
            List.length (items m1) = List.length (items m) /\
            forall j e1, nth_error (items m1) j = Some e1 ->
              exists e0, nth_error (items m) j = Some e0 /\ level e1 = level e0).
  { destruct reuse_selections.
    - exists (get_selected m). split; [reflexivity |].
      split; [reflexivity |]. split; [reflexivity |].
      split; [reflexivity |]. split; [exact Hlh |]. split; [reflexivity |].
      intros j e1 Hj. exists e1. split; [exact Hj | reflexivity].
    - unfold deselect_all.
      destruct (deselect_loop_noview env (List.length (items m)) 0%nat m
                  ltac:(lia)) as (m' & E & Hshape & Hlen & Hn).
      change (Z.of_nat 0) with 0 in E. rewrite E.
      eexists. split; [reflexivity |].
      split; [simpl; rewrite Hshape; reflexivity |].
      split; [simpl; rewrite Hshape; reflexivity |].
      split; [simpl; rewrite Hshape; reflexivity |].
      split; [simpl; rewrite Hshape; exact Hlh |].
      split; [exact Hlen |].
      intros j e1 Hj. simpl in Hj.
      destruct (nth_error (items m) j) as [e0 |] eqn:E0.
      + exists e0. split; [reflexivity |].
        destruct (Hn j e0 E0) as (e' & He' & Hl').
        rewrite He' in Hj. injection Hj as <-. exact Hl'.
      + apply nth_error_None in E0.
        assert (j < List.length (items m'))%nat
          by (apply nth_error_Some; congruence). lia. }
  destruct H1 as (m1 & -> & Hu1 & Hsc1 & Hf1 & Hlh1 & Hlen1 & Hlev).
  assert (Hui1 : size (item_info (m_ui_menu m1)) = 0 \/ ui_ready m1).
  { rewrite Hu1. destruct Hui as [H0 | [Hlen Hrows]]; [left; exact H0 |].
    right. split; [rewrite Hu1, Hlen1; exact Hlen | rewrite Hu1; exact Hrows]. }
  assert (Hs : forall fl, is_set m1 fl = is_set m fl)
    by (intros fl; unfold is_set; rewrite Hf1; reflexivity).
  rewrite !Hs, Hend, Hinit, Hlh1. change (-1 <? 0) with true. cbv iota.
  unfold cycle_hover. rewrite !Hs, Harr. simpl negb. cbv iota. rewrite Hlh1.
  change (false && (-1 <? 0)) with false. cbv iota.
  assert (Hh : (h < List.length (items m))%nat)
    by (apply nth_error_Some; congruence).
  destruct (nth_error (items m1) h) as [e1 |] eqn:E1.
  2:{ apply nth_error_None in E1. lia. }
  destruct (Hlev h e1 E1) as (e0 & He0 & Hl1).
  rewrite He in He0. injection He0 as <-.
  assert (Hloop : cycle_hover_loop m1 false
            (Z.to_nat (if is_set m MF_WRAP then size (items m1)
                       else size (items m1) - Z.max (-1) 0)) (-1)
            = Some (Some (Z.of_nat h))).
  { apply (cycle_hover_loop_first m1 (Z.of_nat h) e1).
    - unfold at_. destruct (Z.ltb_spec (Z.of_nat h) 0); [lia |].
      rewrite Nat2Z.id. exact E1.
    - congruence.
    - lia.
    - unfold size. destruct (is_set m MF_WRAP); lia.
    - intros j e' Hj He'. unfold at_ in He'.
      destruct (Z.ltb_spec j 0); [lia |].
      destruct (Hlev _ _ He') as (e0' & He0' & Hl0).
      rewrite Hl0. apply (Hbefore (Z.to_nat j) e0'); [lia | exact He0']. }
  rewrite Hloop.
  destruct (set_hovered_before_display env m1 (Z.of_nat h) Hui1)
    as (m' & E & _ & Hlast & Hfresh).
  { rewrite Hs. exact Harr. }
  { unfold size. lia. }
  exists m'. split; [exact E |]. split; [exact Hlast |].
  intros H0. rewrite Hfresh by (rewrite Hu1; exact H0).
  split; [exact Hu1 | exact Hsc1].
Qed.

(** ** Free functions and small queries *)

Lemma entry_index_loop_spec (l : list MenuEntry) :
  forall pos e index, (pos <= e)%nat ->
  entry_index_loop l pos e index
  = if (e - pos <? List.length l)%nat
    then index + Z.of_nat (List.length
                  (filter (fun it => negb (quantity it =? 0))
                          (firstn (e - pos) l)))
    else -1.
Proof.
  induction l as [| item rest IH]; intros pos e index Hle; simpl.
  - reflexivity.
  - destruct (Nat.eqb_spec pos e) as [-> | Hne].
    + rewrite Nat.sub_diag. simpl. lia.
    + rewrite IH by lia.
      replace (e - pos)%nat with (S (e - S pos)) by lia.
      change (S (e - S pos) <? S (List.length rest))%nat
        with (e - S pos <? List.length rest)%nat.
      destruct (e - S pos <? List.length rest)%nat; [| reflexivity].
      simpl. destruct (quantity item =? 0); simpl; lia.
Qed.

(** X18: [get_entry_index] does not return the position of the entry in
    [items]: it returns the number of entries with a non-zero quantity
    that come before it, and -1 for an entry that is not in [items]. *)
Theorem get_entry_index_counts_quantities (m : Menu) (e : nat) :
  get_entry_index m e
  = if (e <? List.length (items m))%nat
    then Z.of_nat (List.length
           (filter (fun it => negb (quantity it =? 0)) (firstn e (items m))))
    else -1.
Proof.
  unfold get_entry_index. rewrite entry_index_loop_spec by lia.
  rewrite Nat.sub_0_r. reflexivity.
Qed.

(** X19: for the first letter ['a'] and more than one hotkey,
    [hyphenated_hotkey_letters] names the range from ['a'] to the
    [how_many]-th letter of the sequence a..z, A..Z; more than 52 hotkeys
    are shown as 52. *)
Theorem hyphenated_hotkey_letters_range (how_many : Z) :
  1 < how_many ->
  exists c,
    String.get (Z.to_nat (Z.min how_many 52 - 1)) hotkey_alphabet = Some c /\
    hyphenated_hotkey_letters how_many 97
    = ("[<w>a</w>-<w>" ++ String c "</w>]")%string.
Proof.
  intros H. unfold hyphenated_hotkey_letters.
  assert (Hcases : exists k, (k < 51)%nat /\ Z.min how_many 52 = Z.of_nat k + 2).
  { exists (Z.to_nat (Z.min how_many 52 - 2)). lia. }
  destruct Hcases as (k & Hk & ->). clear H.
  do 51 (destruct k as [| k];
         [eexists; split; [vm_compute; reflexivity | vm_compute; reflexivity] |]).
  lia.
Qed.

Lemma string_length_append (s1 s2 : string) :
  String.length (s1 ++ s2) = (String.length s1 + String.length s2)%nat.
Proof. induction s1 as [| c s1 IH]; simpl; [reflexivity | rewrite IH; reflexivity]. Qed.

Lemma spaces_length n : String.length (spaces n) = n.
Proof. induction n as [| n IH]; simpl; [reflexivity | rewrite IH; reflexivity]. Qed.

Lemma string_append_empty (s : string) : (s ++ EmptyString)%string = s.
Proof. induction s as [| c s IH]; simpl; [reflexivity | rewrite IH; reflexivity]. Qed.

Lemma decimal_nonempty (i : Z) : (1 <= String.length (decimal i))%nat.
Proof.
  assert (Hu : forall d, d <> Decimal.Nil ->
            (1 <= String.length (DecimalString.NilZero.string_of_uint d))%nat).
  { intros d Hd. destruct d; simpl; lia. }
  unfold decimal. destruct i as [| p | p]; simpl.
  - lia.
  - apply Hu. apply DecimalPos.Unsigned.to_uint_nonnil.
  - pose proof (Hu _ (DecimalPos.Unsigned.to_uint_nonnil p)). lia.
Qed.

(** X20: without the [f_selitem] callback, [get_select_count_string]
    returns twelve blanks for a count of zero and the text
    [ (N selected)] otherwise; that text is always longer than twelve
    characters, so it is never padded. *)
Theorem select_count_string_default (m : Menu) (count : Z) :
  get_select_count_string None m count
  = (if count =? 0 then spaces 12
     else (" (" ++ decimal count ++ " selected)")%string) /\
  (12 <= String.length (get_select_count_string None m count))%nat.
Proof.
  unfold get_select_count_string.
  destruct (Z.eqb_spec count 0) as [-> | Hne]; simpl negb; cbv iota.
  - split; [reflexivity | simpl; lia].
  - assert (Hlen : (13 <= String.length
                            (" (" ++ decimal count ++ " selected)")%string)%nat).
    { rewrite !string_length_append. pose proof (decimal_nonempty count).
      simpl. lia. }
    replace (Z.to_nat (Z.max (12 - Z.of_nat (String.length
               (" (" ++ decimal count ++ " selected)")%string)) 0))
      with 0%nat by lia.
    simpl spaces. rewrite string_append_empty. split; [reflexivity | lia].
Qed.

Lemma scroll_position_text_mid (p : Z) :
  0 < p < 100 ->
  String.length (scroll_position_text p) = 3%nat /\
  scroll_position_text p <> "top"%string /\
  scroll_position_text p <> "bot"%string.
Proof.
  intros Hp.
  assert (Hk : exists k, (k < 99)%nat /\ p = Z.of_nat k + 1)
    by (exists (Z.to_nat (p - 1)); lia).
  destruct Hk as (k & Hk & ->). clear Hp.
  do 99 (destruct k as [| k];
         [vm_compute; repeat split; discriminate |]).
  lia.
Qed.

(** X21: the text that replaces [XXX] in the footer is always three
    characters wide: [top], [bot], or the percentage padded to two digits
    and followed by a percent sign. *)
Theorem scroll_position_text_width (p : Z) :
  String.length (scroll_position_text p) = 3%nat.
Proof.
  destruct (Z.le_gt_cases p 0) as [H | H].
  - unfold scroll_position_text. destruct (Z.leb_spec p 0); [reflexivity | lia].
  - destruct (Z.le_gt_cases 100 p) as [H1 | H1].
    + unfold scroll_position_text. destruct (Z.leb_spec p 0); [lia |].
      destruct (Z.leb_spec 100 p); [reflexivity | lia].
    + apply scroll_position_text_mid. lia.
Qed.


(** X23: when no colour mapping is tagged [pickup], the pickup menu is
    coloured exactly like the inventory: a mapping tagged [inventory]
    applies to both. *)
Theorem menu_colour_pickup_as_inventory (env : Env)
    (mappings : list colour_mapping) (text prefix : string) :
  Forall (fun cm => cm_tag cm <> "pickup"%string) mappings ->
  menu_colour env mappings text prefix "pickup"
  = menu_colour env mappings text prefix "inventory".
Proof.
  induction 1 as [| cm rest Hcm _ IH]; [reflexivity |].
  cbn [menu_colour]. rewrite IH.
  apply String.eqb_neq in Hcm. rewrite Hcm.
  change ("pickup" =? "pickup")%string with true.
  change ("inventory" =? "pickup")%string with false.
  rewrite andb_true_r, andb_false_r, !orb_false_r.
  destruct (cm_tag cm =? "inventory")%string; reflexivity.
Qed.

(** ** The column composer *)

Section ComposerFacts.

Variable fstring : Type.
Variable fs_width : fstring -> Z.
Variable fs_empty : fstring.
Variable fs_append : fstring -> fstring -> fstring.
Variable fs_pad : fstring -> Z -> fstring.

Lemma strip_blank_lines_snoc (l : list fstring) (a : fstring) :
  strip_blank_lines fstring fs_width (l ++ [a])
  = if fs_width a =? 0 then strip_blank_lines fstring fs_width l
    else l ++ [a].
Proof.
  assert (Hs : skipn (S (List.length l)) (l ++ [a]) = [])
    by (apply skipn_all2; rewrite length_app; simpl; lia).
  assert (Hf : firstn (List.length l) (l ++ [a]) = l)
    by (rewrite firstn_app, Nat.sub_diag, firstn_all; simpl; apply app_nil_r).
  assert (Hn : nth_error (l ++ [a]) (List.length l) = Some a)
    by (rewrite nth_error_app2, Nat.sub_diag by lia; reflexivity).
  unfold strip_blank_lines. rewrite length_app.
  replace (List.length l + List.length [a])%nat with (S (List.length l))
    by (simpl; lia).
  cbn [strip_blank_loop]. rewrite Hn, Hs, Hf, app_nil_r. reflexivity.
Qed.

(** One row of the composed column: the old row, padded up to the margin,
    with the new text appended. *)
Lemma compose_loop_spec margin :
  forall lines f flines,
  (f + List.length lines <= List.length flines)%nat ->
  exists flines',
    compose_loop fstring fs_width fs_append fs_pad lines f margin flines
      = Some flines' /\
    List.length flines' = List.length flines /\
    (forall j, (j < f \/ f + List.length lines <= j)%nat ->
       nth_error flines' j = nth_error flines j) /\
    (forall i line old, nth_error lines i = Some line ->
       nth_error flines (f + i) = Some old ->
       nth_error flines' (f + i)
       = Some (fs_append
                 (if 1 <? margin then
                    if 0 <? margin - fs_width old - 1
                    then fs_pad old (margin - fs_width old - 1) else old
                  else old)
                 line)).
Proof.
  induction lines as [| line rest IH]; intros f flines Hlen.
  - exists flines. split; [reflexivity |]. split; [reflexivity |].
    split; [reflexivity |]. intros i l o H. destruct i; discriminate.
  - cbn [compose_loop].
    destruct (nth_error flines f) as [old |] eqn:Eo.
    2:{ apply nth_error_None in Eo. simpl in Hlen. lia. }
    set (new := fs_append _ line).
    destruct (IH (S f) (set_nth flines f new)) as (fl' & E & Hl & Hout & Hin).
    { rewrite length_set_nth. simpl in Hlen. lia. }
    rewrite E. exists fl'. split; [reflexivity |].
    split; [rewrite Hl; apply length_set_nth |]. split.
    + intros j Hj. rewrite Hout by (simpl in Hj; lia).
      rewrite nth_error_set_nth.
      destruct (Nat.eqb_spec f j); [simpl in Hj; lia | reflexivity].
    + intros i l o Hi Ho. destruct i as [| i].
      * simpl in Hi. injection Hi as <-. rewrite Nat.add_0_r in *.
        rewrite Hout by lia. rewrite nth_error_set_nth, Nat.eqb_refl, Eo.
        rewrite Eo in Ho. injection Ho as <-. reflexivity.
      * simpl in Hi. replace (f + S i)%nat with (S f + i)%nat in * by lia.
        apply (Hin i l o Hi).
        rewrite nth_error_set_nth.
        destruct (Nat.eqb_spec f (S f + i)); [lia | exact Ho].
Qed.

End ComposerFacts.

Lemma nth_resize_lines {A} (fs_empty : A) (l : list A) (n j : nat) :
  (j < n)%nat ->
  nth j (resize_lines A fs_empty l n) fs_empty = nth j l fs_empty.
Proof.
  intros Hj. unfold resize_lines.
  destruct (Nat.lt_ge_cases j (List.length l)) as [H | H].
  - rewrite app_nth1 by (rewrite length_firstn; lia).
    rewrite <- (firstn_skipn n l) at 2.
    rewrite app_nth1 by (rewrite length_firstn; lia). reflexivity.
  - rewrite app_nth2 by (rewrite length_firstn; lia).
    rewrite (nth_overflow l) by lia.
    destruct (Nat.lt_ge_cases (j - List.length (firstn n l))
                              (n - List.length l)) as [H' | H'].
    + apply nth_repeat_lt. exact H'.
    + apply nth_overflow. rewrite repeat_length. exact H'.
Qed.

Lemma length_resize_lines {A} (fs_empty : A) (l : list A) (n : nat) :
  List.length (resize_lines A fs_empty l n) = n.
Proof.
  unfold resize_lines. rewrite length_app, length_firstn, repeat_length. lia.
Qed.

(** X24: [strip_blank_lines] removes exactly the blank lines at the end
    of the list: what it removes are lines of width 0, and the last line it
    keeps, if any, is not blank. *)
Theorem strip_blank_lines_trailing (fstring : Type) (fs_width : fstring -> Z)
    (fs : list fstring) :
  exists blanks,
    fs = strip_blank_lines fstring fs_width fs ++ blanks /\
    Forall (fun line => fs_width line = 0) blanks /\
    forall kept line,
      strip_blank_lines fstring fs_width fs = kept ++ [line] ->
      fs_width line <> 0.
Proof.
  induction fs as [| a l IH] using rev_ind.
  - exists []. split; [reflexivity |]. split; [constructor |].
    intros kept line H. destruct kept; discriminate.
  - rewrite (strip_blank_lines_snoc fstring fs_width).
    destruct (Z.eqb_spec (fs_width a) 0) as [Ha | Ha].
    + destruct IH as (blanks & Hfs & Hall & Hlast).
      exists (blanks ++ [a]). split.
      * rewrite app_assoc, <- Hfs. reflexivity.
      * split; [| exact Hlast].
        apply Forall_app. split; [exact Hall |]. constructor; [exact Ha | constructor].
    + exists []. split; [rewrite app_nil_r; reflexivity |].
      split; [constructor |].
      intros kept line H. apply app_inj_tail in H. destruct H as [_ <-]. exact Ha.
Qed.

(** X25: for a start line that is not negative,
    [compose_formatted_column] succeeds; the result has as many rows as
    are needed to hold the new lines; row [startline + i] is the old row,
    padded with blanks up to column [margin - 1] when the margin is above 1
    and the row is shorter, followed by line [i]; every other row is as it
    was (or empty, if it is new). *)
Theorem compose_formatted_column_rows (fstring : Type)
    (fs_width : fstring -> Z) (fs_empty : fstring)
    (fs_append : fstring -> fstring -> fstring)
    (fs_pad : fstring -> Z -> fstring)
    (flines lines : list fstring) (startline margin : Z) :
  0 <= startline ->
  exists flines',
    compose_formatted_column fstring fs_width fs_empty fs_append fs_pad
      flines lines startline margin = Some flines' /\
    List.length flines'
    = Nat.max (List.length flines) (Z.to_nat startline + List.length lines) /\
    (forall j, (j < Z.to_nat startline
                \/ Z.to_nat startline + List.length lines <= j)%nat ->
       nth j flines' fs_empty = nth j flines fs_empty) /\
    (forall i line, nth_error lines i = Some line ->
       nth_error flines' (Z.to_nat startline + i)
       = Some (let old := nth (Z.to_nat startline + i) flines fs_empty in
               fs_append
                 (if 1 <? margin then
                    if 0 <? margin - fs_width old - 1
                    then fs_pad old (margin - fs_width old - 1) else old
                  else old)
                 line)).
Proof.
  intros Hs. unfold compose_formatted_column.
  destruct (Z.ltb_spec startline 0); [lia |].
  set (st := Z.to_nat startline).
  set (needed := (st + List.length lines)%nat).
  set (fl := if (List.length flines <? needed)%nat
             then resize_lines fstring fs_empty flines needed else flines).
  assert (Hfl : List.length fl = Nat.max (List.length flines) needed).
  { unfold fl. destruct (Nat.ltb_spec (List.length flines) needed).
    - rewrite length_resize_lines. lia.
    - lia. }
  assert (Hnth : forall j, nth j fl fs_empty = nth j flines fs_empty).
  { intros j. unfold fl. destruct (Nat.ltb_spec (List.length flines) needed);
      [| reflexivity].
    destruct (Nat.lt_ge_cases j needed) as [Hj | Hj].
    - apply nth_resize_lines. exact Hj.
    - rewrite !nth_overflow; [reflexivity | lia |].
      rewrite length_resize_lines. exact Hj. }
  destruct (compose_loop_spec fstring fs_width fs_append fs_pad margin lines st fl
              ltac:(unfold needed in *; lia)) as (fl' & E & Hl & Hout & Hin).
  exists fl'. split; [exact E |]. split; [lia |]. split.
  - intros j Hj. rewrite <- Hnth.
    destruct (Nat.lt_ge_cases j (List.length fl)) as [Hlt | Hge].
    + apply nth_error_nth.
      rewrite Hout by exact Hj. apply nth_error_nth'. exact Hlt.
    + rewrite !nth_overflow; [reflexivity | exact Hge | lia].
  - intros i line Hi. cbv zeta. rewrite <- Hnth.
    apply (Hin i line _ Hi). apply nth_error_nth'.
    assert (i < List.length lines)%nat by (apply nth_error_Some; congruence).
    unfold needed in *. lia.
Qed.

(** ** Flags and the initial hover *)

Lemma land_strip_self (f a b : Z) :
  Z.land (Z.land f (Z.lnot (Z.lor a b))) a = 0 /\
  Z.land (Z.land f (Z.lnot (Z.lor a b))) b = 0.
Proof.
  split; apply Z.bits_inj'; intros k Hk;
    rewrite !Z.land_spec, Z.lnot_spec, Z.lor_spec, Z.bits_0 by exact Hk;
    destruct (Z.testbit f k), (Z.testbit a k), (Z.testbit b k); reflexivity.
Qed.

Lemma land_strip_other (f mask fl : Z) :
  Z.land fl mask = 0 ->
  Z.land (Z.land f (Z.lnot mask)) fl = Z.land f fl.
Proof.
  intros H. apply Z.bits_inj'. intros k Hk.
  rewrite !Z.land_spec, Z.lnot_spec by exact Hk.
  assert (Hb : Z.testbit (Z.land fl mask) k = false)
    by (rewrite H; apply Z.bits_0).
  rewrite Z.land_spec in Hb.
  destruct (Z.testbit f k), (Z.testbit mask k), (Z.testbit fl k);
    simpl in *; congruence.
Qed.

(** X26: [set_flags] stores the given flags, except that in a menu
    without selection ([MF_NOSELECT]), or when arrow control is switched
    off in the options, [MF_ARROWS_SELECT] and [MF_INIT_HOVER] are
    cleared; no other flag is affected. *)
Theorem set_flags_strips_arrow_flags (menu_arrow_control : bool) (m : Menu)
    (new_flags : Z) :
  let m' := set_flags menu_arrow_control m new_flags in
  (menu_arrow_control = false \/ Z.land new_flags MF_NOSELECT <> 0 ->
   has_flag m' MF_ARROWS_SELECT = false /\
   has_flag m' MF_INIT_HOVER = false /\
   forall fl, Z.land fl (Z.lor MF_ARROWS_SELECT MF_INIT_HOVER) = 0 ->
     Z.land (flags m') fl = Z.land new_flags fl) /\
  (menu_arrow_control = true -> Z.land new_flags MF_NOSELECT = 0 ->
   flags m' = new_flags) /\
  items m' = items m /\ sel m' = sel m.
Proof.
  cbv zeta. unfold set_flags. cbn [flags set_flags_field].
  split; [| split].
  - intros H.
    assert (Hc : negb menu_arrow_control
                 || negb (Z.land new_flags MF_NOSELECT =? 0) = true).
    { destruct H as [-> | H]; [reflexivity |].
      apply Z.eqb_neq in H. rewrite H. apply orb_true_r. }
    rewrite Hc. unfold has_flag. cbn [flags set_flags_field].
    destruct (land_strip_self new_flags MF_ARROWS_SELECT MF_INIT_HOVER)
      as (-> & ->).
    split; [reflexivity |]. split; [reflexivity |].
    intros fl Hfl. apply land_strip_other. exact Hfl.
  - intros -> H. rewrite H. reflexivity.
  - destruct (negb menu_arrow_control || _); split; reflexivity.
Qed.

(** ** Cycling through the headers *)

(** The block of a valid index, as a range of valid indices. *)
Lemma get_header_block_range (m : Menu) (index : Z) :
  0 <= index < size (items m) ->
  exists first last,
    get_header_block m index = Some (first, last) /\
    0 <= first <= index /\ index <= last < size (items m) /\
    (forall j e, first <= j < index \/ index <= j < last ->
       at_ (items m) j = Some e -> level e <> MEL_ITEM) /\
    (forall e, at_ (items m) (first - 1) = Some e -> level e = MEL_ITEM) /\
    (last = size (items m) - 1 \/
     exists e, at_ (items m) last = Some e /\ level e = MEL_ITEM).
Proof.
  intros Hi. unfold get_header_block.
  destruct (header_block_first_spec m (Z.to_nat index) index ltac:(lia)
              ltac:(lia)) as (f & Ef & Hf & Hfa & Hfp).
  destruct (header_block_last_spec m (Z.to_nat (size (items m) - index)) index
              Hi ltac:(lia)) as (l & El & Hl & Hla & Hle).
  rewrite Ef, El. exists f, l. split; [reflexivity |].
  split; [exact Hf |]. split; [exact Hl |]. split; [| split; assumption].
  intros j e [Hj | Hj] He; [apply (Hfa j e Hj He) | apply (Hla j e Hj He)].
Qed.

Section HeaderCycle.

Variable env : Env.
Variable m : Menu.
Hypothesis ready : ui_ready m.
Hypothesis vector_size : size (items m) < 2 ^ 64.

(** The block after the block of [cur]: it starts right after the first
    [MEL_ITEM] entry from [cur] on, or at 0 when that entry is the last. *)
Lemma next_block_forward cur :
  0 <= cur < size (items m) ->
  exists l, cur <= l < size (items m) /\
    (forall j e, cur <= j < l -> at_ (items m) j = Some e ->
       level e <> MEL_ITEM) /\
    next_block_from m cur true true
    = Some (if l + 1 <? size (items m) then l + 1 else 0).
Proof.
  intros Hc. unfold next_block_from.
  destruct (get_header_block_range m cur Hc) as (f & l & E & Hf & Hl & Hnon & _ & Hend).
  rewrite E. exists l. split; [exact Hl |]. split.
  { intros j e Hj. apply Hnon. right. exact Hj. }
  destruct (Z.eqb_spec (size (items m)) 0); [lia |].
  unfold wrap_size_t. rewrite (Z.mod_small (l + 1)) by lia.
  destruct (Z.ltb_spec (l + 1) (size (items m))) as [Hlt | Hge].
  - rewrite Z.mod_small by lia.
    destruct (get_header_block_range m (l + 1) ltac:(lia))
      as (f' & l' & E' & Hf' & _ & Hnon' & _).
    rewrite E'. f_equal.
    destruct Hend as [Hend | (e & He & Hle)]; [lia |].
    destruct (Z.eq_dec f' (l + 1)) as [-> | Hne]; [reflexivity |].
    exfalso. apply (Hnon' l e); [left; lia | exact He | exact Hle].
  - assert (l + 1 = size (items m)) by lia.
    rewrite H, Z.mod_same by lia.
    destruct (get_header_block_range m 0 ltac:(lia)) as (f' & l' & E' & Hf' & _).
    rewrite E'. f_equal. lia.
Qed.

Lemma item_visible_total i :
  0 <= i < size (items m) -> exists b, item_visible m i = Some b.
Proof.
  intros Hi. unfold item_visible.
  destruct (viewport_height m =? 0); [eauto |].
  destruct (Z.ltb_spec i 0); [lia |].
  destruct (Z.leb_spec (size (items m)) i); [lia |]. simpl.
  destruct (region_with_headers_ok m i ready Hi) as [[y1 y2] ->]. eauto.
Qed.

Lemma set_scroll_total i :
  0 <= i < size (items m) ->
  exists b m', set_scroll env m i = Some (b, m') /\ ui_ready m' /\
    items m' = items m /\ flags m' = flags m.
Proof.
  intros Hi. unfold set_scroll.
  destruct (viewport_height m =? 0).
  - eexists _, _. split; [reflexivity |]. split; [exact ready |].
    split; reflexivity.
  - destruct (Z.ltb_spec i 0); [lia |].
    destruct (Z.leb_spec (size (items m)) i); [lia |]. simpl.
    destruct (region_with_headers_ok m i ready Hi) as [[y1 y2] ->].
    eexists _, _. split; [reflexivity |]. split; [exact ready |].
    split; reflexivity.
Qed.

End HeaderCycle.

Lemma cycle_hover_total (env : Env) (m : Menu) (reverse : bool) :
  ui_ready m -> 0 < size (items m) ->
  exists m', cycle_hover env m reverse = Some m' /\ items m' = items m.
Proof.
  intros Hr Hsz. unfold cycle_hover.
  destruct (is_set m MF_ARROWS_SELECT); simpl; [| eauto].
  match goal with
  | |- context [cycle_hover_loop m reverse ?k ?nh] =>
      destruct (cycle_hover_loop_total m reverse k Hsz nh) as [r ->]
  end.
  destruct r as [h |]; [| eauto].
  destruct (set_hovered_spec env m h false Hr) as (m' & E & _ & Hi & _).
  exists m'. split; [exact E | exact Hi].
Qed.

(** X27: [cycle_headers] terminates.  On a menu with one layout record
    per entry whose starting index (the hover, or the first visible entry)
    is valid, the forward scan over the blocks either finds a title or
    subtitle and reports [true], or comes back to the block it started from
    and reports [false] without changing the menu; the entries are never
    changed. *)
Theorem cycle_headers_terminates (env : Env) (m : Menu) (start : Z) :
  ui_ready m -> size (items m) < 2 ^ 64 ->
  (if is_set m MF_ARROWS_SELECT then Some (Z.max (last_hovered m) 0)
   else get_first_visible m false) = Some start ->
  0 <= start < size (items m) ->
  exists b m', cycle_headers env m true = Some (b, m') /\
    (b = false -> m' = m) /\ items m' = items m /\
    (b = true -> exists h e, at_ (items m) h = Some e /\
                             is_heading_level (level e) = true).
Proof.
  intros Hr Hvs Hstart Hs. unfold cycle_headers.
  destruct (Z.eqb_spec (size (items m)) 0); [lia |].
  rewrite Hstart.
  destruct (get_header_block_range m start Hs) as (s & l0 & E & Hsb & _ & _ & Hprev & _).
  rewrite E.
  assert (Hloop : forall fuel cur, 0 <= cur < size (items m) ->
            (if cur <=? s then s - cur else size (items m) - cur + s + 1)
              < Z.of_nat fuel ->
            exists b m', cycle_headers_loop env m true s fuel cur = Some (b, m') /\
              (b = false -> m' = m) /\ items m' = items m /\
              (b = true -> exists h e, at_ (items m) h = Some e /\
                                       is_heading_level (level e) = true)).
  { induction fuel as [| fuel IH]; intros cur Hc Hmu.
    - simpl in Hmu. destruct (Z.leb_spec cur s); lia.
    - cbn [cycle_headers_loop].
      destruct (Z.eqb_spec cur s) as [-> | Hne].
      + exists false, m. split; [reflexivity |]. split; [reflexivity |].
        split; [reflexivity | discriminate].
      + destruct (at_in_range (items m) cur Hc) as [e He]. rewrite He.
        destruct (is_heading_level (level e)) eqn:Eh.
        * destruct (item_visible_total m Hr cur Hc) as [vis ->].
          assert (H1 : exists m1,
                    (if negb vis || negb (is_set m MF_ARROWS_SELECT)
                     then do (_, m') <- set_scroll env m cur; Some m'
                     else Some m) = Some m1 /\ ui_ready m1 /\
                    items m1 = items m /\ flags m1 = flags m).
          { destruct (negb vis || negb (is_set m MF_ARROWS_SELECT)).
            - destruct (set_scroll_total env m Hr cur Hc)
                as (b & m' & -> & Hr' & Hi' & Hf').
              exists m'. split; [reflexivity |]. split; [exact Hr' |].
              split; assumption.
            - exists m. split; [reflexivity |]. split; [exact Hr |].
              split; reflexivity. }
          destruct H1 as (m1 & -> & Hr1 & Hi1 & Hf1).
          assert (H2 : exists m2,
                    (if is_set m1 MF_ARROWS_SELECT
                     then do m' <- set_hovered env m1 cur false;
                          cycle_hover env m' false
                     else Some m1) = Some m2 /\ items m2 = items m).
          { destruct (is_set m1 MF_ARROWS_SELECT).
            - destruct (set_hovered_spec env m1 cur false Hr1)
                as (m' & -> & F & Hi' & _).
              destruct (cycle_hover_total env m' false
                          (frame_ui_ready _ _ F Hr1)
                          ltac:(rewrite Hi', Hi1; lia)) as (m2 & -> & Hi2).
              exists m2. split; [reflexivity | congruence].
            - exists m1. split; [reflexivity | exact Hi1]. }
          destruct H2 as (m2 & -> & Hi2).
          exists true, m2. split; [reflexivity |]. split; [discriminate |].
          split; [exact Hi2 |]. intros _. exists cur, e. split; assumption.
        * destruct (next_block_forward m Hvs cur Hc) as (l & Hl & Hnon & ->).
          apply IH.
          -- destruct (Z.ltb_spec (l + 1) (size (items m))); lia.
          -- assert (Hjump : cur < s -> l + 1 <= s).
             { intros Hlt.
               destruct (Z.le_gt_cases (l + 1) s) as [H | H]; [exact H |].
               exfalso.
               destruct (at_in_range (items m) (s - 1) ltac:(lia)) as [e' He'].
               apply (Hnon (s - 1) e'); [lia | exact He' |].
               apply Hprev. exact He'. }
             destruct (Z.leb_spec cur s) as [Hcs | Hcs].
             ++ specialize (Hjump ltac:(lia)).
                destruct (Z.ltb_spec (l + 1) (size (items m))); [| lia].
                destruct (Z.leb_spec (l + 1) s); lia.
             ++ destruct (Z.ltb_spec (l + 1) (size (items m))).
                ** destruct (Z.leb_spec (l + 1) s); lia.
                ** destruct (Z.leb_spec 0 s); lia. }
  destruct (next_block_forward m Hvs s ltac:(lia)) as (l & Hl & _ & ->).
  apply Hloop.
  - destruct (Z.ltb_spec (l + 1) (size (items m))); lia.
  - rewrite Nat2Z.inj_succ. fold (size (items m)).
    destruct (Z.ltb_spec (l + 1) (size (items m))).
    + destruct (Z.leb_spec (l + 1) s); lia.
    + destruct (Z.leb_spec 0 s); lia.
Qed.

(** ** Commands that only navigate *)

Ltac sc_done := unfold same_content; repeat split; reflexivity.

Section NavigationFacts.

Variable env : Env.

Lemma same_content_refl m : same_content m m.
Proof. unfold same_content. repeat split; reflexivity. Qed.

Lemma same_content_scroll m s : same_content m (scroller_set_scroll m s).
Proof. unfold same_content. repeat split; reflexivity. Qed.

Lemma same_content_ui m u : same_content m (set_ui_menu m u).
Proof. unfold same_content. repeat split; reflexivity. Qed.

Lemma same_content_hover m h : same_content m (set_last_hovered m h).
Proof. unfold same_content. repeat split; reflexivity. Qed.

Lemma same_content_num m n :
  items (set_num m n) = items m /\ sel (set_num m n) = sel m /\
  flags (set_num m n) = flags m /\ lastch (set_num m n) = lastch m /\
  menu_action (set_num m n) = menu_action m.
Proof. repeat split; reflexivity. Qed.

Lemma same_content_trans m1 m2 m3 :
  same_content m1 m2 -> same_content m2 m3 -> same_content m1 m3.
Proof.
  unfold same_content. intros (A1 & A2 & A3 & A4 & A5) (B1 & B2 & B3 & B4 & B5).
  repeat split; congruence.
Qed.

Lemma same_content_is_set m m' fl :
  same_content m m' -> is_set m' fl = is_set m fl.
Proof. intros (_ & _ & Hf & _). unfold is_set. rewrite Hf. reflexivity. Qed.

Lemma snap_in_page_content m i b m' :
  snap_in_page env m i = Some (b, m') -> same_content m m'.
Proof.
  intros H. destruct (snap_in_page_effect env _ _ _ _ H) as (s & -> & _).
  apply same_content_scroll.
Qed.

Lemma set_scroll_content m i b m' :
  set_scroll env m i = Some (b, m') -> same_content m m'.
Proof.
  unfold set_scroll. intros H.
  destruct (viewport_height m =? 0).
  - injection H as _ <-. sc_done.
  - destruct ((i <? 0) || (size (items m) <=? i)).
    + injection H as _ <-. sc_done.
    + destruct (region_with_headers m i) as [[y1 y2] |]; [| discriminate].
      injection H as _ <-. sc_done.
Qed.

Lemma set_hovered_content m i force m' :
  set_hovered env m i force = Some m' -> same_content m m'.
Proof.
  unfold set_hovered. intros H.
  destruct (negb force && negb (is_set m MF_ARROWS_SELECT)).
  - destruct (snap_in_page env m i) as [[b m1] |] eqn:E; [| discriminate].
    injection H as <-. exact (snap_in_page_content _ _ _ _ E).
  - cbv zeta in H.
    destruct (size (item_info (m_ui_menu (set_last_hovered m _))) =? 0).
    + injection H as <-. sc_done.
    + destruct (0 <=? _).
      * destruct (snap_in_page env _ _) as [[b m1] |] eqn:E; [| discriminate].
        injection H as <-.
        apply (same_content_trans _ _ _ (same_content_refl _)
                 (snap_in_page_content _ _ _ _ E)).
      * injection H as <-. sc_done.
Qed.

Lemma cycle_hover_content m reverse m' :
  cycle_hover env m reverse = Some m' -> same_content m m'.
Proof.
  unfold cycle_hover. intros H.
  destruct (negb (is_set m MF_ARROWS_SELECT)).
  - injection H as <-. sc_done.
  - cbv zeta in H.
    destruct (cycle_hover_loop m reverse _ _) as [[h |] |]; [| | discriminate].
    + exact (set_hovered_content _ _ _ _ H).
    + injection H as <-. sc_done.
Qed.

Lemma line_down_loop_content m fvy k :
  forall i b m', line_down_loop m fvy k i = Some (b, m') -> same_content m m'.
Proof.
  induction k as [| k IH]; intros i b m' H; simpl in H.
  - injection H as _ <-. sc_done.
  - destruct (get_item_region m i) as [[y1 y2] |]; [| discriminate].
    destruct (y1 =? fvy).
    + exact (IH _ _ _ H).
    + injection H as _ <-. sc_done.
Qed.

Lemma line_down_content m b m' :
  line_down m = Some (b, m') -> same_content m m'.
Proof.
  unfold line_down. intros H.
  destruct (get_first_visible m false) as [index |]; [| discriminate].
  destruct (get_item_region m index) as [[y1 y2] |]; [| discriminate].
  exact (line_down_loop_content _ _ _ _ _ _ H).
Qed.

Lemma line_up_content m b m' :
  line_up m = Some (b, m') -> same_content m m'.
Proof.
  unfold line_up. intros H.
  destruct (get_first_visible m false) as [index |]; [| discriminate].
  destruct (0 <? index).
  - destruct (get_item_region m (index - 1)) as [[y1 y2] |]; [| discriminate].
    injection H as _ <-. sc_done.
  - injection H as _ <-. sc_done.
Qed.

Lemma page_start_content m nh m' :
  page_start m = Some (nh, m') -> same_content m m'.
Proof.
  unfold page_start. intros H. cbv zeta in H.
  set (m0 := if is_set m MF_ARROWS_SELECT && (last_hovered m <? 0)
             then set_last_hovered m 0 else m) in *.
  assert (H0 : same_content m m0)
    by (unfold m0; destruct (_ && _); sc_done).
  destruct (if 0 <=? last_hovered m0 then _ else _); [| discriminate].
  injection H as _ <-. exact H0.
Qed.

Lemma move_hover_content m nh target reverse m' :
  move_hover_with_page env m nh target reverse = Some m' -> same_content m m'.
Proof.
  unfold move_hover_with_page. intros H.
  destruct (0 <=? nh).
  - destruct (get_first_visible m true) as [fv |]; [| discriminate].
    destruct (if is_set m MF_ARROWS_SELECT && _ then _ else _)
      as [m1 |] eqn:E1; [| discriminate].
    assert (H1 : same_content m m1).
    { destruct (is_set m MF_ARROWS_SELECT && _);
        exact (set_hovered_content _ _ _ _ E1). }
    destruct (at_ (items m1) (last_hovered m1)) as [e |]; [| discriminate].
    destruct (negb (level_eqb (level e) MEL_ITEM)).
    + exact (same_content_trans _ _ _ H1 (cycle_hover_content _ _ _ H)).
    + injection H as <-. exact H1.
  - injection H as <-. sc_done.
Qed.

Lemma page_down_content m b m' :
  page_down env m = Some (b, m') -> same_content m m'.
Proof.
  unfold page_down. intros H.
  destruct (page_start m) as [[nh m0] |] eqn:E0; [| discriminate].
  pose proof (page_start_content _ _ _ E0) as H0.
  cbv zeta in H.
  destruct (in_page m0 (size (items m0) - 1) true) as [last_in |];
    [| discriminate].
  destruct (move_hover_with_page env _ nh _ true) as [m1 |] eqn:E1;
    [| discriminate].
  injection H as _ <-.
  apply (same_content_trans _ _ _ H0).
  refine (same_content_trans _ _ _ _
            (move_hover_content _ _ _ _ _ E1)).
  destruct (negb last_in); sc_done.
Qed.

Lemma page_up_content m b m' :
  page_up env m = Some (b, m') -> same_content m m'.
Proof.
  unfold page_up. intros H.
  destruct (page_start m) as [[nh m0] |] eqn:E0; [| discriminate].
  pose proof (page_start_content _ _ _ E0) as H0.
  cbv zeta in H.
  destruct (move_hover_with_page env _ nh _ false) as [m1 |] eqn:E1;
    [| discriminate].
  injection H as _ <-.
  apply (same_content_trans _ _ _ H0).
  refine (same_content_trans _ _ _ (same_content_refl _)
            (move_hover_content _ _ _ _ _ E1)).
Qed.

Lemma cycle_headers_loop_content m forward start fuel :
  forall cur b m',
  cycle_headers_loop env m forward start fuel cur = Some (b, m') ->
  same_content m m'.
Proof.
  induction fuel as [| fuel IH]; intros cur b m' H; simpl in H;
    [discriminate |].
  destruct (cur =? start).
  - injection H as _ <-. sc_done.
  - destruct (at_ (items m) cur) as [e |]; [| discriminate].
    destruct (is_heading_level (level e)).
    + destruct (item_visible m cur) as [vis |]; [| discriminate].
      destruct (if negb vis || negb (is_set m MF_ARROWS_SELECT) then _ else _)
        as [m1 |] eqn:E1; [| discriminate].
      assert (H1 : same_content m m1).
      { destruct (negb vis || negb (is_set m MF_ARROWS_SELECT)).
        - destruct (set_scroll env m cur) as [[b1 m1'] |] eqn:Es; [| discriminate].
          injection E1 as <-. exact (set_scroll_content _ _ _ _ Es).
        - injection E1 as <-. sc_done. }
      destruct (if is_set m1 MF_ARROWS_SELECT then _ else _)
        as [m2 |] eqn:E2; [| discriminate].
      injection H as _ <-.
      apply (same_content_trans _ _ _ H1).
      destruct (is_set m1 MF_ARROWS_SELECT).
      * destruct (set_hovered env m1 cur false) as [m1' |] eqn:Eh; [| discriminate].
        exact (same_content_trans _ _ _ (set_hovered_content _ _ _ _ Eh)
                 (cycle_hover_content _ _ _ E2)).
      * injection E2 as <-. sc_done.
    + destruct (next_block_from m cur forward true) as [next |]; [| discriminate].
      exact (IH _ _ _ H).
Qed.

Lemma cycle_headers_content m forward b m' :
  cycle_headers env m forward = Some (b, m') -> same_content m m'.
Proof.
  unfold cycle_headers. intros H.
  destruct (size (items m) =? 0).
  - injection H as _ <-. sc_done.
  - destruct (if is_set m MF_ARROWS_SELECT then _ else _) as [s0 |];
      [| discriminate].
    destruct (get_header_block m s0) as [[s l] |]; [| discriminate].
    destruct (next_block_from m s forward true) as [cur |]; [| discriminate].
    exact (cycle_headers_loop_content _ _ _ _ _ _ _ H).
Qed.

End NavigationFacts.

(** X28: a command that only navigates (line and page movement, scrolling
    to the top or the end, cycling through the headers, help) never closes
    the menu and never changes the entries, the selection, the flags, the
    last key or the menu action; it resets the quantity accumulator. *)
Theorem navigation_keeps_content (env : Env) (m : Menu) (cmd : command_type)
    (ret : bool) (m' : Menu) :
  is_navigation cmd = true ->
  process_command env m cmd = Some (ret, m') ->
  ret = true /\ same_content m m' /\ num m' = -1.
Proof.
  intros Hnav H. unfold process_command in H.
  match type of H with
  | (do x <- ?body; _) = _ => destruct body as [[r m1] |] eqn:E; [| discriminate]
  end.
  assert (Hcmd : is_no_cmd cmd = false) by (destruct cmd; try discriminate; reflexivity).
  rewrite Hcmd in H. injection H as <- <-.
  assert (Hgoal : r = true /\ same_content m m1).
  { destruct cmd; try discriminate Hnav.
    - (* up *)
      destruct (is_set m MF_ARROWS_SELECT).
      + destruct (cycle_hover env m true) as [m2 |] eqn:E2; [| discriminate].
        injection E as <- <-. split; [reflexivity |].
        exact (cycle_hover_content env _ _ _ E2).
      + destruct (line_up m) as [[b m2] |] eqn:E2; [| discriminate].
        injection E as <- <-. split; [reflexivity |].
        exact (line_up_content _ _ _ E2).
    - destruct (is_set m MF_ARROWS_SELECT).
      + destruct (cycle_hover env m false) as [m2 |] eqn:E2; [| discriminate].
        injection E as <- <-. split; [reflexivity |].
        exact (cycle_hover_content env _ _ _ E2).
      + destruct (line_down m) as [[b m2] |] eqn:E2; [| discriminate].
        injection E as <- <-. split; [reflexivity |].
        exact (line_down_content _ _ _ E2).
    - destruct (line_up m) as [[b m2] |] eqn:E2; [| discriminate].
      injection E as <- <-. split; [reflexivity |].
      exact (line_up_content _ _ _ E2).
    - destruct (line_down m) as [[b m2] |] eqn:E2; [| discriminate].
      injection E as <- <-. split; [reflexivity |].
      exact (line_down_content _ _ _ E2).
    - destruct (page_up env m) as [[b m2] |] eqn:E2; [| discriminate].
      injection E as <- <-. split; [reflexivity |].
      exact (page_up_content env _ _ _ E2).
    - destruct (page_down env m) as [[more m2] |] eqn:E2; [| discriminate].
      pose proof (page_down_content env _ _ _ E2) as H2.
      destruct (negb more && is_set m2 MF_WRAP); injection E as <- <-;
        (split; [reflexivity |]); [| exact H2].
      apply (same_content_trans _ _ _ H2). sc_done.
    - (* scroll to top *)
      cbv zeta in E.
      destruct (is_set (scroller_set_scroll m 0) MF_ARROWS_SELECT
                && negb (size (items (scroller_set_scroll m 0)) =? 0)).
      + destruct (set_hovered env (scroller_set_scroll m 0) 0 false)
          as [m2 |] eqn:E2; [| discriminate].
        pose proof (set_hovered_content env _ _ _ _ E2) as H2.
        destruct (at_ (items m2) (last_hovered m2)) as [e |]; [| discriminate].
        destruct (negb (level_eqb (level e) MEL_ITEM)).
        * destruct (cycle_hover env m2 false) as [m3 |] eqn:E3; [| discriminate].
          injection E as <- <-. split; [reflexivity |].
          exact (same_content_trans _ _ _ H2 (cycle_hover_content env _ _ _ E3)).
        * injection E as <- <-. split; [reflexivity | exact H2].
      + injection E as <- <-. split; [reflexivity | sc_done].
    - (* scroll to end *)
      destruct (negb (size (items m) =? 0)).
      + destruct (in_page m (size (items m) - 1) true) as [last_in |];
          [| discriminate].
        cbv zeta in E.
        set (m0 := if negb last_in then scroller_set_scroll m INT_MAX else m) in *.
        assert (H0 : same_content m m0)
          by (unfold m0; destruct (negb last_in); sc_done).
        destruct (is_set m0 MF_ARROWS_SELECT).
        * destruct (set_hovered env m0 (size (items m0) - 1) false)
            as [m2 |] eqn:E2; [| discriminate].
          pose proof (set_hovered_content env _ _ _ _ E2) as H2.
          destruct (at_ (items m2) (last_hovered m2)) as [e |]; [| discriminate].
          destruct (negb (level_eqb (level e) MEL_ITEM)).
          -- destruct (cycle_hover env m2 true) as [m3 |] eqn:E3; [| discriminate].
             injection E as <- <-. split; [reflexivity |].
             exact (same_content_trans _ _ _ H0
                      (same_content_trans _ _ _ H2
                         (cycle_hover_content env _ _ _ E3))).
          -- injection E as <- <-. split; [reflexivity |].
             exact (same_content_trans _ _ _ H0 H2).
        * injection E as <- <-. split; [reflexivity | exact H0].
      + injection E as <- <-. split; [reflexivity | sc_done].
    - destruct (cycle_headers env m true) as [[b m2] |] eqn:E2; [| discriminate].
      injection E as <- <-. split; [reflexivity |].
      exact (cycle_headers_content env _ _ _ _ E2).
    - injection E as <- <-. split; [reflexivity | sc_done]. }
  destruct Hgoal as (-> & Hc). split; [reflexivity |].
  split; [| reflexivity].
  apply (same_content_trans _ _ _ Hc). sc_done.
Qed.

(** ** The properties above on concrete menus *)

Lemma example_ten_items_wf :
  layout_wf 1 (item_info (example_laid_out example_ten_items 1))
              (row_heights (example_laid_out example_ten_items 1)).
Proof.
  destruct (do_layout_wf example_env 1 ltac:(lia) ltac:(simpl; lia) 10 false 800
              (example_ui (example_infos example_ten_items)) ltac:(simpl; lia))
    as (u' & E & Hwf & _).
  vm_compute in E. injection E as <-. exact Hwf.
Qed.

Lemma example_ten_items_laid_out (fl scroll vph : Z) :
  laid_out (example_menu fl example_ten_items
              (example_laid_out example_ten_items 1) scroll vph).
Proof.
  exists 1. split; [lia |]. split; [exact example_ten_items_wf | reflexivity].
Qed.

Lemma update_menu_sanitises_hover_witness :
  exists m',
    update_menu example_env
      (set_last_hovered
         (example_menu (Z.lor MF_MULTISELECT MF_ARROWS_SELECT) example_ten_items
            (example_laid_out example_ten_items 1) 0 100) 15) = Some m' /\
    last_hovered m' = 9.
Proof.
  destruct (update_menu_sanitises_hover example_env
              (set_last_hovered
                 (example_menu (Z.lor MF_MULTISELECT MF_ARROWS_SELECT)
                    example_ten_items (example_laid_out example_ten_items 1)
                    0 100) 15))
    as (m' & E & _ & _ & _ & Hl).
  - vm_compute. repeat constructor; discriminate.
  - exists m'. split; [exact E |]. rewrite Hl. reflexivity.
Defined.

Lemma do_layout_idempotent_witness :
  do_layout example_env 10 false 800 1 (example_laid_out example_ten_items 1)
  = Some (example_laid_out example_ten_items 1).
Proof.
  apply (do_layout_idempotent example_env 10 false 800 1
           (example_ui (example_infos example_ten_items))).
  vm_compute. reflexivity.
Defined.

Lemma scroll_context_covers_rows_witness :
  exists u',
    do_layout example_env 10 false 800 1
      (example_ui (example_infos example_ten_items)) = Some u' /\
    row_gaps_within (row_heights u') (m_scroll_context u').
Proof.
  destruct (scroll_context_covers_rows example_env 10 false 800 1
              (example_ui (example_infos example_ten_items)))
    as (u' & E & _ & Hg).
  - lia.
  - simpl. lia.
  - simpl. lia.
  - exists u'. split; assumption.
Defined.

Lemma visible_range_is_rows_in_view_witness :
  exists lo hi : nat,
    is_visible_item_range
      (size (item_info (example_laid_out example_ten_items 1)))
      (mkScroller 45 60) (example_laid_out example_ten_items 1)
    = Some (Z.of_nat lo, Z.of_nat hi) /\ (lo <= hi <= 10)%nat.
Proof.
  destruct (visible_range_is_rows_in_view 1
              (example_laid_out example_ten_items 1) (mkScroller 45 60))
    as (lo & hi & E & Hb & _).
  - lia.
  - exact example_ten_items_wf.
  - exists lo, hi. split; [exact E | exact Hb].
Defined.

Lemma first_visible_is_first_below_scroll_witness :
  exists r : nat,
    get_first_visible
      (example_menu MF_MULTISELECT example_ten_items
         (example_laid_out example_ten_items 1) 45 60) false
    = Some (Z.of_nat r) /\ (r <= 10)%nat.
Proof.
  destruct (first_visible_is_first_below_scroll
              (example_menu MF_MULTISELECT example_ten_items
                 (example_laid_out example_ten_items 1) 45 60) false)
    as (r & E & Hr & _).
  - apply example_ten_items_laid_out.
  - exists r. split; [exact E | exact Hr].
Defined.

Lemma line_up_scrolls_up_witness :
  exists m',
    line_up (example_menu MF_MULTISELECT example_ten_items
               (example_laid_out example_ten_items 1) 45 60) = Some (true, m') /\
    get_scroll m' = 40.
Proof.
  destruct (line_up_scrolls_up
              (example_menu MF_MULTISELECT example_ten_items
                 (example_laid_out example_ten_items 1) 45 60))
    as (r & b & m' & Hfv & E & Hb & Hup & _).
  - apply example_ten_items_laid_out.
  - assert (Hfv' : get_first_visible
                     (example_menu MF_MULTISELECT example_ten_items
                        (example_laid_out example_ten_items 1) 45 60) false
                   = Some 3) by (vm_compute; reflexivity).
    rewrite Hfv' in Hfv. injection Hfv as Hr.
    assert (Hr3 : r = 3%nat) by lia. subst r.
    simpl in Hb. subst b.
    destruct (Hup eq_refl) as (Hm' & _).
    exists m'. split; [exact E |]. rewrite Hm'. vm_compute. reflexivity.
Defined.

Lemma line_down_scrolls_down_witness :
  exists b m',
    line_down (example_menu MF_MULTISELECT example_ten_items
                 (example_laid_out example_ten_items 1) 45 60) = Some (b, m').
Proof.
  destruct (line_down_scrolls_down
              (example_menu MF_MULTISELECT example_ten_items
                 (example_laid_out example_ten_items 1) 45 60))
    as (Hdown & _).
  - apply example_ten_items_laid_out.
  - destruct Hdown as (b & m' & E & _).
    + exists 9%nat. split; [simpl; lia | vm_compute; discriminate].
    + exists b, m'. exact E.
Defined.

Lemma set_scroll_makes_visible_witness :
  exists m',
    set_scroll example_env
      (example_menu MF_MULTISELECT example_ten_items
         (example_laid_out example_ten_items 1) 0 100) 5 = Some (true, m') /\
    item_visible m' 5 = Some true.
Proof.
  destruct (set_scroll_makes_visible example_env
              (example_menu MF_MULTISELECT example_ten_items
                 (example_laid_out example_ten_items 1) 0 100) 5 100 120)
    as (m' & E & _ & Hv).
  - vm_compute. discriminate.
  - vm_compute. split; [discriminate | reflexivity].
  - vm_compute. reflexivity.
  - exists m'. split; [exact E |]. apply Hv; vm_compute; [discriminate | reflexivity].
Defined.

Lemma set_scroll_twice_witness :
  exists b m',
    set_scroll example_env
      (example_menu MF_MULTISELECT example_ten_items
         (example_laid_out example_ten_items 1) 0 100) 5 = Some (b, m') /\
    set_scroll example_env m' 5 = Some (true, m').
Proof.
  apply (set_scroll_twice example_env
           (example_menu MF_MULTISELECT example_ten_items
              (example_laid_out example_ten_items 1) 0 100) 5 100 120).
  - vm_compute. discriminate.
  - vm_compute. split; [discriminate | reflexivity].
  - vm_compute. reflexivity.
Defined.

Lemma snap_in_page_makes_visible_witness :
  exists m',
    snap_in_page example_env
      (example_menu MF_MULTISELECT example_ten_items
         (example_laid_out example_ten_items 1) INT_MAX 100) 9
    = Some (true, m') /\
    get_scroll m' = 106 /\ item_visible m' 9 = Some true.
Proof.
  destruct (snap_in_page_makes_visible example_env
              (example_menu MF_MULTISELECT example_ten_items
                 (example_laid_out example_ten_items 1) INT_MAX 100) 9 180 200)
    as (b & m' & E & _ & Hv).
  - vm_compute. split; [reflexivity | discriminate].
  - vm_compute. split; discriminate.
  - vm_compute. split; [discriminate | reflexivity].
  - vm_compute. reflexivity.
  - vm_compute. split; discriminate.
  - vm_compute. discriminate.
  - assert (E' : snap_in_page example_env
                   (example_menu MF_MULTISELECT example_ten_items
                      (example_laid_out example_ten_items 1) INT_MAX 100) 9
                 = Some (true,
                         scroller_set_scroll
                           (example_menu MF_MULTISELECT example_ten_items
                              (example_laid_out example_ten_items 1)
                              INT_MAX 100) 106))
      by (vm_compute; reflexivity).
    exists (scroller_set_scroll
              (example_menu MF_MULTISELECT example_ten_items
                 (example_laid_out example_ten_items 1) INT_MAX 100) 106).
    split; [exact E' |]. split; [reflexivity |].
    rewrite E' in E. injection E as _ <-.
    apply Hv; vm_compute; reflexivity.
Defined.

Lemma header_block_bounds_witness :
  exists first last,
    get_header_block
      (example_menu MF_MULTISELECT example_text_then_item
         (example_laid_out example_text_then_item 1) 0 100) 2
    = Some (first, last) /\ 0 <= first <= 2.
Proof.
  destruct (header_block_bounds
              (example_menu MF_MULTISELECT example_text_then_item
                 (example_laid_out example_text_then_item 1) 0 100) 2)
    as (f & l & E & Hf & _).
  - vm_compute. split; [discriminate | reflexivity].
  - exists f, l. split; [exact E | exact Hf].
Defined.

Lemma cycle_mode_round_trip_witness :
  exists m1 m2,
    cycle_mode (mkMenu 0 [] [] (-1) 0 (-1) [] None None CYCLE_CYCLE ACT_MISC
                       (example_ui []) (mkScroller 0 0)) true
    = Some (true, m1) /\
    cycle_mode m1 false = Some (true, m2) /\ menu_action m2 = ACT_MISC.
Proof.
  destruct (cycle_mode_round_trip
              (mkMenu 0 [] [] (-1) 0 (-1) [] None None CYCLE_CYCLE ACT_MISC
                      (example_ui []) (mkScroller 0 0)) true)
    as (m1 & m2 & E1 & E2 & _ & _ & _ & _ & Hback).
  - left. split; [reflexivity |]. vm_compute. split; [discriminate | reflexivity].
  - exists m1, m2. split; [exact E1 |]. split; [exact E2 | exact Hback].
Defined.

Lemma deselect_all_clears_witness :
  exists m',
    deselect_all example_env
      (example_menu MF_MULTISELECT example_ten_items
         (example_laid_out example_ten_items 1) 0 100) true = Some m' /\
    sel m' = [].
Proof.
  destruct (deselect_all_clears example_env
              (example_menu MF_MULTISELECT example_ten_items
                 (example_laid_out example_ten_items 1) 0 100) true)
    as (m' & E & Hs & _).
  - split; [reflexivity |]. vm_compute. repeat constructor; discriminate.
  - exists m'. split; [exact E | exact Hs].
Defined.

Lemma bulk_selection_keys_witness :
  exists m',
    select_items example_env
      (example_menu MF_MULTISELECT example_ten_items
         (example_laid_out example_ten_items 1) 0 100) 44 (-1) = Some m' /\
    map selected_qty (items m') = [1; 1; 1; 1; 1; 1; 1; 1; 1; 1].
Proof.
  destruct (bulk_selection_keys example_env
              (example_menu MF_MULTISELECT example_ten_items
                 (example_laid_out example_ten_items 1) 0 100) 44 (-1))
    as (m' & E & Hi).
  - split; [reflexivity |]. vm_compute. repeat constructor; discriminate.
  - reflexivity.
  - reflexivity.
  - left. reflexivity.
  - exists m'. split; [exact E |]. rewrite Hi. reflexivity.
Defined.

Lemma dot_toggles_hovered_entry_witness :
  exists m',
    process_key example_env
      (set_last_hovered
         (example_menu (Z.lor MF_MULTISELECT MF_ARROWS_SELECT) example_ten_items
            (example_laid_out example_ten_items 1) 0 100) 3) 32
    = Some (true, false, m') /\
    sel m' = [3%nat].
Proof.
  destruct (dot_toggles_hovered_entry example_env
              (set_last_hovered
                 (example_menu (Z.lor MF_MULTISELECT MF_ARROWS_SELECT)
                    example_ten_items (example_laid_out example_ten_items 1)
                    0 100) 3) 32
              (example_entry "item" MEL_ITEM [100] 1))
    as (m' & E & Hi & Hs & _).
  - split; [reflexivity |]. vm_compute. repeat constructor; discriminate.
  - reflexivity.
  - reflexivity.
  - right. split; reflexivity.
  - reflexivity.
  - vm_compute. discriminate.
  - vm_compute. discriminate.
  - vm_compute. discriminate.
  - reflexivity.
  - exists m'. split; [exact E |]. rewrite Hs, Hi. reflexivity.
Defined.

Lemma show_hovers_first_item_witness :
  exists m',
    show_prologue example_env
      (mkMenu (Z.lor (Z.lor MF_MULTISELECT MF_ARROWS_SELECT) MF_INIT_HOVER)
              example_text_then_item [] (-1) 0 (-1) [] None None CYCLE_NONE
              ACT_EXAMINE (example_ui []) (mkScroller 0 0)) false = Some m' /\
    last_hovered m' = 2.
Proof.
  destruct (show_hovers_first_item example_env
              (mkMenu (Z.lor (Z.lor MF_MULTISELECT MF_ARROWS_SELECT)
                             MF_INIT_HOVER)
                      example_text_then_item [] (-1) 0 (-1) [] None None
                      CYCLE_NONE ACT_EXAMINE (example_ui [])
                      (mkScroller 0 0)) false 2
              (example_entry "go" MEL_ITEM [97] 1))
    as (m' & E & Hl & _).
  - left. reflexivity.
  - reflexivity.
  - reflexivity.
  - reflexivity.
  - reflexivity.
  - reflexivity.
  - reflexivity.
  - intros j e' Hj He'.
    destruct j as [| [| j]]; [| | lia]; simpl in He'; injection He' as <-;
      discriminate.
  - exists m'. split; [exact E | exact Hl].
Defined.

Lemma hyphenated_hotkey_letters_range_witness :
  exists c,
    String.get (Z.to_nat (Z.min 30 52 - 1)) hotkey_alphabet = Some c /\
    hyphenated_hotkey_letters 30 97
    = ("[<w>a</w>-<w>" ++ String c "</w>]")%string.
Proof. apply (hyphenated_hotkey_letters_range 30). lia. Defined.


Lemma menu_colour_pickup_as_inventory_witness :
  menu_colour example_env [mkMapping "inventory" "sword" 4] "a sword"
              EmptyString "pickup"
  = menu_colour example_env [mkMapping "inventory" "sword" 4] "a sword"
                EmptyString "inventory".
Proof.
  apply (menu_colour_pickup_as_inventory example_env
           [mkMapping "inventory" "sword" 4] "a sword" EmptyString).
  repeat constructor. discriminate.
Defined.

Lemma compose_formatted_column_rows_witness :
  exists flines',
    compose_formatted_column string (fun s => Z.of_nat (String.length s))
      EmptyString String.append
      (fun s n => (s ++ spaces (Z.to_nat n))%string)
      ["ab"%string] ["x"%string; "y"%string] 0 5 = Some flines' /\
    List.length flines' = 2%nat.
Proof.
  destruct (compose_formatted_column_rows string
              (fun s => Z.of_nat (String.length s)) EmptyString String.append
              (fun s n => (s ++ spaces (Z.to_nat n))%string)
              ["ab"%string] ["x"%string; "y"%string] 0 5)
    as (fl & E & Hl & _).
  - lia.
  - exists fl. split; [exact E | exact Hl].
Defined.

Lemma cycle_headers_terminates_witness :
  exists b m',
    cycle_headers example_env
      (example_menu MF_MULTISELECT
         [example_entry "first" MEL_ITEM [97] 1;
          example_entry "Section" MEL_SUBTITLE [] 0;
          example_entry "second" MEL_ITEM [98] 1]
         (example_laid_out
            [example_entry "first" MEL_ITEM [97] 1;
             example_entry "Section" MEL_SUBTITLE [] 0;
             example_entry "second" MEL_ITEM [98] 1] 1) 0 100) true
    = Some (b, m').
Proof.
  destruct (cycle_headers_terminates example_env
              (example_menu MF_MULTISELECT
                 [example_entry "first" MEL_ITEM [97] 1;
                  example_entry "Section" MEL_SUBTITLE [] 0;
                  example_entry "second" MEL_ITEM [98] 1]
                 (example_laid_out
                    [example_entry "first" MEL_ITEM [97] 1;
                     example_entry "Section" MEL_SUBTITLE [] 0;
                     example_entry "second" MEL_ITEM [98] 1] 1) 0 100) 0)
    as (b & m' & E & _).
  - split; [reflexivity |]. vm_compute. repeat constructor; discriminate.
  - vm_compute. reflexivity.
  - vm_compute. reflexivity.
  - vm_compute. split; [discriminate | reflexivity].
  - exists b, m'. exact E.
Defined.

Lemma navigation_keeps_content_witness :
  exists m',
    process_command example_env
      (example_menu (Z.lor MF_MULTISELECT MF_ARROWS_SELECT) example_ten_items
         (example_laid_out example_ten_items 1) 0 100) CMD_MENU_SCROLL_TO_END
    = Some (true, m') /\
    items m' = example_ten_items /\ num m' = -1 /\
    get_scroll m' = 106 /\ last_hovered m' = 9.
Proof.
  assert (E : exists m',
            process_command example_env
              (example_menu (Z.lor MF_MULTISELECT MF_ARROWS_SELECT)
                 example_ten_items (example_laid_out example_ten_items 1) 0 100)
              CMD_MENU_SCROLL_TO_END = Some (true, m') /\
            get_scroll m' = 106 /\ last_hovered m' = 9)
    by (vm_compute; eexists; repeat split; reflexivity).
  destruct E as (m' & E & Hs & Hh).
  destruct (navigation_keeps_content example_env _ CMD_MENU_SCROLL_TO_END
              true m' eq_refl E) as (_ & (Hi & _) & Hn).
  exists m'. split; [exact E |]. split; [exact Hi |]. split; [exact Hn |].
  split; [exact Hs | exact Hh].
Defined.
